(** * WITS trade-data extraction: aggregation and table building

    A shallow embedding of [testfile.py]: the row preparation and the two
    aggregation helpers on a parsed worksheet, the main accumulation loop
    over reporter x year x flow x product, and the construction of the
    final table (primary rows, mirrored European-Union rows, removal of
    self pairs, the "World" relabelling and the sort).

    Conventions of the model.
    - A Python [float] is an IEEE 754 binary64 number ([float] below, with
      its infinities, its signed zeros and NaN); [+] and [*] round to
      nearest, ties to even.
    - A cell of a frame is text, an integer or a float, as the column
      holds it: the cells of an [int64] column are integers, those of a
      [float64] column floats (a blank is NaN), those of an [object]
      column what the sheet had.  The type of a numeric column decides
      its arithmetic: an [int64] column is summed in 64-bit integers, which
      wrap around, a [float64] column in floats.
    - What the libraries do beyond that is taken from them as it is, in
      [Conversions]: the text of a float, the reading of a text as a
      number, and the sums whose order of additions belongs to the
      version of numpy and pandas in use.
    - A Python [str] is a [string] whose characters are the code points
      below 256.
    - Downloading, caching and parsing a workbook is the function [fetch]
      given to the main loop; the main loop with its cache is [main_loop]. *)

From Stdlib Require Import String Ascii ZArith List SpecFloat.
From stdpp Require Import gmap strings list fin_maps sorting pretty.

Local Open Scope string_scope.
Local Open Scope list_scope.
Local Open Scope Z_scope.

(** ** Numbers *)

(** binary64: 53 bits of precision, exponents below 1024. *)
Definition float : Type := spec_float.

Definition NaN : float := S754_nan.

Definition fadd (x y : float) : float := SFadd 53 1024 x y.

Definition fmul (x y : float) : float := SFmul 53 1024 x y.

(** [float(n)] of an integer, rounded to nearest. *)
Definition float_of_Z (n : Z) : float := binary_normalize 53 1024 n 0 false.

(** The float of a decimal literal [n / d] whose [n] and [d] are floats
    exactly: the division rounds the quotient to nearest, as the reading
    of the literal does. *)
Definition float_lit (n d : Z) : float :=
  SFdiv 53 1024 (float_of_Z n) (float_of_Z d).

Definition is_nan (x : float) : bool :=
  match x with S754_nan => true | _ => false end.

Definition is_finite (x : float) : bool :=
  match x with
  | S754_zero _ | S754_finite _ _ _ => true
  | S754_infinity _ | S754_nan => false
  end.

(** The negative zero, which no sum started from 0.0 returns. *)
Definition is_neg_zero (x : float) : bool :=
  match x with S754_zero true => true | _ => false end.

(** 64-bit integers: the range, and the value an integer wraps to. *)
Definition in_int64 (z : Z) : bool := (- 2 ^ 63 <=? z) && (z <? 2 ^ 63).

Definition wrap64 (z : Z) : Z := (z + 2 ^ 63) mod 2 ^ 64 - 2 ^ 63.

(** ** Strings: [str.strip()] and [str.lower()] on code points below 256 *)

Definition is_space (a : ascii) : bool :=
  let n := Z.of_N (N_of_ascii a) in
  ((9 <=? n) && (n <=? 13)) || ((28 <=? n) && (n <=? 32))
  || (n =? 133) || (n =? 160).

Definition lower_char (a : ascii) : ascii :=
  let n := Z.of_N (N_of_ascii a) in
  if ((65 <=? n) && (n <=? 90))
     || ((192 <=? n) && (n <=? 222) && negb (n =? 215))
  then ascii_of_N (Z.to_N (n + 32))
  else a.

Fixpoint str_lower (s : string) : string :=
  match s with
  | EmptyString => EmptyString
  | String a s' => String (lower_char a) (str_lower s')
  end.

Fixpoint str_lstrip (s : string) : string :=
  match s with
  | EmptyString => EmptyString
  | String a s' => if is_space a then str_lstrip s' else s
  end.

Fixpoint str_rstrip (s : string) : string :=
  match s with
  | EmptyString => EmptyString
  | String a s' =>
      match str_rstrip s' with
      | EmptyString => if is_space a then EmptyString else String a EmptyString
      | t => String a t
      end
  end.

Definition str_strip (s : string) : string := str_rstrip (str_lstrip s).

(** ** Worksheets

    A cell is text, an integer of an [int64] column (or a Python [int] of
    an [object] column), a float, or an integer of a column of integers
    that do not all fit in 64 bits, signed ([CWide]): pandas holds such a
    column as [uint64] or converts it, and the model keeps the integers
    as they were read and leaves the sums of the column to the library.
    A blank cell is the float NaN.  A [DataFrame] has its column labels
    and its rows, each row mapping a column label to its cell. *)

Inductive cell : Type :=
| CStr (s : string)
| CInt (z : Z)
| CFloat (x : float)
| CWide (z : Z).

Record DataFrame : Type := mkDataFrame {
  columns : list string;
  rows : list (gmap string cell)
}.

Definition row_get (c : string) (r : gmap string cell) : cell :=
  default (CFloat NaN) (r !! c).

(** [df[c]] *)
Definition get_col (c : string) (df : DataFrame) : list cell :=
  map (row_get c) (rows df).

(** [df[c] = vals] *)
Definition set_col (c : string) (vals : list cell) (df : DataFrame) : DataFrame :=
  {| columns := if bool_decide (c ∈ columns df) then columns df
                else columns df ++ [c];
     rows := zip_with (fun r v => <[c := v]> r) (rows df) vals |}.

(** [df[mask]] *)
Definition select_rows (mask : list bool) (df : DataFrame) : DataFrame :=
  {| columns := columns df;
     rows := map fst (List.filter snd (zip (rows df) mask)) |}.

(** ** Errors *)

Abbreviation key := (string * string * Z * string)%type.

(** [ValueError] of the row preparation, [KeyError] of an accumulator
    and of a frame without the column asked for, and what a failed
    download or an unreadable workbook raises. *)
Inductive exn : Type :=
| ValueError (missing found : list string)
| KeyError (k : key)
| ColumnKeyError (c : string)
| FetchError.

Inductive result (A : Type) : Type :=
| Ok (a : A)
| Raise (e : exn).
Arguments Ok {A} a.
Arguments Raise {A} e.

#[global] Instance result_ret : MRet result := fun A a => Ok a.
#[global] Instance result_bind : MBind result := fun A B f m =>
  match m with
  | Ok a => f a
  | Raise e => Raise e
  end.

(** ** Python dictionaries that are iterated: insertion-ordered *)

Fixpoint dict_set {V : Type} (k : string) (v : V) (d : list (string * V))
  : list (string * V) :=
  match d with
  | [] => [(k, v)]
  | (k', v') :: d' =>
      if String.eqb k' k then (k', v) :: d' else (k', v') :: dict_set k v d'
  end.

Fixpoint dict_get {V : Type} (k : string) (d : list (string * V)) : option V :=
  match d with
  | [] => None
  | (k', v') :: d' => if String.eqb k' k then Some v' else dict_get k d'
  end.

(** A number read from a cell by [pd.to_numeric]. *)
Inductive num : Type :=
| NInt (z : Z)
| NFloat (x : float).

(** What the model takes from Python, numpy and pandas as it is.
    - [float_repr x]: the text [.astype(str)] makes of the float [x], or
      [None] where the cell stays as it is (a missing value stays missing
      in pandas 3 and becomes the text "nan" before).
    - [parse_number s]: what [pd.to_numeric(..., errors="coerce")] reads
      in the text [s]: an integer, a float, NaN when [s] is no number.
    - [pandas_sum grouped s]: the sum of the numeric column [s], by
      [Series.sum()] or, when [grouped], by [groupby(...).sum()], then
      [float(...)], in the cases where the result depends on how the
      library orders and compensates its additions ([series_sum] and
      [group_sum] below give the other cases). *)
Class Conversions : Type := {
  float_repr : float -> option string;
  parse_number : string -> num;
  pandas_sum : bool -> list cell -> float
}.

Section Pandas.

Context `{C : Conversions}.

(** [.astype(str)] *)
Definition astype_str (c : cell) : cell :=
  match c with
  | CStr s => CStr s
  | CInt z => CStr (pretty z)
  | CWide z => CStr (pretty z)
  | CFloat x =>
      match float_repr x with
      | Some s => CStr s
      | None => CFloat x
      end
  end.

(** [.str.strip()] and [.str.lower()]: missing on what is not text *)
Definition cell_strip (c : cell) : cell :=
  match c with
  | CStr s => CStr (str_strip s)
  | _ => CFloat NaN
  end.

Definition cell_lower (c : cell) : cell :=
  match c with
  | CStr s => CStr (str_lower s)
  | _ => CFloat NaN
  end.

(** [series == s] *)
Definition cell_eq_str (s : string) (c : cell) : bool :=
  match c with
  | CStr t => String.eqb t s
  | _ => false
  end.

(** [.isin(labels)] *)
Definition cell_isin (labels : list string) (c : cell) : bool :=
  match c with
  | CStr t => bool_decide (t ∈ labels)
  | _ => false
  end.

(** [pd.to_numeric(..., errors="coerce")] of a column.  Each cell is read
    as a number; the type of the result belongs to the column: [int64]
    when every cell is an integer of 64 bits, [float64], every integer
    converted, when some cell is a float (NaN included), and a column of
    the third kind ([CWide]) when all are integers and one is beyond 64
    bits or the column was of that kind already. *)
Definition to_num (c : cell) : num :=
  match c with
  | CStr s => parse_number s
  | CInt z => NInt z
  | CWide z => NInt z
  | CFloat x => NFloat x
  end.

Definition num_is_int (n : num) : bool :=
  match n with NInt _ => true | NFloat _ => false end.

Definition num_int (n : num) : Z :=
  match n with NInt z => z | NFloat _ => 0 end.

Definition num_float (n : num) : float :=
  match n with NInt z => float_of_Z z | NFloat x => x end.

(** The cell is an integer that an [int64] column cannot hold, or comes
    from a column of integers that is not [int64]. *)
Definition cell_wide (c : cell) : bool :=
  match c with
  | CWide _ => true
  | _ => match to_num c with
         | NInt z => negb (in_int64 z)
         | NFloat _ => false
         end
  end.

Definition to_numeric (s : list cell) : list cell :=
  let ns := map to_num s in
  if forallb num_is_int ns then
    if existsb cell_wide s
    then map (fun n => CWide (num_int n)) ns
    else map (fun n => CInt (num_int n)) ns
  else map (fun n => CFloat (num_float n)) ns.

(** [.fillna(0.0)] *)
Definition fillna_cell (c : cell) : cell :=
  match c with
  | CFloat x => if is_nan x then CFloat (float_of_Z 0) else c
  | _ => c
  end.

Definition fillna (s : list cell) : list cell := map fillna_cell s.

(** The integers of an [int64] column; the floats of a [float64] column
    that holds neither a NaN, which a sum skips, nor a negative zero,
    whose sum depends on the zero the library starts from. *)
Definition int64_values (s : list cell) : option (list Z) :=
  mapM (fun c => match c with
                 | CInt z => if in_int64 z then Some z else None
                 | _ => None
                 end) s.

Definition float64_values (s : list cell) : option (list float) :=
  mapM (fun c => match c with
                 | CFloat x => if is_nan x || is_neg_zero x then None else Some x
                 | _ => None
                 end) s.

Definition Zsum (l : list Z) : Z := fold_right Z.add 0 l.

(** [float(s.sum())].  An [int64] column is summed in 64-bit integers,
    whatever the order; the empty column sums to 0.  Of a [float64]
    column with one or two values, none a NaN or a negative zero, the sum
    is the value, or the rounded sum of the two, whatever zero the
    additions start from; every other sum depends on the order of the
    additions and is the library's. *)
Definition series_sum (s : list cell) : float :=
  match int64_values s with
  | Some zs => float_of_Z (wrap64 (Zsum zs))
  | None =>
      match float64_values s with
      | Some [x] => x
      | Some [x; y] => fadd x y
      | _ => pandas_sum false s
      end
  end.

(** [float(g.loc[p, c])] for the rows [s] of the group [p], one at
    least: a single integer is itself; every other sum is pandas'. *)
Definition group_sum (s : list cell) : float :=
  match int64_values s with
  | Some [z] => float_of_Z z
  | _ => pandas_sum true s
  end.

Definition required : list string :=
  ["Partner"; "Quantity"; "Quantity Unit"; "Trade Value 1000USD"].

Definition _prep_kg_rows (df : DataFrame) : result DataFrame :=
  let missing := filter (fun c => c ∉ columns df) required in
  if negb (bool_decide (missing = [])) then
    Raise (ValueError missing (columns df))
  else
    let d := df in
    let d := set_col "Partner" (map cell_strip (map astype_str (get_col "Partner" d))) d in
    let d := set_col "Quantity Unit"
               (map cell_strip (map astype_str (get_col "Quantity Unit" d))) d in
    let d := select_rows
               (map (cell_eq_str "kg") (map cell_lower (get_col "Quantity Unit" d))) d in
    let d := set_col "Quantity" (fillna (to_numeric (get_col "Quantity" d))) d in
    let d := set_col "Trade Value 1000USD"
               (fillna (to_numeric (get_col "Trade Value 1000USD" d))) d in
    Ok d.

(** [.groupby("Partner")[["Quantity", "Trade Value 1000USD"]]]: the
    groups are indexed by the partner labels that occur, each with the
    cells of its rows in row order, of which [.sum()] takes the sums.
    The frame grouped here has been through [.isin(partners)], so every
    label is text; a row whose label is not text belongs to no group that
    a text label can name. *)
Definition group_add (g : gmap string (list cell * list cell)) (r : gmap string cell)
  : gmap string (list cell * list cell) :=
  match row_get "Partner" r with
  | CStr p =>
      let '(q, v) := default ([], []) (g !! p) in
      <[p := (q ++ [row_get "Quantity" r], v ++ [row_get "Trade Value 1000USD" r])]> g
  | _ => g
  end.

Definition groupby_partner (d : DataFrame) : gmap string (list cell * list cell) :=
  fold_left group_add (rows d) ∅.

Definition get_qty_and_value_sums_for_partners
    (df : DataFrame) (partners : list string)
  : result (list (string * (float * float))) :=
  d ← _prep_kg_rows df;
  let g := groupby_partner
             (select_rows (map (cell_isin partners) (get_col "Partner" d)) d) in
  Ok (fold_left
        (fun out p =>
           match g !! p with
           | Some (q, v) => dict_set p (group_sum q, group_sum v) out
           | None => dict_set p (float_of_Z 0, float_of_Z 0) out
           end)
        partners []).

Definition get_rest_of_world_sum
    (df : DataFrame) (exclude_partners : list string)
  : result (float * float) :=
  d ← _prep_kg_rows df;
  let d := select_rows
             (map (fun c => negb (cell_isin exclude_partners c))
                  (get_col "Partner" d)) d in
  Ok (series_sum (get_col "Quantity" d),
      series_sum (get_col "Trade Value 1000USD" d)).

End Pandas.

Definition inverse_flow (flow : string) : string :=
  if String.eqb flow "I" then "E" else "I".

Definition flow_label (flow : string) : string :=
  if String.eqb flow "I" then "Import" else "Export".

(** ** Configuration: the compiled-in constants *)

Record Config : Type := mkConfig {
  REGION_LABEL_EU : string;
  REPORTERS : list (string * string);
  BASE_PARTNERS : list string;
  EU_COUNTRIES : list string;
  YEARS : list Z;
  FLOWS : list string;
  PRODUCTS : list string;
  USD_TO_EUR : gmap Z float
}.

Definition PARTNERS (cfg : Config) : list string := BASE_PARTNERS cfg ++ ["World"].

Definition EXCLUDE_FOR_ROW (cfg : Config) : list string :=
  BASE_PARTNERS cfg ++ [REGION_LABEL_EU cfg; "World"] ++ EU_COUNTRIES cfg.

Definition config : Config :=
  {| REGION_LABEL_EU := "European Union";
     REPORTERS :=
       [("European Union", "EUN"); ("China", "CHN"); ("Chile", "CHL");
        ("Canada", "CAN"); ("United States", "USA");
        ("Russian Federation", "RUS"); ("Argentina", "ARG")];
     BASE_PARTNERS :=
       ["United States"; "China"; "Russian Federation"; "Canada"; "Argentina"; "Chile"];
     EU_COUNTRIES :=
       ["Austria"; "Belgium"; "Bulgaria"; "Croatia"; "Cyprus"; "Czech Republic"; "Denmark";
        "Estonia"; "Finland"; "France"; "Germany"; "Greece"; "Hungary"; "Ireland"; "Italy";
        "Latvia"; "Lithuania"; "Luxembourg"; "Malta"; "Netherlands"; "Poland"; "Portugal";
        "Romania"; "Slovak Republic"; "Slovenia"; "Spain"; "Sweden"];
     YEARS := [2020; 2021; 2022; 2023; 2024];
     FLOWS := ["I"; "E"];
     PRODUCTS :=
       ["430110"; "430120"; "430130"; "430140"; "430150"; "430160"; "430170"; "430180";
        "430190"];
     USD_TO_EUR :=
       {[ 2024 := float_lit 924 1000; 2023 := float_lit 924 1000;
          2022 := float_lit 951 1000; 2021 := float_lit 846 1000;
          2020 := float_lit 877 1000 ]} |}.

(** ** Loops that may raise *)

Fixpoint foldM {A S : Type} (f : S -> A -> result S) (l : list A) (s : S) : result S :=
  match l with
  | [] => Ok s
  | x :: l' => s' ← f s x; foldM f l' s'
  end.

(** Nested [for] loops whose bodies append to one list. *)
Fixpoint concat_mapM {A B : Type} (f : A -> result (list B)) (l : list A)
  : result (list B) :=
  match l with
  | [] => Ok []
  | x :: l' => ys ← f x; zs ← concat_mapM f l'; Ok (ys ++ zs)
  end.

(** ** The accumulators *)

Definition acc_keys (cfg : Config) : list key :=
  reporter ← (REPORTERS cfg).*1;
  partner ← PARTNERS cfg;
  year ← YEARS cfg;
  flow ← FLOWS cfg;
  [(reporter, partner, year, flow)].

Definition acc_init (cfg : Config) : gmap key float :=
  foldl (fun acc k => <[k := float_of_Z 0]> acc) ∅ (acc_keys cfg).

(** [acc[k]] and [acc[k] += v] *)
Definition acc_get (acc : gmap key float) (k : key) : result float :=
  match acc !! k with
  | Some a => Ok a
  | None => Raise (KeyError k)
  end.

Definition acc_add (acc : gmap key float) (k : key) (v : float)
  : result (gmap key float) :=
  a ← acc_get acc k; Ok (<[k := fadd a v]> acc).

Record out_row : Type := mkRow {
  Reporter : string;
  Partner : string;
  Tradeflow : string;
  Year : Z;
  Quantity_in_kg : float;
  Trade_Value_USD : float;
  Trade_Value_EUR : float
}.

Abbreviation accs := (gmap key float * gmap key float)%type.

Section Main.

Context `{C : Conversions}.

(** The sheet for a reporter code, year, flow and product: the cached
    file or the download, parsed; any failure there aborts the run. *)
Variable fetch : string -> Z -> string -> string -> result DataFrame.

Variable cfg : Config.

Definition add_sums (reporter_label : string) (year : Z) (flow : string)
    (st : accs) (item : string * (float * float)) : result accs :=
  let '(qty_acc, val1000_acc) := st in
  let '(partner, (qty, val1000)) := item in
  qty_acc ← acc_add qty_acc (reporter_label, partner, year, flow) qty;
  val1000_acc ← acc_add val1000_acc (reporter_label, partner, year, flow) val1000;
  Ok (qty_acc, val1000_acc).

Definition product_step (reporter_label reporter_code : string) (year : Z)
    (flow : string) (st : accs) (product : string) : result accs :=
  sheet_df ← fetch reporter_code year flow product;
  sums ← get_qty_and_value_sums_for_partners
           sheet_df (PARTNERS cfg);
  row ← get_rest_of_world_sum sheet_df (EXCLUDE_FOR_ROW cfg);
  let sums := dict_set "World" row sums in
  foldM (add_sums reporter_label year flow) sums st.

Definition main_aggregation : result accs :=
  foldM (fun st '(reporter_label, reporter_code) =>
    foldM (fun st year =>
      foldM (fun st flow =>
        foldM (product_step reporter_label reporter_code year flow)
              (PRODUCTS cfg) st)
        (FLOWS cfg) st)
      (YEARS cfg) st)
    (REPORTERS cfg) (acc_init cfg, acc_init cfg).

(** [USD_TO_EUR.get(year)] and the conversion *)
Definition to_eur (year : Z) (trade_value_usd : float) : float :=
  match USD_TO_EUR cfg !! year with
  | Some eur_rate => fmul trade_value_usd eur_rate
  | None => NaN
  end.

Definition primary_row (st : accs) (reporter_label partner : string)
    (year : Z) (flow : string) : result out_row :=
  val1000 ← acc_get (snd st) (reporter_label, partner, year, flow);
  let trade_value_usd := fmul val1000 (float_of_Z 1000) in
  let trade_value_eur := to_eur year trade_value_usd in
  qty ← acc_get (fst st) (reporter_label, partner, year, flow);
  Ok {| Reporter := reporter_label; Partner := partner;
        Tradeflow := flow_label flow; Year := year;
        Quantity_in_kg := qty;
        Trade_Value_USD := trade_value_usd;
        Trade_Value_EUR := trade_value_eur |}.

Definition primary_rows (st : accs) : result (list out_row) :=
  concat_mapM (fun reporter_label =>
    concat_mapM (fun partner =>
      concat_mapM (fun year =>
        concat_mapM (fun flow =>
          r ← primary_row st reporter_label partner year flow; Ok [r])
          (FLOWS cfg))
        (YEARS cfg))
      (PARTNERS cfg))
    (REPORTERS cfg).*1.

Definition mirrored_row (st : accs) (reporter_label : string)
    (year : Z) (flow : string) : result out_row :=
  let eu_partner_name := reporter_label in
  let inv := inverse_flow flow in
  qty_from_eu ← acc_get (fst st) (REGION_LABEL_EU cfg, eu_partner_name, year, inv);
  val1000_from_eu ← acc_get (snd st) (REGION_LABEL_EU cfg, eu_partner_name, year, inv);
  let trade_value_usd := fmul val1000_from_eu (float_of_Z 1000) in
  let trade_value_eur := to_eur year trade_value_usd in
  Ok {| Reporter := reporter_label; Partner := REGION_LABEL_EU cfg;
        Tradeflow := flow_label flow; Year := year;
        Quantity_in_kg := qty_from_eu;
        Trade_Value_USD := trade_value_usd;
        Trade_Value_EUR := trade_value_eur |}.

Definition mirrored_rows (st : accs) : result (list out_row) :=
  concat_mapM (fun reporter_label =>
    if String.eqb reporter_label (REGION_LABEL_EU cfg) then Ok []
    else
      concat_mapM (fun year =>
        concat_mapM (fun flow =>
          r ← mirrored_row st reporter_label year flow; Ok [r])
          (FLOWS cfg))
        (YEARS cfg))
    (REPORTERS cfg).*1.

(** ** Post-processing *)

Definition drop_self_pairs (out : list out_row) : list out_row :=
  List.filter (fun r => negb (String.eqb (Reporter r) (Partner r))) out.

Definition rename_world (out : list out_row) : list out_row :=
  map (fun r =>
         if String.eqb (Partner r) "World" then
           {| Reporter := Reporter r; Partner := "Rest of World";
              Tradeflow := Tradeflow r; Year := Year r;
              Quantity_in_kg := Quantity_in_kg r;
              Trade_Value_USD := Trade_Value_USD r;
              Trade_Value_EUR := Trade_Value_EUR r |}
         else r) out.

Definition key_compare (a b : out_row) : comparison :=
  match String.compare (Reporter a) (Reporter b) with
  | Eq =>
      match String.compare (Partner a) (Partner b) with
      | Eq =>
          match Z.compare (Year a) (Year b) with
          | Eq => String.compare (Tradeflow a) (Tradeflow b)
          | c => c
          end
      | c => c
      end
  | c => c
  end.

Definition key_le (a b : out_row) : Prop := key_compare a b <> Gt.

#[global] Instance key_le_dec (a b : out_row) : Decision (key_le a b) :=
  ltac:(unfold key_le; apply _).

(** [out.sort_values(["Reporter", "Partner", "Year", "Tradeflow"])] *)
Definition sort_values (out : list out_row) : list out_row :=
  merge_sort key_le out.

(** [pd.DataFrame(rows)] of an empty list has no column, and
    [out["Reporter"]] raises. *)
Definition final_table : result (list out_row) :=
  st ← main_aggregation;
  rows1 ← primary_rows st;
  rows2 ← mirrored_rows st;
  match rows1 ++ rows2 with
  | [] => Raise (ColumnKeyError "Reporter")
  | out =>
      let out := drop_self_pairs out in
      let out := rename_world out in
      Ok (sort_values out)
  end.

End Main.
(** * Vocabulary of the properties *)

(** ** The prepared rows *)

Section PandasSpec.

Context `{C : Conversions}.

(** The label the preparation makes of a cell: its text, trimmed, or
    none where the cell is missing and stays so. *)
Definition cell_label (c : cell) : option string :=
  match astype_str c with
  | CStr s => Some (str_strip s)
  | _ => None
  end.

Definition label_cell (o : option string) : cell :=
  match o with
  | Some s => CStr s
  | None => CFloat NaN
  end.

Definition partner_label (r : gmap string cell) : option string :=
  cell_label (row_get "Partner" r).

Definition unit_label (r : gmap string cell) : option string :=
  cell_label (row_get "Quantity Unit" r).

(** The kilogram rows: the trimmed unit is "kg" whatever the case. *)
Definition is_kg_row (r : gmap string cell) : bool :=
  match unit_label r with
  | Some u => String.eqb (str_lower u) "kg"
  | None => false
  end.

Definition kg_rows (df : DataFrame) : list (gmap string cell) :=
  List.filter is_kg_row (rows df).

(** A figure column of the prepared frame: the cells of the kilogram
    rows, read as numbers together, a NaN replaced by 0.0. *)
Definition prepared_column (c : string) (df : DataFrame) : list cell :=
  fillna (to_numeric (map (row_get c) (kg_rows df))).

(** The prepared rows: every kilogram row of the sheet with its quantity
    and its 1000-USD value as the prepared frame has them. *)
Definition prepared (df : DataFrame) : list (gmap string cell * (cell * cell)) :=
  zip (kg_rows df)
      (zip (prepared_column "Quantity" df)
           (prepared_column "Trade Value 1000USD" df)).

(** The row of the prepared frame. *)
Definition prepared_row (x : gmap string cell * (cell * cell)) : gmap string cell :=
  <["Trade Value 1000USD" := x.2.2]>
    (<["Quantity" := x.2.1]>
       (<["Quantity Unit" := label_cell (unit_label x.1)]>
          (<["Partner" := label_cell (partner_label x.1)]> x.1))).

Definition missing_columns (df : DataFrame) : list string :=
  filter (fun c => c ∉ columns df) required.

(** The trimmed partner label of the row is one of [labels]. *)
Definition labelled (labels : list string) (r : gmap string cell) : bool :=
  match partner_label r with
  | Some p => bool_decide (p ∈ labels)
  | None => false
  end.

(** The rows the rest-of-world sum is taken over: the prepared rows
    whose trimmed partner label is outside the exclusion set. *)
Definition rest_of_world_rows (df : DataFrame) (exclude_partners : list string)
  : list (gmap string cell * (cell * cell)) :=
  List.filter (fun x => negb (labelled exclude_partners x.1)) (prepared df).

Definition rest_of_world_spec (df : DataFrame) (exclude_partners : list string)
  : float * float :=
  (series_sum (map (fun x => x.2.1) (rest_of_world_rows df exclude_partners)),
   series_sum (map (fun x => x.2.2) (rest_of_world_rows df exclude_partners))).

(** The rows summed for one partner: the prepared rows with that trimmed
    partner label. *)
Definition partner_rows (df : DataFrame) (p : string)
  : list (gmap string cell * (cell * cell)) :=
  List.filter (fun x => labelled [p] x.1) (prepared df).

Definition partner_sum_spec (df : DataFrame) (p : string) : float * float :=
  match partner_rows df p with
  | [] => (float_of_Z 0, float_of_Z 0)
  | m => (group_sum (map (fun x => x.2.1) m), group_sum (map (fun x => x.2.2) m))
  end.

(** The mapping sum-for-partners returns: defined on the listed partners. *)
Definition sums_for_partners_spec (df : DataFrame) (partners : list string)
    (p : string) : option (float * float) :=
  if bool_decide (p ∈ partners) then Some (partner_sum_spec df p) else None.

(** The sheet with only its kilogram rows. *)
Definition kg_rows_only (df : DataFrame) : DataFrame :=
  {| columns := columns df; rows := kg_rows df |}.

(** The claim as worded compares the unit as it stands in the sheet,
    without trimming. *)
Definition unit_equals_kg_ignoring_case (r : gmap string cell) : bool :=
  match astype_str (row_get "Quantity Unit" r) with
  | CStr s => String.eqb (str_lower s) "kg"
  | _ => false
  end.

(** A number as a figure column holds it after the preparation: an
    integer, or a float that is not NaN. *)
Definition is_figure (c : cell) : bool :=
  match c with
  | CStr _ => false
  | CInt _ | CWide _ => true
  | CFloat x => negb (is_nan x)
  end.

(** The column is an [int64] or a [float64] column: its cells are all
    integers of 64 bits, or all floats. *)
Definition typed_column (s : list cell) : bool :=
  forallb (fun c => match c with CInt z => in_int64 z | _ => false end) s
  || forallb (fun c => match c with CFloat _ => true | _ => false end) s.

Definition figures_typed (df : DataFrame) : bool :=
  typed_column (get_col "Quantity" df)
  && typed_column (get_col "Trade Value 1000USD" df).

End PandasSpec.

(** ** The run *)

(** The two entries of a key. *)
Definition entry (k : key) (st : gmap key float * gmap key float)
  : option float * option float :=
  (st.1 !! k, st.2 !! k).

Definition rename_row (r : out_row) : out_row :=
  if String.eqb (Partner r) "World" then
    {| Reporter := Reporter r; Partner := "Rest of World";
       Tradeflow := Tradeflow r; Year := Year r;
       Quantity_in_kg := Quantity_in_kg r;
       Trade_Value_USD := Trade_Value_USD r;
       Trade_Value_EUR := Trade_Value_EUR r |}
  else r.

Section MainSpec.

Context `{C : Conversions}.
Variable fetch : string -> Z -> string -> string -> result DataFrame.
Variable cfg : Config.

(** What one product's sheet contributes to the key of a partner: the
    per-partner sum, or the rest-of-world sum for the "World" key. *)
Definition contribution (reporter_code : string) (year : Z) (flow partner product : string)
  : result (float * float) :=
  sheet_df ← fetch reporter_code year flow product;
  if String.eqb partner "World" then
    get_rest_of_world_sum sheet_df (EXCLUDE_FOR_ROW cfg)
  else
    sums ← get_qty_and_value_sums_for_partners sheet_df (PARTNERS cfg);
    Ok (default (float_of_Z 0, float_of_Z 0) (dict_get partner sums)).

Definition products_loop (R c : string) (Y : Z) (F : string) :=
  foldM (product_step fetch cfg R c Y F) (PRODUCTS cfg).

Definition flows_loop (R c : string) (Y : Z) (st : accs) : result accs :=
  foldM (fun st flow => products_loop R c Y flow st) (FLOWS cfg) st.

Definition years_loop (R c : string) (st : accs) : result accs :=
  foldM (fun st year => flows_loop R c year st) (YEARS cfg) st.

(** The accumulators keep their keys. *)
Definition acc_inv (st : accs) : Prop :=
  forall k,
    if bool_decide (k ∈ acc_keys cfg)
    then exists a b, entry k st = (Some a, Some b)
    else entry k st = (None, None).

(** The row built from the entries [qty] and [val1000] of the accumulators. *)
Definition make_row (reporter partner flow : string) (year : Z) (qty val1000 : float)
  : out_row :=
  {| Reporter := reporter; Partner := partner;
     Tradeflow := flow_label flow; Year := year;
     Quantity_in_kg := qty;
     Trade_Value_USD := fmul val1000 (float_of_Z 1000);
     Trade_Value_EUR := to_eur cfg year (fmul val1000 (float_of_Z 1000)) |}.

(** The configuration lets every mirrored row find its key: the European
    Union is a reporter, every other reporter is a partner, and the
    inverse of a flow is a flow. *)
Definition mirror_ready : Prop :=
  REGION_LABEL_EU cfg ∈ (REPORTERS cfg).*1
  /\ Forall (fun R => R = REGION_LABEL_EU cfg \/ R ∈ PARTNERS cfg) (REPORTERS cfg).*1
  /\ Forall (fun F => inverse_flow F ∈ FLOWS cfg) (FLOWS cfg).

#[global] Instance mirror_ready_dec : Decision mirror_ready :=
  ltac:(unfold mirror_ready; apply _).

End MainSpec.

(** ** The aggregations on the heap

    In Python a [DataFrame] is an object named by a reference: [df.copy()]
    and [d[mask]] make new objects, [d[c] = ...] writes into the object
    [d] names.  [Store] runs the preparation and the two aggregations on a
    heap of frames, to see what becomes of the caller's frame. *)

Module Store.

Abbreviation ref := nat.
Abbreviation heap := (gmap nat DataFrame).

(** A computation on the heap: [None] when it reads a reference that
    names no object, else the result or the exception, and the heap. *)
Definition M (A : Type) : Type := heap -> option (result A * heap).

Definition ret {A : Type} (a : A) : M A := fun h => Some (Ok a, h).

Definition raise {A : Type} (e : exn) : M A := fun h => Some (Raise e, h).

Definition bind {A B : Type} (m : M A) (f : A -> M B) : M B :=
  fun h =>
    match m h with
    | Some (Ok a, h') => f a h'
    | Some (Raise e, h') => Some (Raise e, h')
    | None => None
    end.

#[global] Instance M_ret : MRet M := @ret.
#[global] Instance M_bind : MBind M := fun A B f m => bind m f.

Definition read (r : ref) : M DataFrame :=
  fun h => match h !! r with Some df => Some (Ok df, h) | None => None end.

Definition alloc (df : DataFrame) : M ref :=
  fun h => let r := fresh (dom h) in Some (Ok r, <[r := df]> h).

Definition write (r : ref) (df : DataFrame) : M unit :=
  fun h => match h !! r with Some _ => Some (Ok tt, <[r := df]> h) | None => None end.

(** [df.columns], [df.copy()], [df[c]], [df[c] = vals], [df[mask]] *)
Definition df_columns (r : ref) : M (list string) :=
  df ← read r; ret (columns df).

Definition df_copy (r : ref) : M ref :=
  df ← read r; alloc df.

Definition getitem (r : ref) (c : string) : M (list cell) :=
  df ← read r; ret (get_col c df).

Definition setitem (r : ref) (c : string) (vals : list cell) : M unit :=
  df ← read r; write r (set_col c vals df).

Definition getitem_mask (r : ref) (mask : list bool) : M ref :=
  df ← read r; alloc (select_rows mask df).

Section Aggregator.

Context `{C : Conversions}.

Definition _prep_kg_rows (df : ref) : M ref :=
  cols ← df_columns df;
  let missing := filter (fun c => c ∉ cols) required in
  if negb (bool_decide (missing = [])) then raise (ValueError missing cols)
  else
    d ← df_copy df;
    s ← getitem d "Partner";
    setitem d "Partner" (map cell_strip (map astype_str s));;
    s ← getitem d "Quantity Unit";
    setitem d "Quantity Unit" (map cell_strip (map astype_str s));;
    s ← getitem d "Quantity Unit";
    d ← getitem_mask d (map (cell_eq_str "kg") (map cell_lower s));
    s ← getitem d "Quantity";
    setitem d "Quantity" (fillna (to_numeric s));;
    s ← getitem d "Trade Value 1000USD";
    setitem d "Trade Value 1000USD" (fillna (to_numeric s));;
    ret d.

Definition get_qty_and_value_sums_for_partners (df : ref) (partners : list string)
  : M (list (string * (float * float))) :=
  d ← _prep_kg_rows df;
  s ← getitem d "Partner";
  d ← getitem_mask d (map (cell_isin partners) s);
  grouped ← read d;
  let g := groupby_partner grouped in
  ret (fold_left
         (fun out p =>
            match g !! p with
            | Some (q, v) => dict_set p (group_sum q, group_sum v) out
            | None => dict_set p (float_of_Z 0, float_of_Z 0) out
            end)
         partners []).

Definition get_rest_of_world_sum (df : ref) (exclude_partners : list string)
  : M (float * float) :=
  d ← _prep_kg_rows df;
  s ← getitem d "Partner";
  d ← getitem_mask d (map (fun c => negb (cell_isin exclude_partners c)) s);
  q ← getitem d "Quantity";
  v ← getitem d "Trade Value 1000USD";
  ret (series_sum q, series_sum v).

End Aggregator.

End Store.

(** The heap [h'] holds every object of [h], unchanged. *)
Definition preserves (h h' : gmap nat DataFrame) : Prop :=
  forall r df, h !! r = Some df -> h' !! r = Some df.

(** ** Example data *)

(** The worked example of the specification: one sheet with the partners
    China and Japan. *)
Definition example_row (p : string) (q : Z) (u : string) (v : Z) : gmap string cell :=
  {[ "Partner" := CStr p; "Quantity" := CInt q;
     "Quantity Unit" := CStr u; "Trade Value 1000USD" := CInt v ]}.

(** A row of a sheet whose figure columns are [float64]. *)
Definition float_row (p : string) (q : float) (u : string) (v : float)
  : gmap string cell :=
  {[ "Partner" := CStr p; "Quantity" := CFloat q;
     "Quantity Unit" := CStr u; "Trade Value 1000USD" := CFloat v ]}.

Definition example_df : DataFrame :=
  {| columns := ["Reporter"; "Partner"; "Quantity"; "Quantity Unit"; "Trade Value 1000USD"];
     rows := [example_row "China" 100 "Kg" 50; example_row "Japan" 10 "KG" 5] |}.

(** The example sheets hold text in their label columns and, in their
    figure columns, integers of 64 bits or floats of which no sum takes
    more than two: none of the three library functions is ever applied
    to them, and the examples fix the three arbitrarily (no float has a
    text, no text is a number, every sum left to the library is 0.0). *)
Definition text_only : Conversions :=
  {| float_repr := fun _ => None;
     parse_number := fun _ => NFloat NaN;
     pandas_sum := fun _ _ => float_of_Z 0 |}.

(** Every download returns the sheet of the worked example. *)
Definition example_fetch (reporter_code : string) (year : Z) (flow product : string)
  : result DataFrame :=
  Ok example_df.

(** A configuration with two reporters, two products and no rate for 2019. *)
Definition small_config : Config :=
  {| REGION_LABEL_EU := "European Union";
     REPORTERS := [("European Union", "EUN"); ("China", "CHN")];
     BASE_PARTNERS := ["China"; "Japan"];
     EU_COUNTRIES := ["Austria"];
     YEARS := [2019; 2020];
     FLOWS := ["I"; "E"];
     PRODUCTS := ["430110"; "430120"];
     USD_TO_EUR := {[ 2020 := float_lit 877 1000 ]} |}.

(** The value of a result, or a default when it is an exception. *)
Definition result_default {A : Type} (d : A) (r : result A) : A :=
  match r with
  | Ok a => a
  | Raise _ => d
  end.

(** The two entries of a key after the run on the small configuration,
    and the table of that run. *)
Definition small_run_entry (k : key) : option float * option float :=
  result_default (None, None)
    (st ← main_aggregation (C := text_only) example_fetch small_config;
     Ok (entry k st)).

Definition small_table : list out_row :=
  result_default [] (final_table (C := text_only) example_fetch small_config).

(** A Japan row whose unit is written with surrounding blanks, and a row
    in pounds. *)
Definition padded_row : gmap string cell := example_row "Japan" 10 " kg " 5.

Definition pound_row : gmap string cell := example_row "Japan" 7 "lb" 3.

Definition sheet_of (l : list (gmap string cell)) : DataFrame :=
  {| columns := ["Reporter"; "Partner"; "Quantity"; "Quantity Unit"; "Trade Value 1000USD"];
     rows := l |}.

(** A sheet of one row, of a partner outside every list, worth 1e306
    thousand dollars, returned by every download. *)
Definition huge_df : DataFrame :=
  sheet_of [float_row "Brazil" (float_of_Z 1) "kg" (float_of_Z (10 ^ 306))].

Definition huge_fetch (reporter_code : string) (year : Z) (flow product : string)
  : result DataFrame :=
  Ok huge_df.

Definition huge_table : list out_row :=
  result_default [] (final_table (C := text_only) huge_fetch small_config).




(** The worked example with the reporter's own total, filed under
    "World", between its two rows. *)
Definition world_df : DataFrame :=
  sheet_of [example_row "China" 100 "Kg" 50; example_row "World" 110 "kg" 55;
            example_row "Japan" 10 "KG" 5].

Definition world_fetch (reporter_code : string) (year : Z) (flow product : string)
  : result DataFrame :=
  Ok world_df.

(** * The fetcher

    The request for a sheet, the name of its cache file, and the
    main loop with its cache-or-download step. *)

Definition BASE_URL : string := "https://wits.worldbank.org/Download.aspx".

(** [f"{year}"] of an [int] is its decimal writing, [pretty]. *)
Definition build_url (reporter_code : string) (year : Z) (flow product : string)
  : string :=
  let params :=
    "Reporter=" +:+ reporter_code +:+ "&Year=" +:+ pretty year
    +:+ "&Tradeflow=" +:+ flow +:+ "&Partner=ALL&product=" +:+ product
    +:+ "&Type=HS6Productdata&Lang=en" in
  BASE_URL +:+ "?" +:+ params.

(** [f"wits_{reporter_code}_{year}_{flow}_{product}.xlsx"], the name of
    the file under [CACHE_DIR]. *)
Definition cache_file_name (reporter_code : string) (year : Z) (flow product : string)
  : string :=
  "wits_" +:+ reporter_code +:+ "_" +:+ pretty year +:+ "_" +:+ flow
  +:+ "_" +:+ product +:+ ".xlsx".

(** Outside the program are the files of the cache directory, a map
    from file name to contents, and the network, whose state [net] a
    request may change.  A step of the loop takes and returns both.
    [cache_path.exists()] is the lookup of the name, [read_bytes] its
    result and [write_bytes] the insertion; reading or writing a file of
    the directory is taken not to fail. *)
Definition io (net A : Type) : Type :=
  gmap string string * net -> result A * (gmap string string * net).

(** A [for] loop over [l] whose body may raise and acts on the outside. *)
Fixpoint foldIO {net A S : Type} (f : S -> A -> io net S) (l : list A) (s : S)
  : io net S :=
  fun w =>
    match l with
    | [] => (Ok s, w)
    | x :: l' =>
        match f s x w with
        | (Ok s', w') => foldIO f l' s' w'
        | (Raise e, w') => (Raise e, w')
        end
    end.

Section Fetcher.

Context `{C : Conversions} {net : Type}.

Variable download_excel_bytes : string -> net -> result string * net.
Variable read_by_hs6product_sheet : string -> result DataFrame.
Variable USE_CACHE : bool.

(** The body of the main loop up to [excel_bytes]. *)
Definition fetch_excel_bytes (reporter_code : string) (year : Z) (flow product : string)
  : io net string :=
  fun '(files, n) =>
    let url := build_url reporter_code year flow product in
    let cache_path := cache_file_name reporter_code year flow product in
    match (if USE_CACHE then files !! cache_path else None) with
    | Some excel_bytes => (Ok excel_bytes, (files, n))
    | None =>
        match download_excel_bytes url n with
        | (Ok excel_bytes, n') =>
            (Ok excel_bytes,
             (if USE_CACHE then <[cache_path := excel_bytes]> files else files, n'))
        | (Raise e, n') => (Raise e, (files, n'))
        end
    end.

(** The whole body: the bytes, then the sheet read from them and its
    sums added to the accumulators. *)
Definition product_step_io (cfg : Config) (reporter_label reporter_code : string)
    (year : Z) (flow : string) (st : accs) (product : string) : io net accs :=
  fun w =>
    match fetch_excel_bytes reporter_code year flow product w with
    | (Ok excel_bytes, w') =>
        (product_step (fun _ _ _ _ => read_by_hs6product_sheet excel_bytes) cfg
           reporter_label reporter_code year flow st product, w')
    | (Raise e, w') => (Raise e, w')
    end.

Definition main_loop (cfg : Config) : io net accs :=
  foldIO (fun st '(reporter_label, reporter_code) =>
    foldIO (fun st year =>
      foldIO (fun st flow =>
        foldIO (product_step_io cfg reporter_label reporter_code year flow)
               (PRODUCTS cfg) st)
        (FLOWS cfg) st)
      (YEARS cfg) st)
    (REPORTERS cfg) (acc_init cfg, acc_init cfg).

(** The sheet of a request read from the files [files] alone. *)
Definition cached_sheet (files : gmap string string)
    (reporter_code : string) (year : Z) (flow product : string) : result DataFrame :=
  match files !! cache_file_name reporter_code year flow product with
  | Some excel_bytes => read_by_hs6product_sheet excel_bytes
  | None => Raise FetchError
  end.

End Fetcher.

(** A network that is down. *)
Definition no_network {net : Type} (url : string) (n : net) : result string * net :=
  (Raise FetchError, n).

(** [m'] replays [m]: where [m] returns a value, [m'] returns it too
    from any files that hold those [m] left, whatever the network, and
    touches neither the files nor the network. *)
Definition replays {net net' A : Type} (m : io net A) (m' : io net' A) : Prop :=
  forall w a w', m w = (Ok a, w') ->
    w.1 ⊆ w'.1 /\
    forall w'' : gmap string string * net', w'.1 ⊆ w''.1 -> m' w'' = (Ok a, w'').

(** A network that answers every request with the text of the URL and
    counts the requests, and a reader that finds the sheet of the worked
    example in every file. *)
Definition example_download (url : string) (n : nat) : result string * nat :=
  (Ok url, S n).

Definition example_read (excel_bytes : string) : result DataFrame := Ok example_df.

Definition small_loop : result accs * (gmap string string * nat) :=
  main_loop (C := text_only) example_download example_read true small_config (∅, 0%nat).

Definition is_Ok {A : Type} (r : result A) : bool :=
  match r with
  | Ok _ => true
  | Raise _ => false
  end.

(** ** Vocabulary of the further properties *)

(** The character [c] occurs in [s]. *)
Fixpoint has_char (c : ascii) (s : string) : bool :=
  match s with
  | EmptyString => false
  | String a s' => Ascii.eqb a c || has_char c s'
  end.

(** The sort key of a row. *)
Definition row_key (r : out_row) : string * string * Z * string :=
  (Reporter r, Partner r, Year r, Tradeflow r).

(** The sheet without the rows that the exclusion list names and the
    base partners do not: those of "World", of the European Union and of
    its member states. *)
Definition without_excluded `{C : Conversions} (cfg : Config) (df : DataFrame)
  : DataFrame :=
  {| columns := columns df;
     rows := List.filter
               (fun r => negb (labelled (EXCLUDE_FOR_ROW cfg) r
                               && negb (labelled (BASE_PARTNERS cfg) r)))
               (rows df) |}.

(** The labels of the configuration tell the rows of the table apart:
    no reporter, partner or year is listed twice, no two flows have the
    same label, the European Union is no partner of the accumulators, and
    "Rest of World" is neither a partner nor the European Union. *)
Definition keys_distinct (cfg : Config) : Prop :=
  NoDup (REPORTERS cfg).*1 /\ NoDup (PARTNERS cfg) /\ NoDup (YEARS cfg)
  /\ NoDup (flow_label <$> FLOWS cfg)
  /\ (REGION_LABEL_EU cfg ∉ PARTNERS cfg)
  /\ ("Rest of World" ∉ REGION_LABEL_EU cfg :: PARTNERS cfg).

#[global] Instance keys_distinct_dec (cfg : Config) : Decision (keys_distinct cfg) :=
  ltac:(unfold keys_distinct; apply _).

(** The small configuration without a year. *)
Definition no_years_config : Config :=
  {| REGION_LABEL_EU := "European Union";
     REPORTERS := [("European Union", "EUN"); ("China", "CHN")];
     BASE_PARTNERS := ["China"; "Japan"];
     EU_COUNTRIES := ["Austria"];
     YEARS := [];
     FLOWS := ["I"; "E"];
     PRODUCTS := ["430110"; "430120"];
     USD_TO_EUR := {[ 2020 := float_lit 877 1000 ]} |}.

(** A configuration whose second reporter is no partner. *)
Definition lone_config : Config :=
  {| REGION_LABEL_EU := "European Union";
     REPORTERS := [("European Union", "EUN"); ("Chile", "CHL")];
     BASE_PARTNERS := ["China"];
     EU_COUNTRIES := ["Austria"];
     YEARS := [2020];
     FLOWS := ["I"; "E"];
     PRODUCTS := ["430110"];
     USD_TO_EUR := {[ 2020 := float_lit 877 1000 ]} |}.
(** * Properties *)

(** ** Floats *)

Lemma shr_1_nonneg (mrs : shr_record) : 0 <= shr_m mrs -> 0 <= shr_m (shr_1 mrs).
Proof.
  destruct mrs as [m r s]. simpl. destruct m as [|p|p]; [done| |lia].
  intros _. destruct p; simpl; lia.
Qed.

Lemma iter_pos_invariant {A : Type} (P : A -> Prop) (f : A -> A) :
  (forall x, P x -> P (f x)) -> forall p x, P x -> P (SpecFloat.iter_pos f p x).
Proof.
  intros Hf. induction p as [p IH|p IH|]; intros x Hx; simpl; auto.
Qed.

Lemma shr_fexp_nonneg (m e : Z) (l : location) :
  0 <= m -> 0 <= shr_m (shr_fexp 53 1024 m e l).1.
Proof.
  intros Hm. unfold shr_fexp, shr.
  assert (0 <= shr_m (shr_record_of_loc m l)) as H0
    by (by destruct l as [|[]]).
  destruct (_ - e) as [|p|p]; simpl; try done.
  by apply (iter_pos_invariant (fun mrs => 0 <= shr_m mrs) shr_1 shr_1_nonneg).
Qed.

Lemma round_nearest_even_nonneg (m : Z) (l : location) :
  0 <= m -> 0 <= round_nearest_even m l.
Proof.
  intros Hm. unfold round_nearest_even. destruct l as [|[]]; try lia.
  destruct (Z.even m); lia.
Qed.

(** Rounding a mantissa that is not negative never gives NaN. *)
Lemma binary_round_aux_not_nan (sx : bool) (m e : Z) (l : location) :
  0 <= m -> is_nan (binary_round_aux 53 1024 sx m e l) = false.
Proof.
  intros Hm. unfold binary_round_aux.
  pose proof (shr_fexp_nonneg m e l Hm) as H1.
  destruct (shr_fexp 53 1024 m e l) as [mrs' e']. simpl in H1.
  pose proof (shr_fexp_nonneg _ e' loc_Exact
                (round_nearest_even_nonneg _ (loc_of_shr_record mrs') H1)) as H2.
  destruct (shr_fexp 53 1024 _ e' loc_Exact) as [mrs'' e'']. simpl in H2.
  destruct (shr_m mrs'') as [|p|p]; [done| |lia].
  by destruct (_ <=? _).
Qed.

(** A product by a finite number other than zero is NaN only when the
    other factor is, and finite only when the other factor is. *)
Lemma fmul_finite_nan (x : float) (s : bool) (m : positive) (e : Z) :
  is_nan (fmul x (S754_finite s m e)) = is_nan x.
Proof.
  destruct x as [sx|sx| |sx mx ex]; try done.
  apply binary_round_aux_not_nan. lia.
Qed.

Lemma fmul_finite_finite (x : float) (s : bool) (m : positive) (e : Z) :
  is_finite (fmul x (S754_finite s m e)) = true -> is_finite x = true.
Proof. by destruct x. Qed.

Lemma thousand_finite : exists m e, float_of_Z 1000 = S754_finite false m e.
Proof. eexists _, _. vm_compute. reflexivity. Qed.

Lemma usd_nan (v : float) : is_nan (fmul v (float_of_Z 1000)) = is_nan v.
Proof. destruct thousand_finite as (m & e & ->). apply fmul_finite_nan. Qed.

Lemma usd_finite (v : float) :
  is_finite (fmul v (float_of_Z 1000)) = true -> is_finite v = true.
Proof. destruct thousand_finite as (m & e & ->). apply fmul_finite_finite. Qed.

(** ** The error monad and the loops *)

Lemma bind_Ok {A B : Type} (m : result A) (f : A -> result B) (b : B) :
  (m ≫= f) = Ok b -> exists a, m = Ok a /\ f a = Ok b.
Proof. destruct m as [a|e]; simpl; [eauto | discriminate]. Qed.

Ltac inv_bind H :=
  let a := fresh "a" in
  let Ha := fresh "H" a in
  apply bind_Ok in H; destruct H as (a & Ha & H).

Lemma foldM_app {A S : Type} (f : S -> A -> result S) (l1 l2 : list A) (s : S) :
  foldM f (l1 ++ l2) s = (foldM f l1 s ≫= foldM f l2).
Proof.
  revert s; induction l1 as [|x l1 IH]; intros s; simpl; [done|].
  destruct (f s x) as [s'|e]; simpl; [apply IH | done].
Qed.

Lemma foldM_ext {A S : Type} (f g : S -> A -> result S) (l : list A) (s : S) :
  (forall t x, f t x = g t x) -> foldM f l s = foldM g l s.
Proof.
  intros H. revert s; induction l as [|x l IH]; intros s; simpl; [done|].
  rewrite H. destruct (g s x); simpl; [apply IH | done].
Qed.

(** A loop that ends has run the body for each element. *)
Lemma foldM_each {A S : Type} (f : S -> A -> result S) (l : list A) (s s' : S) :
  foldM f l s = Ok s' -> forall x, x ∈ l -> exists t t', f t x = Ok t'.
Proof.
  revert s; induction l as [|y l IH]; intros s H x Hx; simpl in H.
  - by apply not_elem_of_nil in Hx.
  - inv_bind H. apply elem_of_cons in Hx as [->|Hx].
    + by exists s, a.
    + by apply (IH a).
Qed.

(** An invariant kept by every iteration is kept by the loop. *)
Lemma foldM_invariant {A S : Type} (P : S -> Prop) (f : S -> A -> result S)
    (l : list A) (s s' : S) :
  (forall x t t', x ∈ l -> P t -> f t x = Ok t' -> P t') ->
  P s -> foldM f l s = Ok s' -> P s'.
Proof.
  revert s; induction l as [|x l IH]; intros s Hf Hs H; simpl in H.
  - by inversion H; subst.
  - inv_bind H. apply (IH a); [| |done].
    + intros y t t' Hy. apply Hf. by right.
    + eapply Hf; [left | exact Hs | exact Ha].
Qed.

(** A quantity read off the state that only the iteration for [x] may
    change, in a loop that meets [x] once, is what that one iteration
    made of it. *)
Lemma foldM_once {A S V : Type} (get : S -> V) (f : S -> A -> result S)
    (l : list A) (x : A) (s s' : S) :
  NoDup l -> x ∈ l ->
  (forall y t t', y ∈ l -> y <> x -> f t y = Ok t' -> get t' = get t) ->
  foldM f l s = Ok s' ->
  exists t t', get t = get s /\ f t x = Ok t' /\ get s' = get t'.
Proof.
  intros Hnd Hx Hother H.
  apply list_elem_of_split in Hx as (l1 & l2 & ->).
  apply NoDup_app in Hnd as (_ & Hl1 & Hnd2).
  apply NoDup_cons in Hnd2 as (Hl2 & _).
  rewrite foldM_app in H. inv_bind H. simpl in H. inv_bind H.
  exists a, a0. split; [|split; [done|]].
  - apply (foldM_invariant (fun t => get t = get s) f l1 s a); [|done|done].
    intros y t t' Hy Ht Hf. rewrite <- Ht. apply (Hother y); [|  |done].
    + apply elem_of_app; by left.
    + intros ->. apply (Hl1 x Hy). by left.
  - apply (foldM_invariant (fun t => get t = get a0) f l2 a0 s'); [|done|done].
    intros y t t' Hy Ht Hf. rewrite <- Ht. apply (Hother y); [|  |done].
    + apply elem_of_app; right; by right.
    + intros ->. by apply Hl2.
Qed.

(** ** Insertion-ordered dictionaries *)

Lemma dict_get_set {V : Type} (k k' : string) (v : V) (d : list (string * V)) :
  dict_get k' (dict_set k v d) = if String.eqb k k' then Some v else dict_get k' d.
Proof.
  induction d as [|[k0 v0] d IH]; simpl.
  - done.
  - destruct (String.eqb_spec k0 k) as [->|Hk0]; simpl.
    + by destruct (String.eqb_spec k k').
    + destruct (String.eqb_spec k0 k') as [->|Hk0']; [|done].
      by destruct (String.eqb_spec k k') as [->|].
Qed.

Lemma dict_set_keys {V : Type} (k : string) (v : V) (d : list (string * V)) :
  forall k', k' ∈ (dict_set k v d).*1 <-> k' = k \/ k' ∈ d.*1.
Proof.
  induction d as [|[k0 v0] d IH]; intros k'; simpl.
  - rewrite list_elem_of_singleton. split; [by left | intros [H|H]; [done|]].
    by apply not_elem_of_nil in H.
  - destruct (String.eqb_spec k0 k) as [->|Hk0]; simpl.
    + rewrite !elem_of_cons. tauto.
    + rewrite !elem_of_cons, IH. tauto.
Qed.

Lemma dict_set_NoDup {V : Type} (k : string) (v : V) (d : list (string * V)) :
  NoDup d.*1 -> NoDup (dict_set k v d).*1.
Proof.
  induction d as [|[k0 v0] d IH]; simpl; intros Hnd.
  - apply NoDup_singleton.
  - destruct (String.eqb_spec k0 k) as [->|Hk0]; simpl; [done|].
    apply NoDup_cons in Hnd as [Hk Hnd]. apply NoDup_cons. split; [|by apply IH].
    rewrite dict_set_keys. intros [->|H]; [done | by apply Hk].
Qed.

Lemma dict_get_None {V : Type} (k : string) (d : list (string * V)) :
  dict_get k d = None <-> k ∉ d.*1.
Proof.
  induction d as [|[k0 v0] d IH]; simpl.
  - split; [intros _; apply not_elem_of_nil | done].
  - rewrite not_elem_of_cons. destruct (String.eqb_spec k0 k) as [->|Hk0].
    + split; [done | intros [H _]; done].
    + rewrite IH. split; [by intros H; split | by intros [_ H]].
Qed.

Lemma dict_get_elem {V : Type} (k : string) (v : V) (d : list (string * V)) :
  NoDup d.*1 -> (k, v) ∈ d <-> dict_get k d = Some v.
Proof.
  induction d as [|[k0 v0] d IH]; simpl; intros Hnd.
  - split; [intros H; by apply not_elem_of_nil in H | done].
  - apply NoDup_cons in Hnd as [Hk Hnd]. rewrite elem_of_cons.
    destruct (String.eqb_spec k0 k) as [->|Hk0].
    + split.
      * intros [H|H]; [by inversion H|]. exfalso. apply Hk.
        apply list_elem_of_fmap. by exists (k, v).
      * intros H; inversion H; by left.
    + rewrite <- (IH Hnd). split; [intros [H|H]; [by inversion H | done] | by right].
Qed.

(** ** Row preparation *)

Lemma select_rows_filter {A : Type} (g : A -> bool) (l : list A) :
  map fst (List.filter snd (zip l (map g l))) = List.filter g l.
Proof.
  induction l as [|r l IH]; simpl; [done|].
  destruct (g r); simpl; by rewrite IH.
Qed.

Lemma filter_map_comm {A B : Type} (g : B -> bool) (h : A -> B) (l : list A) :
  List.filter g (map h l) = map h (List.filter (fun x => g (h x)) l).
Proof.
  induction l as [|r l IH]; simpl; [done|].
  destruct (g (h r)); simpl; by rewrite IH.
Qed.

Lemma filter_ext_bool {A : Type} (f g : A -> bool) (l : list A) :
  (forall x, f x = g x) -> List.filter f l = List.filter g l.
Proof. intros H. induction l as [|x l IH]; simpl; [done|]. by rewrite H, IH. Qed.

Lemma filter_filter_bool {A : Type} (f g : A -> bool) (l : list A) :
  List.filter f (List.filter g l) = List.filter (fun x => g x && f x) l.
Proof.
  induction l as [|x l IH]; simpl; [done|].
  destruct (g x); simpl; [destruct (f x)|]; by rewrite IH.
Qed.

Lemma filter_idem {A : Type} (f : A -> bool) (l : list A) :
  List.filter f (List.filter f l) = List.filter f l.
Proof.
  rewrite filter_filter_bool. apply filter_ext_bool. intros x. by destruct (f x).
Qed.

Lemma zip_with_map_l {A B : Type} (c : string) (f : A -> gmap string B) (g : A -> B)
    (l : list A) :
  zip_with (fun r v => <[c := v]> r) (map f l) (map g l)
  = map (fun x => <[c := g x]> (f x)) l.
Proof. induction l as [|x l IH]; simpl; [done | by rewrite IH]. Qed.

Lemma zip_with_zip_insert {A V : Type} (c1 c2 : string) (f : A -> gmap string V)
    (l : list A) (qs vs : list V) :
  zip_with (fun r v => <[c2 := v]> r)
    (zip_with (fun r q => <[c1 := q]> r) (map f l) qs) vs
  = map (fun x => <[c2 := x.2.2]> (<[c1 := x.2.1]> (f x.1))) (zip l (zip qs vs)).
Proof.
  revert qs vs; induction l as [|x l IH]; intros [|q qs] [|v vs]; simpl; try done.
  by rewrite IH.
Qed.

Lemma map_zip_with_other {V : Type} (g : gmap string V -> V) (c : string)
    (l : list (gmap string V)) (vs : list V) :
  (forall r v, g (<[c := v]> r) = g r) -> length vs = length l ->
  map g (zip_with (fun r v => <[c := v]> r) l vs) = map g l.
Proof.
  intros Hg. revert vs; induction l as [|r l IH]; intros [|v vs] Hlen; simpl in *;
    try done.
  rewrite Hg, IH; [done | lia].
Qed.

Lemma zip_fst_length {A B : Type} (l : list A) (k : list B) :
  length k = length l -> map fst (zip l k) = l.
Proof.
  revert k; induction l as [|x l IH]; intros [|y k] Hlen; simpl in *; try done.
  rewrite IH; [done | lia].
Qed.

Lemma zip_snd_length {A B : Type} (l : list A) (k : list B) :
  length k = length l -> map snd (zip l k) = k.
Proof.
  revert k; induction l as [|x l IH]; intros [|y k] Hlen; simpl in *; try done.
  rewrite IH; [done | lia].
Qed.

Section PandasFacts.

Context `{C : Conversions}.

Lemma to_numeric_length (s : list cell) : length (to_numeric s) = length s.
Proof.
  unfold to_numeric. destruct (forallb _ _); [destruct (existsb _ _)|];
    by rewrite !length_map.
Qed.

Lemma fillna_length (s : list cell) : length (fillna s) = length s.
Proof. unfold fillna. by rewrite length_map. Qed.

Lemma prepared_column_length (c : string) (df : DataFrame) :
  length (prepared_column c df) = length (kg_rows df).
Proof.
  unfold prepared_column. by rewrite fillna_length, to_numeric_length, length_map.
Qed.

Lemma strip_astype (c : cell) : cell_strip (astype_str c) = label_cell (cell_label c).
Proof. unfold cell_label. by destruct (astype_str c). Qed.

Lemma label_cell_kg (o : option string) :
  cell_eq_str "kg" (cell_lower (label_cell o))
  = match o with Some u => String.eqb (str_lower u) "kg" | None => false end.
Proof. by destruct o. Qed.

Lemma label_cell_isin (labels : list string) (r : gmap string cell) :
  cell_isin labels (label_cell (partner_label r)) = labelled labels r.
Proof. unfold labelled. by destruct (partner_label r). Qed.

Lemma labelled_singleton (p : string) (r : gmap string cell) :
  labelled [p] r = cell_eq_str p (label_cell (partner_label r)).
Proof.
  unfold labelled. destruct (partner_label r) as [q|]; simpl; [|done].
  destruct (String.eqb_spec q p) as [->|Hne].
  - apply bool_decide_eq_true_2. by left.
  - apply bool_decide_eq_false_2. by intros ->%list_elem_of_singleton.
Qed.

Lemma prepared_row_partner x :
  row_get "Partner" (prepared_row x) = label_cell (partner_label x.1).
Proof. unfold row_get, prepared_row. by simplify_map_eq. Qed.

Lemma prepared_row_unit x :
  row_get "Quantity Unit" (prepared_row x) = label_cell (unit_label x.1).
Proof. unfold row_get, prepared_row. by simplify_map_eq. Qed.

Lemma prepared_row_quantity x : row_get "Quantity" (prepared_row x) = x.2.1.
Proof. unfold row_get, prepared_row. by simplify_map_eq. Qed.

Lemma prepared_row_value x : row_get "Trade Value 1000USD" (prepared_row x) = x.2.2.
Proof. unfold row_get, prepared_row. by simplify_map_eq. Qed.

Lemma prepared_row_other x (c : string) :
  c ∉ required -> prepared_row x !! c = x.1 !! c.
Proof.
  intros Hc. unfold prepared_row.
  rewrite !lookup_insert_ne; [done|..]; intros <-; apply Hc; unfold required;
    set_solver.
Qed.

Lemma missing_columns_nil (df : DataFrame) :
  missing_columns df = [] <-> Forall (fun c => c ∈ columns df) required.
Proof.
  unfold missing_columns. generalize required as l.
  induction l as [|c l IH].
  - split; [constructor | done].
  - rewrite filter_cons, Forall_cons. destruct (decide (c ∉ columns df)) as [Hn|Hn].
    + split; [done | intros [H _]; done].
    + rewrite IH. apply dec_stable in Hn. tauto.
Qed.

Lemma set_col_get (c c' : string) (f : cell -> cell) (df : DataFrame) :
  c ∈ columns df ->
  set_col c (map f (get_col c' df)) df
  = {| columns := columns df;
       rows := map (fun r => <[c := f (row_get c' r)]> r) (rows df) |}.
Proof.
  intros H. unfold set_col, get_col.
  rewrite bool_decide_eq_true_2, map_map by done. f_equal.
  rewrite <- (map_id (rows df)) at 1. by rewrite (zip_with_map_l c id).
Qed.

Lemma select_rows_get (c' : string) (g : cell -> bool) (df : DataFrame) :
  select_rows (map g (get_col c' df)) df
  = {| columns := columns df;
       rows := List.filter (fun r => g (row_get c' r)) (rows df) |}.
Proof. unfold select_rows, get_col. by rewrite map_map, select_rows_filter. Qed.

(** The rows after the two label columns are rewritten and the kilogram
    rows kept. *)
Lemma labelled_kg_rows (l : list (gmap string cell)) :
  List.filter
    (fun r => cell_eq_str "kg" (cell_lower (row_get "Quantity Unit" r)))
    (map (fun r => <["Quantity Unit" :=
                       cell_strip (astype_str
                         (row_get "Quantity Unit"
                            (<["Partner" := cell_strip (astype_str (row_get "Partner" r))]> r)))]>
                     (<["Partner" := cell_strip (astype_str (row_get "Partner" r))]> r)) l)
  = map (fun r => <["Quantity Unit" := label_cell (unit_label r)]>
                    (<["Partner" := label_cell (partner_label r)]> r))
        (List.filter is_kg_row l).
Proof.
  rewrite filter_map_comm.
  rewrite (filter_ext_bool _ is_kg_row).
  - apply map_ext. intros r. unfold unit_label, partner_label, row_get.
    simplify_map_eq. by rewrite !strip_astype.
  - intros r. unfold is_kg_row, unit_label, row_get. simplify_map_eq.
    by rewrite strip_astype, label_cell_kg.
Qed.

(** With the four columns, the prepared frame holds the prepared rows;
    without, the error names the missing columns and the columns found. *)
Lemma prep_kg_rows_eq (df : DataFrame) :
  _prep_kg_rows df =
    if bool_decide (missing_columns df = []) then
      Ok {| columns := columns df; rows := map prepared_row (prepared df) |}
    else Raise (ValueError (missing_columns df) (columns df)).
Proof.
  unfold _prep_kg_rows. fold (missing_columns df).
  case_bool_decide as Hm; simpl negb; cbv iota; [|done].
  apply missing_columns_nil in Hm.
  assert (forall c, c ∈ required -> c ∈ columns df) as Hc
    by (by apply Forall_forall).
  cbv zeta. f_equal. rewrite !map_map.
  rewrite (set_col_get "Partner" "Partner" _ df) by (apply Hc; set_solver).
  rewrite (set_col_get "Quantity Unit" "Quantity Unit") by (apply Hc; set_solver).
  cbn [columns rows]. rewrite select_rows_get. cbn [columns rows].
  rewrite map_map, labelled_kg_rows. fold (kg_rows df).
  set (lab := fun r : gmap string cell =>
                <["Quantity Unit" := label_cell (unit_label r)]>
                  (<["Partner" := label_cell (partner_label r)]> r)).
  assert (forall c, c <> "Partner" -> c <> "Quantity Unit" ->
            map (row_get c) (map lab (kg_rows df)) = map (row_get c) (kg_rows df))
    as Hcol.
  { intros c H1 H2. rewrite map_map. apply map_ext. intros r.
    unfold lab, row_get. by rewrite !lookup_insert_ne. }
  set (d1 := {| columns := columns df; rows := map lab (kg_rows df) |}).
  assert (set_col "Quantity" (fillna (to_numeric (get_col "Quantity" d1))) d1
          = {| columns := columns df;
               rows := zip_with (fun r v => <["Quantity" := v]> r)
                         (map lab (kg_rows df)) (prepared_column "Quantity" df) |})
    as ->.
  { unfold set_col, get_col, d1. cbn [columns rows].
    rewrite bool_decide_eq_true_2 by (apply Hc; set_solver).
    by rewrite (Hcol "Quantity"). }
  unfold set_col, get_col. cbn [columns rows].
  rewrite bool_decide_eq_true_2 by (apply Hc; set_solver). f_equal.
  rewrite (map_zip_with_other (row_get "Trade Value 1000USD") "Quantity").
  - rewrite (Hcol "Trade Value 1000USD") by done.
    fold (prepared_column "Trade Value 1000USD" df).
    by rewrite zip_with_zip_insert.
  - intros r v. unfold row_get. by rewrite lookup_insert_ne.
  - by rewrite prepared_column_length, length_map.
Qed.

Lemma prep_kg_rows_Ok (df d : DataFrame) :
  _prep_kg_rows df = Ok d ->
  missing_columns df = [] /\
  d = {| columns := columns df; rows := map prepared_row (prepared df) |}.
Proof.
  rewrite prep_kg_rows_eq. case_bool_decide; [|done]. by inversion 1.
Qed.

Lemma prepared_fst (df : DataFrame) : map fst (prepared df) = kg_rows df.
Proof.
  unfold prepared. apply zip_fst_length.
  rewrite length_zip, !prepared_column_length. lia.
Qed.

Lemma prepared_quantity (df : DataFrame) :
  map (fun x => x.2.1) (prepared df) = prepared_column "Quantity" df.
Proof.
  unfold prepared.
  rewrite <- (map_map snd fst), zip_snd_length
    by (rewrite length_zip, !prepared_column_length; lia).
  apply zip_fst_length. by rewrite !prepared_column_length.
Qed.

Lemma prepared_value (df : DataFrame) :
  map (fun x => x.2.2) (prepared df) = prepared_column "Trade Value 1000USD" df.
Proof.
  unfold prepared.
  rewrite <- (map_map snd snd), zip_snd_length
    by (rewrite length_zip, !prepared_column_length; lia).
  apply zip_snd_length. by rewrite !prepared_column_length.
Qed.

(** *** The two aggregations, row by row *)

Lemma rest_of_world_sum_eq (df : DataFrame) (exclude_partners : list string) :
  get_rest_of_world_sum df exclude_partners =
    if bool_decide (missing_columns df = []) then
      Ok (rest_of_world_spec df exclude_partners)
    else Raise (ValueError (missing_columns df) (columns df)).
Proof.
  unfold get_rest_of_world_sum. rewrite prep_kg_rows_eq.
  case_bool_decide; simpl; [|done]. f_equal.
  rewrite select_rows_get. unfold get_col; cbn [rows].
  rewrite filter_map_comm, !map_map.
  unfold rest_of_world_spec, rest_of_world_rows.
  rewrite (filter_ext_bool _ (fun x => negb (labelled exclude_partners x.1))).
  - f_equal; f_equal; apply map_ext; intros x;
      [apply prepared_row_quantity | apply prepared_row_value].
  - intros x. by rewrite prepared_row_partner, label_cell_isin.
Qed.

Lemma group_add_lookup (g : gmap string (list cell * list cell)) (r : gmap string cell)
    (p : string) :
  group_add g r !! p =
    if cell_eq_str p (row_get "Partner" r)
    then Some ((default ([], []) (g !! p)).1 ++ [row_get "Quantity" r],
               (default ([], []) (g !! p)).2 ++ [row_get "Trade Value 1000USD" r])
    else g !! p.
Proof.
  unfold group_add. destruct (row_get "Partner" r) as [p'|z|x|z]; simpl; try done.
  destruct (String.eqb_spec p' p) as [->|Hne].
  - destruct (default _ (g !! p)) as [q v]. by rewrite lookup_insert_eq.
  - destruct (default _ (g !! p')) as [q v]. by rewrite lookup_insert_ne.
Qed.

Lemma groupby_fold_lookup (l : list (gmap string cell))
    (g : gmap string (list cell * list cell)) (p : string) :
  fold_left group_add l g !! p =
    match List.filter (fun r => cell_eq_str p (row_get "Partner" r)) l with
    | [] => g !! p
    | m => Some ((default ([], []) (g !! p)).1 ++ map (row_get "Quantity") m,
                 (default ([], []) (g !! p)).2
                   ++ map (row_get "Trade Value 1000USD") m)
    end.
Proof.
  revert g; induction l as [|r l IH]; intros g; simpl; [done|].
  rewrite IH, group_add_lookup.
  destruct (cell_eq_str p (row_get "Partner" r)); simpl; [|done].
  destruct (List.filter _ l) as [|r' m]; simpl; [done|].
  by rewrite <- !(assoc_L (++)).
Qed.

(** The per-partner entry the code computes from the groups. *)
Lemma grouped_entry (df : DataFrame) (partners : list string) (p : string) :
  p ∈ partners ->
  let d := {| columns := columns df; rows := map prepared_row (prepared df) |} in
  let g := groupby_partner
             (select_rows (map (cell_isin partners) (get_col "Partner" d)) d) in
  match g !! p with
  | Some (q, v) => (group_sum q, group_sum v)
  | None => (float_of_Z 0, float_of_Z 0)
  end = partner_sum_spec df p.
Proof.
  intros Hp d g. subst g d. rewrite select_rows_get. unfold groupby_partner.
  cbn [rows]. rewrite groupby_fold_lookup, lookup_empty.
  rewrite filter_filter_bool, filter_map_comm.
  rewrite (filter_ext_bool _ (fun x => labelled [p] x.1)).
  - unfold partner_sum_spec. fold (partner_rows df p).
    destruct (partner_rows df p) as [|x m] eqn:E; [done|].
    cbn [map default fst snd app]. rewrite !map_map.
    f_equal; f_equal; f_equal;
      [apply prepared_row_quantity | apply map_ext; intros y; apply prepared_row_quantity
      | apply prepared_row_value | apply map_ext; intros y; apply prepared_row_value].
  - intros x. rewrite prepared_row_partner, label_cell_isin, labelled_singleton.
    destruct (cell_eq_str p (label_cell (partner_label x.1))) eqn:E;
      [|by rewrite andb_false_r].
    rewrite andb_true_r. unfold labelled.
    destruct (partner_label x.1) as [q|]; simpl in E; [|done].
    apply String.eqb_eq in E. subst q. by apply bool_decide_eq_true_2.
Qed.

Lemma sums_dict_fold (h : string -> float * float) (partners : list string)
    (out0 : list (string * (float * float))) :
  NoDup out0.*1 ->
  let out := fold_left (fun out p => dict_set p (h p) out) partners out0 in
  NoDup out.*1 /\
  forall p, dict_get p out
            = if bool_decide (p ∈ partners) then Some (h p) else dict_get p out0.
Proof.
  revert out0; induction partners as [|p0 partners IH]; intros out0 Hnd;
    cbn [fold_left].
  - split; [done|]. intros p. case_bool_decide as Hp; [|done].
    by apply not_elem_of_nil in Hp.
  - destruct (IH (dict_set p0 (h p0) out0)) as [Hnd' Hget]; [by apply dict_set_NoDup|].
    split; [done|]. intros p. rewrite Hget, dict_get_set.
    destruct (decide (p ∈ partners)) as [Hin|Hin].
    + by rewrite !bool_decide_eq_true_2 by (done || by right).
    + rewrite (bool_decide_eq_false_2 _ Hin).
      destruct (String.eqb_spec p0 p) as [->|Hne].
      * by rewrite bool_decide_eq_true_2 by left.
      * rewrite bool_decide_eq_false_2; [done|]. rewrite elem_of_cons.
        intros [Heq|Hp]; [by apply Hne | by apply Hin].
Qed.

Lemma fold_left_ext_in {A B : Type} (f g : A -> B -> A) (l : list B) (a : A) :
  (forall x, x ∈ l -> forall b, f b x = g b x) -> fold_left f l a = fold_left g l a.
Proof.
  revert a; induction l as [|x l IH]; intros a H; simpl; [done|].
  rewrite (H x) by (by left). apply IH. intros y Hy. apply H. by right.
Qed.

(** The dictionary the per-partner sums return, in closed form: the
    listed partners in their order of first occurrence, each with the sums
    over its rows. *)
Lemma sums_for_partners_fold (df : DataFrame) (partners : list string) :
  get_qty_and_value_sums_for_partners df partners =
    if bool_decide (missing_columns df = []) then
      Ok (fold_left (fun out p => dict_set p (partner_sum_spec df p) out) partners [])
    else Raise (ValueError (missing_columns df) (columns df)).
Proof.
  unfold get_qty_and_value_sums_for_partners. rewrite prep_kg_rows_eq.
  case_bool_decide; simpl; [|done]. f_equal.
  apply fold_left_ext_in. intros p Hp out.
  rewrite <- (grouped_entry df partners p Hp). cbv zeta.
  by destruct (_ !! p) as [[q v]|].
Qed.

Lemma sums_for_partners_eq (df : DataFrame) (partners : list string) :
  exists out,
    NoDup out.*1 /\
    (forall p, dict_get p out = sums_for_partners_spec df partners p) /\
    get_qty_and_value_sums_for_partners df partners =
      if bool_decide (missing_columns df = []) then Ok out
      else Raise (ValueError (missing_columns df) (columns df)).
Proof.
  destruct (sums_dict_fold (partner_sum_spec df) partners []) as [Hnd Hget];
    [constructor|].
  exists (fold_left (fun out p => dict_set p (partner_sum_spec df p) out) partners []).
  split; [done|]. split; [|apply sums_for_partners_fold].
  intros p. rewrite Hget. unfold sums_for_partners_spec. by case_bool_decide.
Qed.


Lemma elem_of_List_filter {A : Type} (f : A -> bool) (l : list A) (x : A) :
  x ∈ List.filter f l <-> x ∈ l /\ f x = true.
Proof. by rewrite list_elem_of_In, filter_In, <- list_elem_of_In. Qed.

Lemma kg_rows_elem (df : DataFrame) (r : gmap string cell) :
  r ∈ kg_rows df <->
  r ∈ rows df /\ exists u, unit_label r = Some u /\ str_lower u = "kg".
Proof.
  unfold kg_rows. rewrite elem_of_List_filter. unfold is_kg_row.
  destruct (unit_label r) as [u|].
  - rewrite String.eqb_eq. split.
    + intros [Hr Hu]. split; [done|]. by exists u.
    + intros [Hr (u' & Hu' & Hkg)]. by inversion Hu'; subst.
  - split; [by intros [_ ?] | by intros [_ (u & ? & _)]].
Qed.



(** *** Rows that are not kilogram rows *)

Lemma prepared_kg_rows (df df' : DataFrame) :
  kg_rows df = kg_rows df' -> prepared df = prepared df'.
Proof. intros H. unfold prepared, prepared_column. by rewrite H. Qed.

Lemma prep_kg_rows_same (df df' : DataFrame) :
  columns df = columns df' -> kg_rows df = kg_rows df' ->
  _prep_kg_rows df = _prep_kg_rows df'.
Proof.
  intros Hc Hk. rewrite !prep_kg_rows_eq. unfold missing_columns.
  by rewrite Hc, (prepared_kg_rows df df' Hk).
Qed.

Lemma prep_kg_rows_insert (cs : list string) (l1 l2 : list (gmap string cell))
    (r : gmap string cell) :
  is_kg_row r = false ->
  _prep_kg_rows {| columns := cs; rows := l1 ++ r :: l2 |}
  = _prep_kg_rows {| columns := cs; rows := l1 ++ l2 |}.
Proof.
  intros Hr. apply prep_kg_rows_same; [done|]. unfold kg_rows; cbn [rows].
  rewrite !List.filter_app. simpl. by rewrite Hr.
Qed.

Lemma prep_kg_rows_only (df : DataFrame) :
  _prep_kg_rows (kg_rows_only df) = _prep_kg_rows df.
Proof.
  apply prep_kg_rows_same; [done|]. unfold kg_rows_only, kg_rows; cbn [rows].
  apply filter_idem.
Qed.

End PandasFacts.
(** ** The accumulators *)

Lemma foldl_insert_lookup (v : float) (l : list key) (m : gmap key float) (k : key) :
  foldl (fun acc k => <[k := v]> acc) m l !! k
  = if bool_decide (k ∈ l) then Some v else m !! k.
Proof.
  revert m; induction l as [|k0 l IH]; intros m; cbn [foldl].
  - case_bool_decide as H; [by apply not_elem_of_nil in H | done].
  - rewrite IH. destruct (decide (k ∈ l)) as [Hin|Hin].
    + by rewrite !bool_decide_eq_true_2 by (done || by right).
    + rewrite (bool_decide_eq_false_2 _ Hin). destruct (decide (k0 = k)) as [->|Hne].
      * by rewrite lookup_insert_eq, bool_decide_eq_true_2 by left.
      * rewrite lookup_insert_ne by done. rewrite bool_decide_eq_false_2; [done|].
        rewrite elem_of_cons. intros [Heq|Hk]; [by apply Hne | by apply Hin].
Qed.

Lemma acc_keys_elem (cfg : Config) (R P : string) (Y : Z) (F : string) :
  (R, P, Y, F) ∈ acc_keys cfg <->
  R ∈ (REPORTERS cfg).*1 /\ P ∈ PARTNERS cfg /\ Y ∈ YEARS cfg /\ F ∈ FLOWS cfg.
Proof.
  unfold acc_keys. rewrite list_elem_of_bind. split.
  - intros (R' & H & HR). apply list_elem_of_bind in H as (P' & H & HP).
    apply list_elem_of_bind in H as (Y' & H & HY).
    apply list_elem_of_bind in H as (F' & H & HF).
    apply list_elem_of_singleton in H. by inversion H; subst.
  - intros (HR & HP & HY & HF). exists R. split; [|done].
    apply list_elem_of_bind. exists P. split; [|done].
    apply list_elem_of_bind. exists Y. split; [|done].
    apply list_elem_of_bind. exists F. split; [|done].
    by apply list_elem_of_singleton.
Qed.

Lemma acc_init_lookup (cfg : Config) (k : key) :
  acc_init cfg !! k = if bool_decide (k ∈ acc_keys cfg) then Some (float_of_Z 0) else None.
Proof. unfold acc_init. by rewrite foldl_insert_lookup, lookup_empty. Qed.

Lemma acc_add_Ok (acc acc' : gmap key float) (k : key) (v : float) :
  acc_add acc k v = Ok acc' ->
  exists a, acc !! k = Some a /\ acc' = <[k := fadd a v]> acc.
Proof.
  unfold acc_add, acc_get. destruct (acc !! k) as [a|]; simpl; [|done].
  intros H; inversion H. by exists a.
Qed.

Lemma add_sums_Ok (R : string) (Y : Z) (F : string)
    (st st' : gmap key float * gmap key float)
    (p : string) (q v : float) :
  add_sums R Y F st (p, (q, v)) = Ok st' ->
  exists a b,
    entry (R, p, Y, F) st = (Some a, Some b) /\
    entry (R, p, Y, F) st' = (Some (fadd a q), Some (fadd b v)) /\
    forall k, k <> (R, p, Y, F) -> entry k st' = entry k st.
Proof.
  destruct st as [qa va]. unfold add_sums. intros H.
  inv_bind H. inv_bind H. inversion H; subst; clear H.
  apply acc_add_Ok in Ha as (a1 & Hq & ->). apply acc_add_Ok in Ha0 as (b1 & Hv & ->).
  exists a1, b1. unfold entry; simpl. split; [by rewrite Hq, Hv|]. split.
  - by rewrite !lookup_insert_eq.
  - intros k Hk. by rewrite !lookup_insert_ne.
Qed.

(** Adding a dictionary of sums: each of its partners is added once. *)
Lemma add_sums_fold (R : string) (Y : Z) (F : string)
    (sums : list (string * (float * float)))
    (st st' : gmap key float * gmap key float) :
  NoDup sums.*1 ->
  foldM (add_sums R Y F) sums st = Ok st' ->
  (forall p q v, dict_get p sums = Some (q, v) ->
     exists a b,
       entry (R, p, Y, F) st = (Some a, Some b) /\
       entry (R, p, Y, F) st' = (Some (fadd a q), Some (fadd b v))) /\
  (forall k, (forall p, p ∈ sums.*1 -> k <> (R, p, Y, F)) -> entry k st' = entry k st).
Proof.
  revert st; induction sums as [|[p0 [q0 v0]] sums IH]; intros st Hnd H.
  - simpl in H. inversion H; subst. split; [done|done].
  - cbn [foldM] in H. inv_bind H. apply NoDup_cons in Hnd as [Hp0 Hnd].
    apply add_sums_Ok in Ha as (a1 & b1 & Hst & Ha & Hother).
    destruct (IH a Hnd H) as [IH1 IH2]. split.
    + intros p q v Hget. simpl in Hget.
      destruct (String.eqb_spec p0 p) as [<-|Hne].
      * inversion Hget; subst. exists a1, b1. split; [done|].
        rewrite IH2; [done|]. intros p Hp Heq. inversion Heq; subst. by apply Hp0.
      * destruct (IH1 p q v Hget) as (a2 & b2 & H1 & H2). exists a2, b2.
        split; [|done]. rewrite <- Hother; [done|]. congruence.
    + intros k Hk. rewrite IH2.
      * apply Hother. apply Hk. by left.
      * intros p Hp. apply Hk. by right.
Qed.

Section MainFacts.

Context `{C : Conversions}.
Variable fetch : string -> Z -> string -> string -> result DataFrame.
Variable cfg : Config.

(** A contribution, row by row: the rest-of-world sum of the sheet for
    the "World" key, the sum of the partner's rows otherwise. *)
Lemma contribution_eq (c : string) (Y : Z) (F P prod : string) (df : DataFrame) :
  P ∈ PARTNERS cfg -> fetch c Y F prod = Ok df ->
  contribution fetch cfg c Y F P prod =
    if bool_decide (missing_columns df = []) then
      Ok (if String.eqb P "World"
          then rest_of_world_spec df (EXCLUDE_FOR_ROW cfg)
          else partner_sum_spec df P)
    else Raise (ValueError (missing_columns df) (columns df)).
Proof.
  intros HP Hfetch. unfold contribution. rewrite Hfetch. cbn [mbind result_bind].
  destruct (String.eqb P "World").
  - rewrite rest_of_world_sum_eq. by case_bool_decide.
  - destruct (sums_for_partners_eq df (PARTNERS cfg)) as (out & _ & Hget & ->).
    case_bool_decide; [|done]. cbn [mbind result_bind]. rewrite Hget.
    unfold sums_for_partners_spec. by rewrite bool_decide_eq_true_2.
Qed.

Lemma product_step_Ok (R c : string) (Y : Z) (F prod : string)
    (st st' : gmap key float * gmap key float) :
  product_step fetch cfg R c Y F st prod = Ok st' ->
  exists sums,
    NoDup sums.*1 /\
    (forall p, p ∈ sums.*1 <-> p ∈ PARTNERS cfg) /\
    (forall p, p ∈ PARTNERS cfg ->
       exists x, dict_get p sums = Some x /\ contribution fetch cfg c Y F p prod = Ok x) /\
    foldM (add_sums R Y F) sums st = Ok st'.
Proof.
  unfold product_step, contribution. intros H.
  inv_bind H. rewrite Ha. inv_bind H. inv_bind H. cbn [mbind result_bind].
  destruct (sums_for_partners_eq a (PARTNERS cfg))
    as (out & Hnd & Hget & Hout).
  rewrite Ha0 in Hout. case_bool_decide; [|done]. inversion Hout; subst a0.
  exists (dict_set "World" a1 out). split; [by apply dict_set_NoDup|]. split; [|split].
  - intros p. rewrite dict_set_keys. unfold PARTNERS. rewrite elem_of_app.
    rewrite list_elem_of_singleton. split.
    + intros [->|Hp]; [by right|]. apply dec_stable. intros Hn.
      assert (dict_get p out = None) as Hnone.
      { rewrite Hget. unfold sums_for_partners_spec.
        rewrite bool_decide_eq_false_2; [done|]. unfold PARTNERS.
        by rewrite elem_of_app, list_elem_of_singleton. }
      by apply dict_get_None in Hnone.
    + intros [Hp| ->]; [|by left]. right. apply dec_stable. intros Hn.
      apply dict_get_None in Hn. rewrite Hget in Hn.
      unfold sums_for_partners_spec in Hn. rewrite bool_decide_eq_true_2 in Hn; [done|].
      unfold PARTNERS. rewrite elem_of_app. by left.
  - intros p Hp. rewrite dict_get_set. rewrite (String.eqb_sym p "World").
    destruct (String.eqb_spec "World" p) as [<-|Hne].
    + by exists a1.
    + rewrite Ha0. cbn [mbind result_bind]. rewrite Hget. unfold sums_for_partners_spec.
      rewrite bool_decide_eq_true_2 by done. eexists. split; done.
  - done.
Qed.

(** One product's sheet adds its contribution fetch cfg to the entries of its own
    reporter, year and flow, and leaves every other entry as it is. *)
Lemma product_step_entry (R c : string) (Y : Z) (F prod : string)
    (st st' : gmap key float * gmap key float) :
  product_step fetch cfg R c Y F st prod = Ok st' ->
  (forall p, p ∈ PARTNERS cfg ->
     exists a b q v,
       contribution fetch cfg c Y F p prod = Ok (q, v) /\
       entry (R, p, Y, F) st = (Some a, Some b) /\
       entry (R, p, Y, F) st' = (Some (fadd a q), Some (fadd b v))) /\
  (forall k, (forall p, p ∈ PARTNERS cfg -> k <> (R, p, Y, F)) ->
     entry k st' = entry k st).
Proof.
  intros H. apply product_step_Ok in H as (sums & Hnd & Hkeys & Hget & H).
  apply add_sums_fold in H as [H1 H2]; [|done]. split.
  - intros p Hp. destruct (Hget p Hp) as ([q v] & Hq & Hc).
    destruct (H1 p q v Hq) as (a & b & Ha & Hb). by exists a, b, q, v.
  - intros k Hne. apply H2. intros p' Hp'. apply Hne. by apply Hkeys.
Qed.

Lemma main_aggregation_loops :
  main_aggregation fetch cfg
  = foldM (fun st rc => years_loop fetch cfg rc.1 rc.2 st) (REPORTERS cfg)
      (acc_init cfg, acc_init cfg).
Proof.
  unfold main_aggregation. apply foldM_ext. by intros st [R c].
Qed.

Lemma products_loop_other (R c : string) (Y : Z) (F : string) (st st' : accs)
    (R' p : string) (Y' : Z) (F' : string) :
  products_loop fetch cfg R c Y F st = Ok st' -> (R', Y', F') <> (R, Y, F) ->
  entry (R', p, Y', F') st' = entry (R', p, Y', F') st.
Proof.
  intros H Hne. unfold products_loop in H.
  apply (foldM_invariant (fun t => entry (R', p, Y', F') t = entry (R', p, Y', F') st)
           _ _ _ _) in H; [done| |done].
  intros prod t t' _ Ht Hstep. rewrite <- Ht.
  apply product_step_entry in Hstep as [_ Hother]. apply Hother.
  intros p' _ Heq. apply Hne. by inversion Heq.
Qed.

Lemma products_loop_entry (R c : string) (Y : Z) (F p : string) (l : list string)
    (st st' : accs) (a b : float) :
  p ∈ PARTNERS cfg ->
  foldM (product_step fetch cfg R c Y F) l st = Ok st' ->
  entry (R, p, Y, F) st = (Some a, Some b) ->
  exists cs : list (float * float),
    Forall2 (fun prod x => contribution fetch cfg c Y F p prod = Ok x) l cs /\
    entry (R, p, Y, F) st'
    = (Some (foldl fadd a cs.*1), Some (foldl fadd b cs.*2)).
Proof.
  intros Hp. revert st a b; induction l as [|prod l IH]; intros st a b H Hst.
  - simpl in H. inversion H; subst. exists []. split; [constructor | done].
  - cbn [foldM] in H. inv_bind H.
    apply product_step_entry in Ha0 as [Hstep _].
    destruct (Hstep p Hp) as (a1 & b1 & q & v & Hc & H1 & H2).
    rewrite Hst in H1. inversion H1; subst a1 b1.
    destruct (IH a0 _ _ H H2) as (cs & Hcs & Hfin).
    exists ((q, v) :: cs). split; [by constructor | done].
Qed.

Lemma flows_loop_other (R c : string) (Y : Z) (st st' : accs)
    (R' p : string) (Y' : Z) (F' : string) :
  flows_loop fetch cfg R c Y st = Ok st' -> (R', Y') <> (R, Y) ->
  entry (R', p, Y', F') st' = entry (R', p, Y', F') st.
Proof.
  intros H Hne. unfold flows_loop in H.
  apply (foldM_invariant (fun t => entry (R', p, Y', F') t = entry (R', p, Y', F') st)
           _ _ _ _) in H; [done| |done].
  intros F t t' _ Ht Hstep. rewrite <- Ht.
  apply (products_loop_other _ _ _ _ _ _ R' p Y' F') in Hstep; [done|].
  intros Heq. apply Hne. by inversion Heq.
Qed.

Lemma years_loop_other (R c : string) (st st' : accs)
    (R' p : string) (Y' : Z) (F' : string) :
  years_loop fetch cfg R c st = Ok st' -> R' <> R ->
  entry (R', p, Y', F') st' = entry (R', p, Y', F') st.
Proof.
  intros H Hne. unfold years_loop in H.
  apply (foldM_invariant (fun t => entry (R', p, Y', F') t = entry (R', p, Y', F') st)
           _ _ _ _) in H; [done| |done].
  intros Y t t' _ Ht Hstep. rewrite <- Ht.
  apply (flows_loop_other _ _ _ _ _ R' p Y' F') in Hstep; [done|].
  intros Heq. apply Hne. by inversion Heq.
Qed.

(** The entry of a configured key after the run: the contributions of
    the products, added in the order of the product list to the initial
    zero. *)
Lemma main_aggregation_entry (st : accs) (R c p : string) (Y : Z) (F : string) :
  NoDup (REPORTERS cfg).*1 -> NoDup (YEARS cfg) -> NoDup (FLOWS cfg) ->
  main_aggregation fetch cfg = Ok st ->
  (R, c) ∈ REPORTERS cfg -> p ∈ PARTNERS cfg -> Y ∈ YEARS cfg -> F ∈ FLOWS cfg ->
  exists cs : list (float * float),
    Forall2 (fun prod x => contribution fetch cfg c Y F p prod = Ok x) (PRODUCTS cfg) cs /\
    entry (R, p, Y, F) st
    = (Some (foldl fadd (float_of_Z 0) cs.*1), Some (foldl fadd (float_of_Z 0) cs.*2)).
Proof.
  intros HndR HndY HndF H HR Hp HY HF. rewrite main_aggregation_loops in H.
  set (k := (R, p, Y, F)).
  apply (foldM_once (entry k) _ _ (R, c)) in H as (t1 & t1' & Hinit & H & ->);
    [|by apply NoDup_fmap_1 in HndR|done|].
  2:{ intros [R' c'] t t' Hin Hne Hstep. cbn [fst snd] in Hstep.
      apply (years_loop_other _ _ _ _ R p Y F) in Hstep; [done|].
      intros Heq. subst R'. apply Hne. f_equal.
      apply (proj1 (dict_get_elem R c' _ HndR)) in Hin.
      pose proof (proj1 (dict_get_elem R c _ HndR) HR) as HR'. congruence. }
  cbn [fst snd] in H. unfold years_loop in H.
  apply (foldM_once (entry k) _ _ Y) in H as (t2 & t2' & Hinit2 & H & ->);
    [|done|done|].
  2:{ intros Y' t t' _ Hne Hstep.
      apply (flows_loop_other _ _ _ _ _ R p Y F) in Hstep; [done|]. congruence. }
  unfold flows_loop in H.
  apply (foldM_once (entry k) _ _ F) in H as (t3 & t3' & Hinit3 & H & ->);
    [|done|done|].
  2:{ intros F' t t' _ Hne Hstep.
      apply (products_loop_other _ _ _ _ _ _ R p Y F) in Hstep; [done|]. congruence. }
  unfold products_loop in H.
  apply (products_loop_entry R c Y F p _ _ _ (float_of_Z 0) (float_of_Z 0) Hp) in H; [done|].
  fold k. rewrite Hinit3, Hinit2, Hinit. unfold entry; cbn [fst snd].
  rewrite acc_init_lookup, bool_decide_eq_true_2; [done|].
  apply acc_keys_elem. split; [|done]. apply list_elem_of_fmap. by exists (R, c).
Qed.

(** *** The accumulators keep their keys *)

Lemma acc_inv_init : acc_inv cfg (acc_init cfg, acc_init cfg).
Proof.
  intros k. unfold entry; cbn [fst snd]. rewrite acc_init_lookup.
  case_bool_decide; [by eexists _, _ | done].
Qed.

Lemma product_step_inv (R c : string) (Y : Z) (F prod : string) (st st' : accs) :
  acc_inv cfg st -> product_step fetch cfg R c Y F st prod = Ok st' -> acc_inv cfg st'.
Proof.
  intros Hinv H k. apply product_step_entry in H as [Hin Hout].
  destruct k as [[[R0 p] Y0] F0].
  destruct (decide (p ∈ PARTNERS cfg /\ (R0, Y0, F0) = (R, Y, F)))
    as [[Hp Heq]|Hne].
  - inversion Heq; subst R0 Y0 F0; clear Heq.
    destruct (Hin p Hp) as (a & b & q & v & Hc & Hst & Hst').
    specialize (Hinv (R, p, Y, F)). rewrite Hst', Hst in *.
    case_bool_decide; [|done]. by eexists _, _.
  - rewrite Hout; [apply Hinv|]. intros p' Hp Heq. apply Hne.
    by inversion Heq; subst.
Qed.

Lemma main_aggregation_inv (st : accs) : main_aggregation fetch cfg = Ok st -> acc_inv cfg st.
Proof.
  unfold main_aggregation. intros H.
  eapply (foldM_invariant (acc_inv cfg)); [|apply acc_inv_init|exact H].
  intros [R c] t t' _ Ht H1. eapply (foldM_invariant (acc_inv cfg)); [|exact Ht|exact H1].
  intros Y t1 t1' _ Ht1 H2. eapply (foldM_invariant (acc_inv cfg)); [|exact Ht1|exact H2].
  intros F t2 t2' _ Ht2 H3. eapply (foldM_invariant (acc_inv cfg)); [|exact Ht2|exact H3].
  intros prod t3 t3' _ Ht3 H4. by eapply product_step_inv.
Qed.

Lemma acc_inv_get (st : accs) (k : key) :
  acc_inv cfg st -> k ∈ acc_keys cfg ->
  exists a b, st.1 !! k = Some a /\ st.2 !! k = Some b.
Proof.
  intros Hinv Hk. specialize (Hinv k). rewrite bool_decide_eq_true_2 in Hinv by done.
  destruct Hinv as (a & b & Heq). inversion Heq. by exists a, b.
Qed.

End MainFacts.
(** *** When the run ends well *)

Lemma foldM_total {A S : Type} (P : S -> Prop) (f : S -> A -> result S)
    (l : list A) (s : S) :
  P s -> (forall x t, x ∈ l -> P t -> exists t', f t x = Ok t' /\ P t') ->
  exists s', foldM f l s = Ok s' /\ P s'.
Proof.
  revert s; induction l as [|x l IH]; intros s Hs Hf; simpl.
  - by exists s.
  - destruct (Hf x s) as (t & Ht & HP); [by left | done |]. rewrite Ht. simpl.
    apply IH; [done|]. intros y u Hy. apply Hf. by right.
Qed.

Lemma add_sums_total (cfg : Config) (R : string) (Y : Z) (F : string) (st : accs)
    (item : string * (float * float)) :
  (forall k, k ∈ acc_keys cfg -> is_Some (st.1 !! k) /\ is_Some (st.2 !! k)) ->
  (R, item.1, Y, F) ∈ acc_keys cfg ->
  exists st', add_sums R Y F st item = Ok st'
    /\ forall k, k ∈ acc_keys cfg -> is_Some (st'.1 !! k) /\ is_Some (st'.2 !! k).
Proof.
  intros Hkeys Hk. destruct st as [qa va], item as [p [q v]]. simpl in *.
  destruct (Hkeys _ Hk) as [[a Ha] [b Hb]]. simpl in Ha, Hb.
  unfold add_sums, acc_add, acc_get. rewrite Ha, Hb. simpl.
  eexists. split; [done|]. intros k Hk'. simpl.
  destruct (Hkeys k Hk') as [H1 H2]. simpl in H1, H2.
  split; (destruct (decide (k = (R, p, Y, F))) as [->|Hne];
          [by rewrite lookup_insert_eq | by rewrite lookup_insert_ne]).
Qed.

Section RunTotal.

Context `{C : Conversions}.

Variable fetch : string -> Z -> string -> string -> result DataFrame.
Variable cfg : Config.

Lemma product_step_total (R c : string) (Y : Z) (F p : string) (st : accs) (df : DataFrame) :
  acc_inv cfg st ->
  R ∈ (REPORTERS cfg).*1 -> Y ∈ YEARS cfg -> F ∈ FLOWS cfg ->
  fetch c Y F p = Ok df -> missing_columns df = [] ->
  exists st', product_step fetch cfg R c Y F st p = Ok st' /\ acc_inv cfg st'.
Proof.
  intros Hinv HR HY HF Hfetch Hm.
  assert (exists st', product_step fetch cfg R c Y F st p = Ok st') as [st' Hst'].
  { unfold product_step. rewrite Hfetch. cbn [mbind result_bind].
    rewrite sums_for_partners_fold, rest_of_world_sum_eq.
    rewrite (bool_decide_eq_true_2 _ Hm). cbn [mbind result_bind].
    set (sums := dict_set _ _ _).
    assert (forall q, q ∈ sums.*1 -> q ∈ PARTNERS cfg) as Hsums.
    { intros q Hq. subst sums. apply dict_set_keys in Hq as [->|Hq].
      - unfold PARTNERS. rewrite elem_of_app, list_elem_of_singleton. by right.
      - destruct (sums_dict_fold (partner_sum_spec df) (PARTNERS cfg) [])
          as [_ Hget]; [constructor|].
        specialize (Hget q). case_bool_decide as Hin; [done|].
        simpl in Hget. apply dict_get_None in Hget. done. }
    destruct (foldM_total
                (fun t : accs => forall k, k ∈ acc_keys cfg ->
                                   is_Some (t.1 !! k) /\ is_Some (t.2 !! k))
                (add_sums R Y F) sums st) as (st' & Hst' & _).
    - intros k Hk. destruct (acc_inv_get cfg st k Hinv Hk) as (a & b & Ha & Hb).
      by rewrite Ha, Hb.
    - intros item t Hitem Ht. apply add_sums_total; [done|].
      destruct item as [q x]. apply acc_keys_elem. split; [done|]. split; [|done].
      apply Hsums. apply list_elem_of_fmap. by exists (q, x).
    - by exists st'. }
  exists st'. split; [done|]. by apply (product_step_inv fetch cfg R c Y F p st st').
Qed.

Lemma main_aggregation_total :
  (forall R c Y F p,
     (R, c) ∈ REPORTERS cfg -> Y ∈ YEARS cfg -> F ∈ FLOWS cfg -> p ∈ PRODUCTS cfg ->
     exists df, fetch c Y F p = Ok df /\ missing_columns df = []) ->
  exists st, main_aggregation fetch cfg = Ok st.
Proof.
  intros Hsheets.
  destruct (foldM_total (acc_inv cfg)
    (fun st '(reporter_label, reporter_code) =>
       foldM (fun st year =>
         foldM (fun st flow =>
           foldM (product_step fetch cfg reporter_label reporter_code year flow)
                 (PRODUCTS cfg) st)
           (FLOWS cfg) st)
         (YEARS cfg) st)
    (REPORTERS cfg) (acc_init cfg, acc_init cfg)) as (st & Hst & _).
  - apply acc_inv_init.
  - intros [R c] st HR Hinv.
    assert (R ∈ (REPORTERS cfg).*1) as HR'
      by (apply list_elem_of_fmap; by exists (R, c)).
    apply foldM_total; [done|]. intros Y st1 HY Hinv1.
    apply foldM_total; [done|]. intros F st2 HF Hinv2.
    apply foldM_total; [done|]. intros p st3 Hp Hinv3.
    destruct (Hsheets R c Y F p HR HY HF Hp) as (df & Hdf & Hm).
    by apply (product_step_total R c Y F p st3 df).
  - by exists st.
Qed.

End RunTotal.

(** ** Building the table *)

Lemma concat_mapM_elem {A B : Type} (f : A -> result (list B)) (l : list A)
    (ys : list B) :
  concat_mapM f l = Ok ys ->
  forall y, y ∈ ys <-> exists x zs, x ∈ l /\ f x = Ok zs /\ y ∈ zs.
Proof.
  revert ys; induction l as [|x l IH]; intros ys H y; simpl in H.
  - inversion H; subst. split; [intros Hy; by apply not_elem_of_nil in Hy|].
    intros (x & zs & Hx & _). by apply not_elem_of_nil in Hx.
  - inv_bind H. inv_bind H. inversion H; subst; clear H.
    rewrite elem_of_app, (IH a0 Ha0 y). split.
    + intros [Hy|(x' & zs & Hx' & Hf & Hy)].
      * exists x, a. split; [by left | done].
      * exists x', zs. split; [by right | done].
    + intros (x' & zs & Hx' & Hf & Hy). apply elem_of_cons in Hx' as [->|Hx'].
      * left. rewrite Ha in Hf. by inversion Hf; subst.
      * right. by exists x', zs.
Qed.

Lemma concat_mapM_total {A B : Type} (f : A -> result (list B)) (l : list A) :
  (forall x, x ∈ l -> exists zs, f x = Ok zs) -> exists ys, concat_mapM f l = Ok ys.
Proof.
  induction l as [|x l IH]; intros H; simpl.
  - by exists [].
  - destruct (H x) as [zs Hzs]; [by left|]. rewrite Hzs.
    destruct IH as [ys Hys]; [intros x' Hx'; apply H; by right|].
    rewrite Hys. by eexists.
Qed.

Lemma concat_mapM_each {A B : Type} (f : A -> result (list B)) (l : list A)
    (ys : list B) :
  concat_mapM f l = Ok ys -> forall x, x ∈ l -> exists zs, f x = Ok zs.
Proof.
  revert ys; induction l as [|x l IH]; intros ys H x' Hx'; simpl in H.
  - by apply not_elem_of_nil in Hx'.
  - inv_bind H. inv_bind H. apply elem_of_cons in Hx' as [->|Hx'].
    + by exists a.
    + by apply (IH a0).
Qed.

Lemma concat_mapM_single {A B : Type} (f : A -> result B) (l : list A) (ys : list B) :
  concat_mapM (fun x => r ← f x; Ok [r]) l = Ok ys ->
  forall y, y ∈ ys <-> exists x, x ∈ l /\ f x = Ok y.
Proof.
  intros H y. rewrite (concat_mapM_elem _ _ _ H). split.
  - intros (x & zs & Hx & Hf & Hy). inv_bind Hf. inversion Hf; subst.
    apply list_elem_of_singleton in Hy as ->. by exists x.
  - intros (x & Hx & Hf). exists x, [y]. rewrite Hf. split; [done|].
    split; [done | by apply list_elem_of_singleton].
Qed.

(** *** The order of the sort *)

Lemma concat_mapM_Forall2 {A B K : Type} (Q : K -> B -> Prop)
    (f : A -> result (list B)) (g : A -> list K) (l : list A) (ys : list B) :
  (forall x zs, x ∈ l -> f x = Ok zs -> Forall2 Q (g x) zs) ->
  concat_mapM f l = Ok ys -> Forall2 Q (l ≫= g) ys.
Proof.
  revert ys; induction l as [|x l IH]; intros ys Hf H; simpl in H.
  - inversion H; subst. constructor.
  - inv_bind H. inv_bind H. inversion H; subst. rewrite bind_cons.
    apply Forall2_app.
    + apply Hf; [by left | done].
    + apply IH; [|done]. intros y zs Hy. apply Hf. by right.
Qed.

Lemma key_compare_antisym (a b : out_row) :
  key_compare b a = CompOpp (key_compare a b).
Proof.
  unfold key_compare.
  rewrite (String.compare_antisym (Reporter b) (Reporter a)),
    (String.compare_antisym (Partner b) (Partner a)),
    (String.compare_antisym (Tradeflow b) (Tradeflow a)),
    (Z.compare_antisym (Year a) (Year b)).
  destruct (String.compare (Reporter a) (Reporter b)); simpl; [|done|done].
  destruct (String.compare (Partner a) (Partner b)); simpl; [|done|done].
  by destruct (Z.compare (Year a) (Year b)).
Qed.

#[global] Instance key_le_total : Total key_le.
Proof.
  intros a b. unfold key_le. rewrite (key_compare_antisym a b).
  destruct (key_compare a b); simpl; [by left | by left | by right].
Qed.

Lemma Sorted_adjacent {A : Type} (R : relation A) (l : list A) :
  Sorted R l ->
  forall (i : nat) (a b : A), l !! i = Some a -> l !! S i = Some b -> R a b.
Proof.
  induction 1 as [|x l Hs IH Hhd]; intros i a b Ha Hb; [done|].
  destruct i as [|i]; simpl in *.
  - inversion Ha; subst. destruct Hhd as [|y l' Hxy]; [done|].
    simpl in Hb. by inversion Hb; subst.
  - by apply (IH i).
Qed.

Lemma drop_self_pairs_elem (out : list out_row) (r : out_row) :
  r ∈ drop_self_pairs out <-> r ∈ out /\ Reporter r <> Partner r.
Proof.
  unfold drop_self_pairs. rewrite list_elem_of_In, filter_In, <- list_elem_of_In.
  rewrite negb_true_iff.
  destruct (String.eqb_spec (Reporter r) (Partner r)); intuition congruence.
Qed.

Lemma rename_world_elem (out : list out_row) (r : out_row) :
  r ∈ rename_world out <-> exists r0, r0 ∈ out /\ r = rename_row r0.
Proof.
  unfold rename_world. rewrite list_elem_of_fmap. split.
  - intros (r0 & -> & H0). by exists r0.
  - intros (r0 & H0 & ->). by exists r0.
Qed.

Lemma rename_row_fields (r : out_row) :
  Reporter (rename_row r) = Reporter r /\ Tradeflow (rename_row r) = Tradeflow r
  /\ Year (rename_row r) = Year r /\ Quantity_in_kg (rename_row r) = Quantity_in_kg r
  /\ Trade_Value_USD (rename_row r) = Trade_Value_USD r
  /\ Trade_Value_EUR (rename_row r) = Trade_Value_EUR r
  /\ Partner (rename_row r) <> "World".
Proof.
  unfold rename_row. destruct (String.eqb_spec (Partner r) "World"); simpl; done.
Qed.

Section TableFacts.

Context `{C : Conversions}.
Variable fetch : string -> Z -> string -> string -> result DataFrame.
Variable cfg : Config.

Lemma primary_row_Ok (st : accs) (R P : string) (Y : Z) (F : string) (r : out_row) :
  primary_row cfg st R P Y F = Ok r <->
  exists q v, st.1 !! (R, P, Y, F) = Some q /\ st.2 !! (R, P, Y, F) = Some v /\
              r = make_row cfg R P F Y q v.
Proof.
  unfold primary_row, acc_get, make_row.
  destruct (st.2 !! (R, P, Y, F)) as [v|]; cbn [mbind result_bind].
  - destruct (st.1 !! (R, P, Y, F)) as [q|]; cbn [mbind result_bind].
    + split; [intros H; inversion H; by exists q, v|].
      intros (q' & v' & Hq & Hv & ->). by simplify_eq.
    + split; [done | intros (q' & v' & Hq & _); done].
  - split; [done | intros (q' & v' & _ & Hv & _); done].
Qed.

Lemma mirrored_row_Ok (st : accs) (R : string) (Y : Z) (F : string) (r : out_row) :
  mirrored_row cfg st R Y F = Ok r <->
  exists q v,
    st.1 !! (REGION_LABEL_EU cfg, R, Y, inverse_flow F) = Some q /\
    st.2 !! (REGION_LABEL_EU cfg, R, Y, inverse_flow F) = Some v /\
    r = make_row cfg R (REGION_LABEL_EU cfg) F Y q v.
Proof.
  unfold mirrored_row, acc_get, make_row.
  destruct (st.1 !! (REGION_LABEL_EU cfg, R, Y, inverse_flow F)) as [q|];
    cbn [mbind result_bind].
  - destruct (st.2 !! (REGION_LABEL_EU cfg, R, Y, inverse_flow F)) as [v|];
      cbn [mbind result_bind].
    + split; [intros H; inversion H; by exists q, v|].
      intros (q' & v' & Hq & Hv & ->). by simplify_eq.
    + split; [done | intros (q' & v' & _ & Hv & _); done].
  - split; [done | intros (q' & v' & Hq & _); done].
Qed.

Lemma primary_rows_elem (st : accs) (rows1 : list out_row) :
  primary_rows cfg st = Ok rows1 ->
  forall r, r ∈ rows1 <->
    exists R P Y F,
      R ∈ (REPORTERS cfg).*1 /\ P ∈ PARTNERS cfg /\ Y ∈ YEARS cfg /\ F ∈ FLOWS cfg /\
      primary_row cfg st R P Y F = Ok r.
Proof.
  intros H r. unfold primary_rows in H. rewrite (concat_mapM_elem _ _ _ H). split.
  - intros (R & zs1 & HR & H1 & Hr). rewrite (concat_mapM_elem _ _ _ H1) in Hr.
    destruct Hr as (P & zs2 & HP & H2 & Hr). rewrite (concat_mapM_elem _ _ _ H2) in Hr.
    destruct Hr as (Y & zs3 & HY & H3 & Hr). rewrite (concat_mapM_single _ _ _ H3) in Hr.
    destruct Hr as (F & HF & Hr). by exists R, P, Y, F.
  - intros (R & P & Y & F & HR & HP & HY & HF & Hr).
    destruct (concat_mapM_each _ _ _ H R HR) as [zs1 H1]. exists R, zs1.
    split; [done|]. split; [done|]. rewrite (concat_mapM_elem _ _ _ H1).
    destruct (concat_mapM_each _ _ _ H1 P HP) as [zs2 H2]. exists P, zs2.
    split; [done|]. split; [done|]. rewrite (concat_mapM_elem _ _ _ H2).
    destruct (concat_mapM_each _ _ _ H2 Y HY) as [zs3 H3]. exists Y, zs3.
    split; [done|]. split; [done|]. rewrite (concat_mapM_single _ _ _ H3).
    by exists F.
Qed.

Lemma mirrored_rows_elem (st : accs) (rows2 : list out_row) :
  mirrored_rows cfg st = Ok rows2 ->
  forall r, r ∈ rows2 <->
    exists R Y F,
      R ∈ (REPORTERS cfg).*1 /\ R <> REGION_LABEL_EU cfg /\
      Y ∈ YEARS cfg /\ F ∈ FLOWS cfg /\
      mirrored_row cfg st R Y F = Ok r.
Proof.
  intros H r. unfold mirrored_rows in H. rewrite (concat_mapM_elem _ _ _ H). split.
  - intros (R & zs1 & HR & H1 & Hr).
    destruct (String.eqb_spec R (REGION_LABEL_EU cfg)) as [->|Hne].
    + inversion H1; subst. by apply not_elem_of_nil in Hr.
    + rewrite (concat_mapM_elem _ _ _ H1) in Hr.
      destruct Hr as (Y & zs3 & HY & H3 & Hr). rewrite (concat_mapM_single _ _ _ H3) in Hr.
      destruct Hr as (F & HF & Hr). by exists R, Y, F.
  - intros (R & Y & F & HR & Hne & HY & HF & Hr).
    destruct (concat_mapM_each _ _ _ H R HR) as [zs1 H1]. exists R, zs1.
    split; [done|]. split; [done|].
    destruct (String.eqb_spec R (REGION_LABEL_EU cfg)) as [->|_]; [done|].
    rewrite (concat_mapM_elem _ _ _ H1).
    destruct (concat_mapM_each _ _ _ H1 Y HY) as [zs3 H3]. exists Y, zs3.
    split; [done|]. split; [done|]. rewrite (concat_mapM_single _ _ _ H3).
    by exists F.
Qed.

(** With the accumulators of a run, every primary row can be built. *)
Lemma primary_rows_total (st : accs) :
  acc_inv cfg st -> exists rows1, primary_rows cfg st = Ok rows1.
Proof.
  intros Hinv. unfold primary_rows.
  apply concat_mapM_total; intros R HR. apply concat_mapM_total; intros P HP.
  apply concat_mapM_total; intros Y HY. apply concat_mapM_total; intros F HF.
  destruct (acc_inv_get cfg st (R, P, Y, F) Hinv) as (a & b & Ha & Hb);
    [by apply acc_keys_elem|].
  assert (primary_row cfg st R P Y F = Ok (make_row cfg R P F Y a b)) as ->
    by (apply primary_row_Ok; by eexists _, _).
  by eexists.
Qed.

Lemma mirrored_key (R : string) (Y : Z) (F : string) :
  mirror_ready cfg ->
  R ∈ (REPORTERS cfg).*1 -> R <> REGION_LABEL_EU cfg -> Y ∈ YEARS cfg -> F ∈ FLOWS cfg ->
  (REGION_LABEL_EU cfg, R, Y, inverse_flow F) ∈ acc_keys cfg.
Proof.
  intros (HEU & HP & HF) HR Hne HY HFl. apply acc_keys_elem.
  split; [done|]. split; [|split; [done|]].
  - rewrite Forall_forall in HP. destruct (HP R HR); done.
  - rewrite Forall_forall in HF. by apply HF.
Qed.

Lemma mirrored_rows_total (st : accs) :
  mirror_ready cfg -> acc_inv cfg st -> exists rows2, mirrored_rows cfg st = Ok rows2.
Proof.
  intros Hready Hinv. unfold mirrored_rows.
  apply concat_mapM_total; intros R HR.
  destruct (String.eqb_spec R (REGION_LABEL_EU cfg)) as [->|Hne]; [by eexists|].
  apply concat_mapM_total; intros Y HY. apply concat_mapM_total; intros F HF.
  destruct (acc_inv_get cfg st _ Hinv (mirrored_key R Y F Hready HR Hne HY HF))
    as (a & b & Ha & Hb).
  assert (mirrored_row cfg st R Y F
          = Ok (make_row cfg R (REGION_LABEL_EU cfg) F Y a b)) as ->
    by (apply mirrored_row_Ok; by eexists _, _).
  by eexists.
Qed.

(** *** The final table *)

Lemma final_table_Ok (out : list out_row) :
  final_table fetch cfg = Ok out ->
  exists st rows1 rows2,
    main_aggregation fetch cfg = Ok st /\ primary_rows cfg st = Ok rows1 /\
    mirrored_rows cfg st = Ok rows2 /\
    out = sort_values (rename_world (drop_self_pairs (rows1 ++ rows2))).
Proof.
  unfold final_table. intros H. inv_bind H. inv_bind H. inv_bind H.
  destruct (a0 ++ a1) as [|r l] eqn:E; [done|].
  inversion H. exists a, a0, a1. by rewrite E.
Qed.

Lemma primary_rows_keyed (st : accs) (rows1 : list out_row) :
  primary_rows cfg st = Ok rows1 ->
  Forall2 (fun (k : key) r => primary_row cfg st k.1.1.1 k.1.1.2 k.1.2 k.2 = Ok r)
          (acc_keys cfg) rows1.
Proof.
  unfold primary_rows, acc_keys.
  apply concat_mapM_Forall2. intros R zs _.
  apply concat_mapM_Forall2. intros P zs1 _.
  apply concat_mapM_Forall2. intros Y zs2 _.
  apply concat_mapM_Forall2. intros F zs3 _ H.
  inv_bind H. inversion H; subst. by repeat constructor.
Qed.


Lemma sort_values_elem (out : list out_row) (r : out_row) :
  r ∈ sort_values out <-> r ∈ out.
Proof. unfold sort_values. by rewrite merge_sort_Permutation. Qed.

(** Every row of the final table is a primary or mirrored row with
    distinct reporter and partner, relabelled. *)
Lemma final_table_elem (out : list out_row) (st : accs) (rows1 rows2 : list out_row) :
  out = sort_values (rename_world (drop_self_pairs (rows1 ++ rows2))) ->
  forall r, r ∈ out <->
    exists r0, (r0 ∈ rows1 \/ r0 ∈ rows2) /\ Reporter r0 <> Partner r0 /\
               r = rename_row r0.
Proof.
  intros -> r. rewrite sort_values_elem, rename_world_elem. split.
  - intros (r0 & H0 & ->). apply drop_self_pairs_elem in H0 as [H0 Hne].
    apply elem_of_app in H0. by exists r0.
  - intros (r0 & H0 & Hne & ->). exists r0. split; [|done].
    apply drop_self_pairs_elem. by rewrite elem_of_app.
Qed.

Lemma built_row_sound (st : accs) (rows1 rows2 : list out_row) (r0 : out_row) :
  primary_rows cfg st = Ok rows1 -> mirrored_rows cfg st = Ok rows2 ->
  r0 ∈ rows1 \/ r0 ∈ rows2 ->
  exists (k : key) (q v : float),
    st.1 !! k = Some q /\ st.2 !! k = Some v /\
    Year r0 ∈ YEARS cfg /\
    Quantity_in_kg r0 = q /\
    Trade_Value_USD r0 = fmul v (float_of_Z 1000) /\
    Trade_Value_EUR r0 = to_eur cfg (Year r0) (Trade_Value_USD r0).
Proof.
  intros H1 H2 [Hr|Hr].
  - apply (primary_rows_elem _ _ H1) in Hr as (R & P & Y & F & HR & HP & HY & HF & Hr).
    apply primary_row_Ok in Hr as (q & v & Hq & Hv & ->).
    by exists (R, P, Y, F), q, v.
  - apply (mirrored_rows_elem _ _ H2) in Hr as (R & Y & F & HR & Hne & HY & HF & Hr).
    apply mirrored_row_Ok in Hr as (q & v & Hq & Hv & ->).
    by exists (REGION_LABEL_EU cfg, R, Y, inverse_flow F), q, v.
Qed.

Lemma final_row_sound (out : list out_row) (r : out_row) :
  final_table fetch cfg = Ok out -> r ∈ out ->
  exists (st : accs) (k : key) (q v : float),
    main_aggregation fetch cfg = Ok st /\
    st.1 !! k = Some q /\ st.2 !! k = Some v /\
    Year r ∈ YEARS cfg /\
    Quantity_in_kg r = q /\
    Trade_Value_USD r = fmul v (float_of_Z 1000) /\
    Trade_Value_EUR r = to_eur cfg (Year r) (Trade_Value_USD r).
Proof.
  intros H Hr. apply final_table_Ok in H as (st & rows1 & rows2 & Hst & H1 & H2 & Hout).
  apply (final_table_elem _ st _ _ Hout) in Hr as (r0 & Hr0 & _ & ->).
  destruct (built_row_sound st rows1 rows2 r0 H1 H2 Hr0)
    as (k & q & v & Hq & Hv & HY & HQ & HU & HE).
  destruct (rename_row_fields r0) as (_ & _ & EY & EQ & EU & EE & _).
  exists st, k, q, v. rewrite EY, EQ, EU, EE. done.
Qed.

(** C1.  Mirrored European-Union rows: for every non-EU reporter R, year Y
    and flow F of the configuration, the run emits a mirrored row with
    Reporter = R, Partner = "European Union", the flow label of F itself,
    the quantity of the accumulators' entry for the key
    ("European Union", R, Y, inverse(F)) and, as its value in US dollars,
    the 1000-USD value of that entry times 1000: the figures of the
    primary row of the European Union for partner R, year Y and flow
    inverse(F).  Inverse swaps "I" and "E"; every mirrored row is one of
    these, so none is emitted for the EU reporter itself. *)
Theorem mirrored_rows_correct (st : accs) :
  mirror_ready cfg -> main_aggregation fetch cfg = Ok st ->
  exists rows2 : list out_row,
    mirrored_rows cfg st = Ok rows2
    /\ (forall R Y F,
          R ∈ (REPORTERS cfg).*1 -> R <> REGION_LABEL_EU cfg ->
          Y ∈ YEARS cfg -> F ∈ FLOWS cfg ->
          exists q v,
            st.1 !! (REGION_LABEL_EU cfg, R, Y, inverse_flow F) = Some q /\
            st.2 !! (REGION_LABEL_EU cfg, R, Y, inverse_flow F) = Some v /\
            {| Reporter := R; Partner := REGION_LABEL_EU cfg;
               Tradeflow := flow_label F; Year := Y;
               Quantity_in_kg := q;
               Trade_Value_USD := fmul v (float_of_Z 1000);
               Trade_Value_EUR := to_eur cfg Y (fmul v (float_of_Z 1000)) |} ∈ rows2 /\
            primary_row cfg st (REGION_LABEL_EU cfg) R Y (inverse_flow F)
            = Ok {| Reporter := REGION_LABEL_EU cfg; Partner := R;
                    Tradeflow := flow_label (inverse_flow F); Year := Y;
                    Quantity_in_kg := q;
                    Trade_Value_USD := fmul v (float_of_Z 1000);
                    Trade_Value_EUR := to_eur cfg Y (fmul v (float_of_Z 1000)) |})
    /\ (forall r, r ∈ rows2 ->
          Reporter r <> REGION_LABEL_EU cfg /\ Partner r = REGION_LABEL_EU cfg /\
          exists R Y F q v,
            R ∈ (REPORTERS cfg).*1 /\ Y ∈ YEARS cfg /\ F ∈ FLOWS cfg /\
            st.1 !! (REGION_LABEL_EU cfg, R, Y, inverse_flow F) = Some q /\
            st.2 !! (REGION_LABEL_EU cfg, R, Y, inverse_flow F) = Some v /\
            r = make_row cfg R (REGION_LABEL_EU cfg) F Y q v)
    /\ inverse_flow "I" = "E" /\ inverse_flow "E" = "I"
    /\ flow_label "I" = "Import" /\ flow_label "E" = "Export".
Proof.
  intros Hready Hst. pose proof (main_aggregation_inv _ _ _ Hst) as Hinv.
  destruct (mirrored_rows_total st Hready Hinv) as [rows2 H2].
  exists rows2. split; [done|]. split; [|split; [|done]].
  - intros R Y F HR Hne HY HF.
    destruct (acc_inv_get cfg st _ Hinv (mirrored_key R Y F Hready HR Hne HY HF))
      as (a & b & Ha & Hb).
    exists a, b. split; [done|]. split; [done|]. split.
    + apply (mirrored_rows_elem _ _ H2). exists R, Y, F.
      split; [done|]. split; [done|]. split; [done|]. split; [done|].
      apply mirrored_row_Ok. by exists a, b.
    + apply primary_row_Ok. by exists a, b.
  - intros r Hr.
    apply (mirrored_rows_elem _ _ H2) in Hr as (R & Y & F & HR & Hne & HY & HF & Hr).
    apply mirrored_row_Ok in Hr as (q & v & Hq & Hv & ->).
    split; [done|]. split; [done|]. by exists R, Y, F, q, v.
Qed.

(** C5.  Additivity over products: for every configured key (reporter,
    partner, year, flow), the final accumulator entry, for quantity and
    for 1000-USD value, is the sum over the configured products, in
    their order and from the initial zero, of each product sheet's
    contribution for that key (the per-partner sum, or the rest-of-world
    sum for the "World" key); nothing is deduplicated across products.
    The sum is the one the loop takes: float additions from left to
    right, each rounded.  The reporters, years and flows of the
    configuration are pairwise distinct, as the compiled-in ones are. *)
Theorem accumulators_additive (st : accs) (R c P : string) (Y : Z) (F : string) :
  NoDup (REPORTERS cfg).*1 -> NoDup (YEARS cfg) -> NoDup (FLOWS cfg) ->
  main_aggregation fetch cfg = Ok st ->
  (R, c) ∈ REPORTERS cfg -> P ∈ PARTNERS cfg -> Y ∈ YEARS cfg -> F ∈ FLOWS cfg ->
  exists cs : list (float * float),
    Forall2 (fun product x =>
               contribution fetch cfg c Y F P product = Ok x)
            (PRODUCTS cfg) cs
    /\ st.1 !! (R, P, Y, F) = Some (foldl fadd (float_of_Z 0) cs.*1)
    /\ st.2 !! (R, P, Y, F) = Some (foldl fadd (float_of_Z 0) cs.*2)
    /\ acc_init cfg !! (R, P, Y, F) = Some (float_of_Z 0)
    /\ (forall product df,
          fetch c Y F product = Ok df ->
          contribution fetch cfg c Y F P product =
            if bool_decide (missing_columns df = []) then
              Ok (if String.eqb P "World"
                  then rest_of_world_spec df (EXCLUDE_FOR_ROW cfg)
                  else partner_sum_spec df P)
            else Raise (ValueError (missing_columns df) (columns df))).
Proof.
  intros HndR HndY HndF Hst HR HP HY HF.
  destruct (main_aggregation_entry fetch cfg st R c P Y F
              HndR HndY HndF Hst HR HP HY HF) as (cs & Hcs & Hentry).
  exists cs. inversion Hentry as [[Hq Hv]]. split; [done|]. split; [done|]. split; [done|].
  split.
  - rewrite acc_init_lookup, bool_decide_eq_true_2; [done|].
    apply acc_keys_elem. split; [|done]. apply list_elem_of_fmap. by exists (R, c).
  - intros product df Hfetch. by apply contribution_eq.
Qed.

(** C7 (as amended).  Missing conversion rate: a row, primary or
    mirrored, whose year has no entry in the USD-to-EUR table is still
    built, with Trade Value EUR = NaN and Trade Value USD the float
    product value-in-1000s x 1000; when the year has an entry, Trade Value
    EUR is Trade Value USD times that rate.  The same holds of every row
    of the final table.  Trade Value USD need not be finite: it is NaN
    exactly when the accumulated value is, and it is finite only when the
    accumulated value is and the product does not overflow. *)
Theorem missing_rate_gives_nan :
  (forall (st : accs) R P Y F q v,
     st.1 !! (R, P, Y, F) = Some q -> st.2 !! (R, P, Y, F) = Some v ->
     USD_TO_EUR cfg !! Y = None ->
     primary_row cfg st R P Y F
     = Ok {| Reporter := R; Partner := P; Tradeflow := flow_label F; Year := Y;
             Quantity_in_kg := q; Trade_Value_USD := fmul v (float_of_Z 1000);
             Trade_Value_EUR := NaN |})
  /\ (forall (st : accs) R Y F q v,
        st.1 !! (REGION_LABEL_EU cfg, R, Y, inverse_flow F) = Some q ->
        st.2 !! (REGION_LABEL_EU cfg, R, Y, inverse_flow F) = Some v ->
        USD_TO_EUR cfg !! Y = None ->
        mirrored_row cfg st R Y F
        = Ok {| Reporter := R; Partner := REGION_LABEL_EU cfg;
                Tradeflow := flow_label F; Year := Y;
                Quantity_in_kg := q; Trade_Value_USD := fmul v (float_of_Z 1000);
                Trade_Value_EUR := NaN |})
  /\ (forall (out : list out_row) (r : out_row),
        final_table fetch cfg = Ok out -> r ∈ out ->
        exists (st : accs) (k : key) (v : float),
          main_aggregation fetch cfg = Ok st /\ st.2 !! k = Some v /\
          Trade_Value_USD r = fmul v (float_of_Z 1000) /\
          is_nan (Trade_Value_USD r) = is_nan v /\
          (is_finite (Trade_Value_USD r) = true -> is_finite v = true) /\
          (USD_TO_EUR cfg !! Year r = None -> Trade_Value_EUR r = NaN) /\
          (forall rate, USD_TO_EUR cfg !! Year r = Some rate ->
                        Trade_Value_EUR r = fmul (Trade_Value_USD r) rate)).
Proof.
  split; [|split].
  - intros st R P Y F q v Hq Hv Hrate. apply primary_row_Ok. exists q, v.
    split; [done|]. split; [done|]. unfold make_row, to_eur. by rewrite Hrate.
  - intros st R Y F q v Hq Hv Hrate. apply mirrored_row_Ok. exists q, v.
    split; [done|]. split; [done|]. unfold make_row, to_eur. by rewrite Hrate.
  - intros out r H Hr.
    destruct (final_row_sound out r H Hr) as (st & k & q & v & Hst & _ & Hv & _ & _ & HU & HE).
    exists st, k, v. split; [done|]. split; [done|]. split; [done|].
    split; [rewrite HU; apply usd_nan|]. split; [rewrite HU; apply usd_finite|].
    rewrite HE. unfold to_eur. split.
    + by intros ->.
    + by intros rate ->.
Qed.

(** C8.  The final table is sorted ascending by (Reporter, Partner, Year,
    Tradeflow): of two adjacent rows, the key of the earlier is less than
    or equal to the key of the later, compared lexicographically with the
    natural order of strings, in which "Export" comes before "Import".
    The sort comes last: the table is a rearrangement of the rows left by
    the removal of self pairs and relabelled from "World" to
    "Rest of World", so no row of it has the partner "World". *)
Theorem final_table_sorted (out : list out_row) :
  final_table fetch cfg = Ok out ->
  (forall (i : nat) (a b : out_row),
     out !! i = Some a -> out !! S i = Some b -> key_compare a b <> Gt)
  /\ (exists st rows1 rows2,
        main_aggregation fetch cfg = Ok st /\ primary_rows cfg st = Ok rows1 /\
        mirrored_rows cfg st = Ok rows2 /\
        out = sort_values (rename_world (drop_self_pairs (rows1 ++ rows2))) /\
        out ≡ₚ rename_world (drop_self_pairs (rows1 ++ rows2)))
  /\ (forall r, r ∈ out -> Partner r <> "World")
  /\ String.compare "Export" "Import" = Lt.
Proof.
  intros H. apply final_table_Ok in H as (st & rows1 & rows2 & Hst & H1 & H2 & Hout).
  split; [|split; [|split; [|done]]].
  - intros i a b Ha Hb. apply (Sorted_adjacent key_le out) with (i := i); [|done|done].
    rewrite Hout. apply (Sorted_merge_sort key_le).
  - exists st, rows1, rows2. split; [done|]. split; [done|]. split; [done|].
    split; [done|]. rewrite Hout. apply merge_sort_Permutation.
  - intros r Hr. apply (final_table_elem _ st _ _ Hout) in Hr as (r0 & _ & _ & ->).
    apply rename_row_fields.
Qed.

(** *** Sheets without the required columns *)

Lemma product_step_columns (R c : string) (Y : Z) (F prod : string) (t t' : accs) :
  product_step fetch cfg R c Y F t prod = Ok t' ->
  exists df, fetch c Y F prod = Ok df /\ missing_columns df = [].
Proof.
  unfold product_step. intros H. inv_bind H. inv_bind H. exists a. split; [done|].
  destruct (sums_for_partners_eq a (PARTNERS cfg))
    as (out & _ & _ & Hout).
  rewrite Ha0 in Hout. by case_bool_decide.
Qed.

Lemma main_aggregation_each (st : accs) (R c : string) (Y : Z) (F prod : string) :
  main_aggregation fetch cfg = Ok st ->
  (R, c) ∈ REPORTERS cfg -> Y ∈ YEARS cfg -> F ∈ FLOWS cfg -> prod ∈ PRODUCTS cfg ->
  exists df, fetch c Y F prod = Ok df /\ missing_columns df = [].
Proof.
  unfold main_aggregation. intros H HR HY HF Hprod.
  destruct (foldM_each _ _ _ _ H _ HR) as (t1 & t1' & H1). cbn beta iota in H1.
  destruct (foldM_each _ _ _ _ H1 _ HY) as (t2 & t2' & H2). cbn beta in H2.
  destruct (foldM_each _ _ _ _ H2 _ HF) as (t3 & t3' & H3). cbn beta in H3.
  destruct (foldM_each _ _ _ _ H3 _ Hprod) as (t4 & t4' & H4).
  by apply product_step_columns in H4.
Qed.

(** C6.  Missing required columns: on a record set that lacks at least
    one of the four required columns (Partner, Quantity, Quantity Unit,
    Trade Value 1000USD) both aggregation operations raise at once an
    error that names the missing columns and the columns found; on a
    record set with the four columns neither raises.  The error is not
    skipped over: a run that fetches such a sheet ends in an error. *)
Theorem missing_columns_fatal :
  (forall (df : DataFrame) (partners exclude_partners : list string),
     missing_columns df <> [] ->
     get_qty_and_value_sums_for_partners df partners
     = Raise (ValueError (missing_columns df) (columns df))
     /\ get_rest_of_world_sum df exclude_partners
        = Raise (ValueError (missing_columns df) (columns df)))
  /\ (forall (df : DataFrame) (partners exclude_partners : list string),
        missing_columns df = [] ->
        (exists out,
           get_qty_and_value_sums_for_partners df partners
           = Ok out)
        /\ (exists s,
              get_rest_of_world_sum df exclude_partners = Ok s))
  /\ (forall (df : DataFrame) (c : string),
        c ∈ missing_columns df <-> c ∈ required /\ c ∉ columns df)
  /\ (forall df : DataFrame,
        missing_columns df <> [] <-> exists c, c ∈ required /\ c ∉ columns df)
  /\ (forall (R c : string) (Y : Z) (F prod : string) (df : DataFrame),
        (R, c) ∈ REPORTERS cfg -> Y ∈ YEARS cfg -> F ∈ FLOWS cfg ->
        prod ∈ PRODUCTS cfg ->
        fetch c Y F prod = Ok df -> missing_columns df <> [] ->
        exists e, final_table fetch cfg = Raise e).
Proof.
  assert (forall (df : DataFrame) (c : string),
            c ∈ missing_columns df <-> c ∈ required /\ c ∉ columns df) as Hmem.
  { intros df c. unfold missing_columns. rewrite list_elem_of_filter. tauto. }
  split; [|split; [|split; [done|split]]].
  - intros df partners ex Hm. rewrite rest_of_world_sum_eq.
    destruct (sums_for_partners_eq df partners)
      as (out & _ & _ & ->).
    by rewrite bool_decide_eq_false_2.
  - intros df partners ex Hm. rewrite rest_of_world_sum_eq.
    destruct (sums_for_partners_eq df partners)
      as (out & _ & _ & ->).
    rewrite bool_decide_eq_true_2 by done. split; by eexists.
  - intros df. split.
    + intros Hm. destruct (missing_columns df) as [|c l] eqn:E; [done|].
      exists c. apply Hmem. rewrite E. by left.
    + intros (c & Hc) Hm. apply Hmem in Hc. rewrite Hm in Hc.
      by apply not_elem_of_nil in Hc.
  - intros R c Y F prod df HR HY HF Hprod Hfetch Hm.
    unfold final_table.
    destruct (main_aggregation fetch cfg) as [st|e] eqn:Hst; [|by exists e].
    destruct (main_aggregation_each st R c Y F prod Hst HR HY HF Hprod)
      as (df' & Hdf' & Hm').
    rewrite Hfetch in Hdf'. by inversion Hdf'; subst.
Qed.

(** C4 (as amended).  Rows that are not kilogram rows: a row whose
    quantity unit, trimmed of surrounding whitespace, is not equal to "kg"
    whatever the case of its letters contributes to no sum of either
    aggregation, wherever it stands in the sheet, and so to no
    accumulator entry: the sums of the frame are those of the frame
    without the row, its other cells held as they are, and the run on the
    sheets is the run on their kilogram rows alone.  The rows are
    dropped; nothing converts their unit. *)
Theorem non_kg_rows_dropped :
  (forall (cs : list string) (l1 l2 : list (gmap string cell)) (r : gmap string cell)
          (partners exclude_partners : list string),
     is_kg_row r = false ->
     get_qty_and_value_sums_for_partners
       {| columns := cs; rows := l1 ++ r :: l2 |} partners
     = get_qty_and_value_sums_for_partners
         {| columns := cs; rows := l1 ++ l2 |} partners
     /\ get_rest_of_world_sum
          {| columns := cs; rows := l1 ++ r :: l2 |} exclude_partners
        = get_rest_of_world_sum
            {| columns := cs; rows := l1 ++ l2 |} exclude_partners)
  /\ (forall r : gmap string cell,
        is_kg_row r = true <->
        exists s, astype_str (row_get "Quantity Unit" r) = CStr s
                  /\ str_lower (str_strip s) = "kg")
  /\ main_aggregation
       (fun c Y F prod => df ← fetch c Y F prod; Ok (kg_rows_only df)) cfg
     = main_aggregation fetch cfg.
Proof.
  split; [|split].
  - intros cs l1 l2 r partners ex Hr.
    unfold get_qty_and_value_sums_for_partners, get_rest_of_world_sum.
    by rewrite (prep_kg_rows_insert cs l1 l2 r Hr).
  - intros r. unfold is_kg_row, unit_label, cell_label.
    destruct (astype_str (row_get "Quantity Unit" r)) as [s|z|x|z].
    + rewrite String.eqb_eq. split.
      * intros H. by exists s.
      * intros (s' & Hs & H). by inversion Hs; subst.
    + split; [done | by intros (s & ? & _)].
    + split; [done | by intros (s & ? & _)].
    + split; [done | by intros (s & ? & _)].
  - unfold main_aggregation.
    apply foldM_ext; intros t1 [R c]. apply foldM_ext; intros t2 Y.
    apply foldM_ext; intros t3 F. apply foldM_ext; intros t4 prod.
    unfold product_step. destruct (fetch c Y F prod) as [df|e]; [|done].
    cbn [mbind result_bind].
    unfold get_qty_and_value_sums_for_partners, get_rest_of_world_sum.
    by rewrite (prep_kg_rows_only df).
Qed.

End TableFacts.


Section StoreFacts.

Context `{C : Conversions}.

Lemma read_run {B : Type} (r : nat) (df : DataFrame) (k : DataFrame -> Store.M B)
    (h : gmap nat DataFrame) :
  h !! r = Some df -> (Store.read r ≫= k) h = k df h.
Proof. intros H. unfold mbind, Store.M_bind, Store.bind, Store.read. by rewrite H. Qed.

Lemma ret_run {A B : Type} (a : A) (k : A -> Store.M B) (h : gmap nat DataFrame) :
  (Store.ret a ≫= k) h = k a h.
Proof. done. Qed.

Lemma raise_run {A B : Type} (e : exn) (k : A -> Store.M B) (h : gmap nat DataFrame) :
  (Store.raise e ≫= k) h = Some (Raise e, h).
Proof. done. Qed.

Lemma df_columns_run {B : Type} (r : nat) (df : DataFrame) (k : list string -> Store.M B)
    (h : gmap nat DataFrame) :
  h !! r = Some df -> (Store.df_columns r ≫= k) h = k (columns df) h.
Proof.
  intros H. unfold Store.df_columns, mbind, Store.M_bind, Store.bind, Store.read, Store.ret. by rewrite H.
Qed.

Lemma getitem_run {B : Type} (r : nat) (c : string) (df : DataFrame)
    (k : list cell -> Store.M B) (h : gmap nat DataFrame) :
  h !! r = Some df -> (Store.getitem r c ≫= k) h = k (get_col c df) h.
Proof.
  intros H. unfold Store.getitem, mbind, Store.M_bind, Store.bind, Store.read, Store.ret. by rewrite H.
Qed.

Lemma setitem_run {B : Type} (r : nat) (c : string) (vals : list cell) (df : DataFrame)
    (k : unit -> Store.M B) (h : gmap nat DataFrame) :
  h !! r = Some df ->
  (Store.setitem r c vals ≫= k) h = k tt (<[r := set_col c vals df]> h).
Proof.
  intros H. unfold Store.setitem, mbind, Store.M_bind, Store.bind, Store.read, Store.write. by rewrite H, H.
Qed.

Lemma df_copy_run {B : Type} (r : nat) (df : DataFrame) (k : nat -> Store.M B)
    (h : gmap nat DataFrame) :
  h !! r = Some df ->
  (Store.df_copy r ≫= k) h = k (fresh (dom h)) (<[fresh (dom h) := df]> h).
Proof.
  intros H. unfold Store.df_copy, mbind, Store.M_bind, Store.bind, Store.read, Store.alloc. by rewrite H.
Qed.

Lemma getitem_mask_run {B : Type} (r : nat) (mask : list bool) (df : DataFrame)
    (k : nat -> Store.M B) (h : gmap nat DataFrame) :
  h !! r = Some df ->
  (Store.getitem_mask r mask ≫= k) h
  = k (fresh (dom h)) (<[fresh (dom h) := select_rows mask df]> h).
Proof.
  intros H. unfold Store.getitem_mask, mbind, Store.M_bind, Store.bind, Store.read, Store.alloc. by rewrite H.
Qed.

Lemma fresh_lookup (h : gmap nat DataFrame) : h !! fresh (dom h) = None.
Proof. apply not_elem_of_dom. apply is_fresh. Qed.

Lemma preserves_refl (h : gmap nat DataFrame) : preserves h h.
Proof. by intros r df. Qed.

Lemma preserves_trans (h1 h2 h3 : gmap nat DataFrame) :
  preserves h1 h2 -> preserves h2 h3 -> preserves h1 h3.
Proof. intros H12 H23 r df H. by apply H23, H12. Qed.

Lemma preserves_fresh (h : gmap nat DataFrame) (df : DataFrame) :
  preserves h (<[fresh (dom h) := df]> h).
Proof.
  intros r x H. rewrite lookup_insert_ne; [done|].
  intros <-. by rewrite fresh_lookup in H.
Qed.

Lemma preserves_overwrite (h0 h : gmap nat DataFrame) (r : nat) (df : DataFrame) :
  h0 !! r = None -> preserves h0 h -> preserves h0 (<[r := df]> h).
Proof.
  intros Hr H r' x Hx. rewrite lookup_insert_ne; [by apply H|].
  intros <-. by rewrite Hr in Hx.
Qed.

(** The preparation on the heap: it raises before touching the heap, or
    returns a new object holding the prepared frame. *)
Lemma prep_kg_rows_run (h : gmap nat DataFrame) (r : nat) (df : DataFrame) :
  h !! r = Some df ->
  match _prep_kg_rows df with
  | Ok d =>
      exists r' h',
        Store._prep_kg_rows r h = Some (Ok r', h') /\
        h' !! r' = Some d /\ h !! r' = None /\ preserves h h'
  | Raise e =>
      Store._prep_kg_rows r h = Some (Raise e, h)
  end.
Proof.
  intros Hr. unfold _prep_kg_rows, Store._prep_kg_rows.
  rewrite (df_columns_run r df) by done.
  destruct (negb (bool_decide (filter (fun c => c ∉ columns df) required = []))); [done|].
  cbv zeta.
  set (r1 := fresh (dom h)).
  rewrite (df_copy_run r df) by done. fold r1.
  assert (h !! r1 = None) as Hr1 by apply fresh_lookup.
  rewrite (getitem_run r1 _ df) by apply lookup_insert_eq.
  rewrite (setitem_run r1 _ _ df) by apply lookup_insert_eq.
  rewrite insert_insert_eq.
  erewrite getitem_run by apply lookup_insert_eq.
  erewrite setitem_run by apply lookup_insert_eq.
  rewrite insert_insert_eq.
  erewrite getitem_run by apply lookup_insert_eq.
  erewrite getitem_mask_run by apply lookup_insert_eq.
  match goal with |- context [fresh (dom ?x)] => set (h1 := x) end.
  set (r2 := fresh (dom h1)).
  assert (h1 !! r2 = None) as Hr2 by apply fresh_lookup.
  erewrite getitem_run by apply lookup_insert_eq.
  erewrite setitem_run by apply lookup_insert_eq.
  rewrite insert_insert_eq.
  erewrite getitem_run by apply lookup_insert_eq.
  erewrite setitem_run by apply lookup_insert_eq.
  rewrite insert_insert_eq.
  eexists r2, _. split; [reflexivity|]. split; [apply lookup_insert_eq|]. split.
  - destruct (h !! r2) as [x|] eqn:E; [|done].
    assert (h1 !! r2 = Some x) as Hx; [|by rewrite Hr2 in Hx].
    subst h1. apply preserves_fresh. done.
  - apply preserves_overwrite.
    + destruct (h !! r2) as [x|] eqn:E; [|done].
      assert (h1 !! r2 = Some x) as Hx; [|by rewrite Hr2 in Hx].
      subst h1. apply preserves_fresh. done.
    + subst h1. apply preserves_fresh.
Qed.

Lemma bind_run_Ok {A B : Type} (m : Store.M A) (k : A -> Store.M B) (a : A)
    (h h' : gmap nat DataFrame) :
  m h = Some (Ok a, h') -> (m ≫= k) h = k a h'.
Proof. intros H. unfold mbind, Store.M_bind, Store.bind. by rewrite H. Qed.

Lemma bind_run_Raise {A B : Type} (m : Store.M A) (k : A -> Store.M B) (e : exn)
    (h h' : gmap nat DataFrame) :
  m h = Some (Raise e, h') -> (m ≫= k) h = Some (Raise e, h').
Proof. intros H. unfold mbind, Store.M_bind, Store.bind. by rewrite H. Qed.

(** C10.  Both aggregation operations leave their input record set
    unchanged: the row preparation works on a copy, so a call of
    sum-for-partners or of rest-of-world on the caller's frame returns
    its result (or raises) with that frame, and every other frame of the
    heap, as it was, column for column and row for row. *)
Theorem aggregations_leave_input_unchanged
    (h : gmap nat DataFrame) (r : nat) (df : DataFrame)
    (partners exclude_partners : list string) :
  h !! r = Some df ->
  (exists h',
     Store.get_qty_and_value_sums_for_partners r partners h
     = Some (get_qty_and_value_sums_for_partners
               df partners, h')
     /\ h' !! r = Some df /\ preserves h h')
  /\ (exists h',
        Store.get_rest_of_world_sum r exclude_partners h
        = Some (get_rest_of_world_sum
                  df exclude_partners, h')
        /\ h' !! r = Some df /\ preserves h h').
Proof.
  intros Hr. pose proof (prep_kg_rows_run h r df Hr) as Hprep.
  unfold Store.get_qty_and_value_sums_for_partners, Store.get_rest_of_world_sum,
    get_qty_and_value_sums_for_partners, get_rest_of_world_sum.
  destruct (_prep_kg_rows df) as [d|e].
  - destruct Hprep as (r' & h' & Hrun & Hd & Hfresh & Hpres).
    rewrite !(bind_run_Ok _ _ _ _ _ Hrun).
    rewrite !(getitem_run r' _ d) by done.
    rewrite !(getitem_mask_run r' _ d) by done.
    assert (forall x, preserves h (<[fresh (dom h') := x]> h')) as Hpres'.
    { intros x. eapply preserves_trans; [exact Hpres | apply preserves_fresh]. }
    split.
    + erewrite read_run by apply lookup_insert_eq.
      eexists. split; [reflexivity|]. split; [by apply Hpres' | apply Hpres'].
    + erewrite !getitem_run by apply lookup_insert_eq.
      eexists. split; [reflexivity|]. split; [by apply Hpres' | apply Hpres'].
  - rewrite !(bind_run_Raise _ _ _ _ _ Hprep).
    split; (exists h; split; [done|]; split; [done | apply preserves_refl]).
Qed.

End StoreFacts.

(** ** The properties on the example data *)

Ltac by_compute := apply (bool_decide_unpack _); vm_compute; exact I.

Lemma small_table_Ok :
  final_table (C := text_only) example_fetch small_config = Ok small_table.
Proof. vm_compute. reflexivity. Qed.

Lemma small_run_entries :
  small_run_entry ("European Union", "China", 2020, "I")
  = (Some (float_of_Z 200), Some (float_of_Z 100))
  /\ small_run_entry ("China", "Japan", 2020, "E")
     = (Some (float_of_Z 20), Some (float_of_Z 10)).
Proof. split; vm_compute; reflexivity. Qed.

Lemma small_run_exists :
  exists st,
    main_aggregation (C := text_only) example_fetch small_config = Ok st
    /\ forall k, entry k st = small_run_entry k.
Proof.
  destruct (main_aggregation (C := text_only) example_fetch small_config)
    as [st|e] eqn:Hst.
  - exists st. split; [reflexivity|]. intros k. unfold small_run_entry. by rewrite Hst.
  - destruct small_run_entries as [H _]. unfold small_run_entry in H.
    rewrite Hst in H. discriminate H.
Qed.

(** C1 on the small configuration: the mirrored row of China for 2020
    and exports carries what the European Union reported as imports from
    China. *)
Lemma mirrored_rows_witness :
  mirror_ready small_config
  /\ exists st rows2,
       main_aggregation (C := text_only) example_fetch small_config = Ok st
       /\ mirrored_rows small_config st = Ok rows2
       /\ entry ("European Union", "China", 2020, "I") st
          = (Some (float_of_Z 200), Some (float_of_Z 100))
       /\ {| Reporter := "China"; Partner := "European Union";
              Tradeflow := "Export"; Year := 2020;
              Quantity_in_kg := float_of_Z 200;
              Trade_Value_USD := fmul (float_of_Z 100) (float_of_Z 1000);
              Trade_Value_EUR :=
                to_eur small_config 2020 (fmul (float_of_Z 100) (float_of_Z 1000)) |}
            ∈ rows2
       /\ fmul (float_of_Z 100) (float_of_Z 1000) = float_of_Z 100000
       /\ to_eur small_config 2020 (float_of_Z 100000) = float_of_Z 87700.
Proof.
  assert (mirror_ready small_config) as Hready by by_compute.
  split; [exact Hready|].
  destruct small_run_exists as (st & Hst & Hentry).
  destruct (mirrored_rows_correct example_fetch small_config st Hready Hst)
    as (rows2 & H2 & Hall & _).
  exists st, rows2. split; [exact Hst|]. split; [exact H2|].
  pose proof (Hentry ("European Union", "China", 2020, "I")) as He.
  rewrite (proj1 small_run_entries) in He. split; [exact He|].
  split; [|split; vm_compute; reflexivity].
  destruct (Hall "China" 2020 "E") as (q & v & Hq & Hv & Hin & _);
    [by_compute | discriminate | by_compute | by_compute |].
  unfold entry in He. change (inverse_flow "E") with "I" in Hq, Hv.
  change (REGION_LABEL_EU small_config) with "European Union" in Hq, Hv.
  rewrite Hq, Hv in He. inversion He; subst q v. exact Hin.
Defined.

(** C5 on the small configuration: the two product sheets each
    contribute Japan's 10 kg and 5 thousand dollars to China's exports of
    2020, and the entry holds both. *)
Lemma accumulators_additive_witness :
  NoDup (REPORTERS small_config).*1 /\ NoDup (YEARS small_config)
  /\ NoDup (FLOWS small_config)
  /\ exists st cs,
       main_aggregation (C := text_only) example_fetch small_config = Ok st
       /\ Forall2 (fun product x =>
                     contribution (C := text_only) example_fetch small_config
                       "CHN" 2020 "E" "Japan" product = Ok x)
                  (PRODUCTS small_config) cs
       /\ st.1 !! ("China", "Japan", 2020, "E") = Some (foldl fadd (float_of_Z 0) cs.*1)
       /\ st.2 !! ("China", "Japan", 2020, "E") = Some (foldl fadd (float_of_Z 0) cs.*2)
       /\ entry ("China", "Japan", 2020, "E") st
          = (Some (float_of_Z 20), Some (float_of_Z 10)).
Proof.
  assert (NoDup (REPORTERS small_config).*1) as HR by by_compute.
  assert (NoDup (YEARS small_config)) as HY by by_compute.
  assert (NoDup (FLOWS small_config)) as HF by by_compute.
  split; [exact HR|]. split; [exact HY|]. split; [exact HF|].
  destruct small_run_exists as (st & Hst & Hentry).
  destruct (accumulators_additive example_fetch small_config st
              "China" "CHN" "Japan" 2020 "E" HR HY HF Hst)
    as (cs & Hcs & Hq & Hv & _ & _); [by_compute | by_compute | by_compute | by_compute |].
  exists st, cs. split; [exact Hst|]. split; [exact Hcs|].
  split; [exact Hq|]. split; [exact Hv|].
  rewrite Hentry. exact (proj2 small_run_entries).
Defined.

(** C8 on the small configuration. *)
Lemma final_table_sorted_witness :
  final_table (C := text_only) example_fetch small_config = Ok small_table
  /\ (forall (i : nat) (a b : out_row),
        small_table !! i = Some a -> small_table !! S i = Some b ->
        key_compare a b <> Gt)
  /\ (forall r, r ∈ small_table -> Partner r <> "World")
  /\ length small_table = 24%nat
  /\ Partner <$> small_table !! 8%nat = Some "Rest of World".
Proof.
  destruct (final_table_sorted example_fetch small_config small_table small_table_Ok)
    as (Hadj & _ & Hworld & _).
  split; [exact small_table_Ok|]. split; [exact Hadj|]. split; [exact Hworld|].
  split; vm_compute; reflexivity.
Defined.

Lemma example_rest_of_world :
  get_rest_of_world_sum (C := text_only) example_df ["China"]
  = Ok (float_of_Z 10, float_of_Z 5).
Proof. vm_compute. reflexivity. Qed.

Lemma example_sums_for_partners :
  get_qty_and_value_sums_for_partners (C := text_only) example_df ["China"]
  = Ok [("China", (float_of_Z 100, float_of_Z 50))].
Proof. vm_compute. reflexivity. Qed.

(** C10 on the worked example: the frame named by reference 0 is still
    the example sheet after either call. *)
Lemma aggregations_leave_input_unchanged_witness :
  ({[ 0%nat := example_df ]} : gmap nat DataFrame) !! 0%nat = Some example_df
  /\ (exists h',
        Store.get_qty_and_value_sums_for_partners (C := text_only) 0 ["China"]
          {[ 0%nat := example_df ]}
        = Some (Ok [("China", (float_of_Z 100, float_of_Z 50))], h')
        /\ h' !! 0%nat = Some example_df)
  /\ (exists h',
        Store.get_rest_of_world_sum (C := text_only) 0 ["China"]
          {[ 0%nat := example_df ]}
        = Some (Ok (float_of_Z 10, float_of_Z 5), h')
        /\ h' !! 0%nat = Some example_df).
Proof.
  assert (({[ 0%nat := example_df ]} : gmap nat DataFrame) !! 0%nat = Some example_df)
    as H0 by apply lookup_singleton_eq.
  split; [exact H0|].
  destruct (aggregations_leave_input_unchanged (C := text_only)
              {[ 0%nat := example_df ]} 0 example_df ["China"] ["China"] H0)
    as [(h1 & Hrun1 & Hdf1 & _) (h2 & Hrun2 & Hdf2 & _)].
  rewrite example_sums_for_partners in Hrun1. rewrite example_rest_of_world in Hrun2.
  split; [exists h1 | exists h2]; split; assumption.
Defined.

Lemma small_table_first :
  exists r,
    small_table !! 0%nat = Some r
    /\ Year r = 2019 /\ Trade_Value_USD r = float_of_Z 100000.
Proof. eexists. vm_compute. repeat split. Qed.

(** C7 as amended, on the small configuration, which has no rate for
    2019: the first row of the table is of 2019, with Trade Value EUR =
    NaN and 100000 as Trade Value USD. *)
Lemma missing_rate_witness :
  exists r,
    small_table !! 0%nat = Some r
    /\ Year r = 2019 /\ USD_TO_EUR small_config !! 2019 = None
    /\ Trade_Value_EUR r = NaN
    /\ Trade_Value_USD r = float_of_Z 100000.
Proof.
  destruct small_table_first as (r & Hr & HY & HU).
  exists r. split; [exact Hr|].
  assert (r ∈ small_table) as Hin by (by apply list_elem_of_lookup_2 with 0%nat).
  destruct (missing_rate_gives_nan (C := text_only) example_fetch small_config)
    as (_ & _ & Hrows).
  destruct (Hrows small_table r small_table_Ok Hin)
    as (st & k & v & _ & _ & _ & _ & _ & Hnan & _).
  assert (USD_TO_EUR small_config !! 2019 = None) as Hrate by (vm_compute; reflexivity).
  split; [exact HY|]. split; [exact Hrate|].
  split; [apply Hnan; rewrite HY; exact Hrate | exact HU].
Defined.

Lemma huge_table_Ok :
  final_table (C := text_only) huge_fetch small_config = Ok huge_table.
Proof. vm_compute. reflexivity. Qed.

(** C7 as worded fails: every sheet of the run holds one row worth 1e306
    thousand dollars.  The row of the rest of the world that China
    exported to in 2019, a year without rate, has Trade Value EUR = NaN,
    and its Trade Value USD, 2e306 x 1000, is beyond the floats: it is
    the infinity, not a finite number. *)
Lemma overflowing_value_counterexample :
  final_table (C := text_only) huge_fetch small_config = Ok huge_table
  /\ USD_TO_EUR small_config !! 2019 = None
  /\ huge_table !! 8%nat
     = Some {| Reporter := "China"; Partner := "Rest of World";
               Tradeflow := "Export"; Year := 2019;
               Quantity_in_kg := float_of_Z 2;
               Trade_Value_USD := S754_infinity false;
               Trade_Value_EUR := NaN |}
  /\ is_finite (S754_infinity false) = false
  /\ get_rest_of_world_sum (C := text_only) huge_df (EXCLUDE_FOR_ROW small_config)
     = Ok (float_of_Z 1, float_of_Z (10 ^ 306))
  /\ fmul (fadd (float_of_Z (10 ^ 306)) (float_of_Z (10 ^ 306))) (float_of_Z 1000)
     = S754_infinity false.
Proof.
  split; [exact huge_table_Ok|]. repeat split; vm_compute; reflexivity.
Qed.



(** *** Sheets whose values cancel *)







(** A sheet without the unit and value columns. *)
Lemma missing_columns_witness :
  missing_columns (mkDataFrame ["Partner"; "Quantity"] [])
  = ["Quantity Unit"; "Trade Value 1000USD"]
  /\ get_qty_and_value_sums_for_partners (C := text_only)
       (mkDataFrame ["Partner"; "Quantity"] []) ["China"]
     = Raise (ValueError ["Quantity Unit"; "Trade Value 1000USD"] ["Partner"; "Quantity"])
  /\ get_rest_of_world_sum (C := text_only)
       (mkDataFrame ["Partner"; "Quantity"] []) ["China"]
     = Raise (ValueError ["Quantity Unit"; "Trade Value 1000USD"] ["Partner"; "Quantity"]).
Proof.
  assert (missing_columns (mkDataFrame ["Partner"; "Quantity"] [])
          = ["Quantity Unit"; "Trade Value 1000USD"]) as Hm by (vm_compute; reflexivity).
  split; [exact Hm|].
  destruct (missing_columns_fatal (C := text_only) example_fetch small_config)
    as (Hraise & _).
  destruct (Hraise (mkDataFrame ["Partner"; "Quantity"] []) ["China"] ["China"])
    as [H1 H2]; [rewrite Hm; discriminate|].
  rewrite Hm in H1, H2. split; [exact H1 | exact H2].
Defined.

(** C4 as amended, on a row in pounds put between the rows of the worked
    example. *)
Lemma non_kg_rows_witness :
  is_kg_row (C := text_only) pound_row = false
  /\ get_rest_of_world_sum (C := text_only)
       (sheet_of [example_row "China" 100 "Kg" 50; pound_row; example_row "Japan" 10 "KG" 5])
       ["China"]
     = get_rest_of_world_sum (C := text_only)
         (sheet_of [example_row "China" 100 "Kg" 50; example_row "Japan" 10 "KG" 5])
         ["China"]
  /\ get_qty_and_value_sums_for_partners (C := text_only)
       (sheet_of [example_row "China" 100 "Kg" 50; pound_row; example_row "Japan" 10 "KG" 5])
       ["Japan"]
     = get_qty_and_value_sums_for_partners (C := text_only)
         (sheet_of [example_row "China" 100 "Kg" 50; example_row "Japan" 10 "KG" 5])
         ["Japan"].
Proof.
  assert (is_kg_row (C := text_only) pound_row = false) as Hr by (vm_compute; reflexivity).
  split; [exact Hr|].
  destruct (non_kg_rows_dropped (C := text_only) example_fetch small_config) as (Hrow & _).
  destruct (Hrow ["Reporter"; "Partner"; "Quantity"; "Quantity Unit"; "Trade Value 1000USD"]
              [example_row "China" 100 "Kg" 50] [example_row "Japan" 10 "KG" 5]
              pound_row ["Japan"] ["China"] Hr) as [H1 H2].
  split; [exact H2 | exact H1].
Defined.

(** C4 as worded fails: a row whose unit is " kg ", with blanks around
    it, has a unit that is not equal to "kg" whatever the case, and yet
    it is summed by both aggregations: with it the sums are 10 and 5,
    without it they are 0 and 0. *)
Lemma untrimmed_unit_counterexample :
  unit_equals_kg_ignoring_case (C := text_only) padded_row = false
  /\ get_rest_of_world_sum (C := text_only) (sheet_of [padded_row]) []
     = Ok (float_of_Z 10, float_of_Z 5)
  /\ get_rest_of_world_sum (C := text_only) (sheet_of []) []
     = Ok (float_of_Z 0, float_of_Z 0)
  /\ get_qty_and_value_sums_for_partners (C := text_only) (sheet_of [padded_row]) ["Japan"]
     = Ok [("Japan", (float_of_Z 10, float_of_Z 5))]
  /\ get_qty_and_value_sums_for_partners (C := text_only) (sheet_of []) ["Japan"]
     = Ok [("Japan", (float_of_Z 0, float_of_Z 0))].
Proof. repeat split; vm_compute; reflexivity. Qed.

(** * Further properties of the code *)

(** ** Flow codes *)

(** X1.  [inverse_flow] always changes the label of a flow; it is its own
    inverse exactly on the two flow codes "I" and "E"; every string other
    than "I", a string that is no flow code too, is sent to "I" and
    labelled "Export". *)
Theorem inverse_flow_swaps_labels (flow : string) :
  flow_label (inverse_flow flow) <> flow_label flow
  /\ (inverse_flow (inverse_flow flow) = flow <-> flow = "I" \/ flow = "E")
  /\ (flow <> "I" -> inverse_flow flow = "I")
  /\ (flow <> "I" -> flow_label flow = "Export").
Proof.
  unfold inverse_flow, flow_label.
  destruct (String.eqb_spec flow "I") as [->|Hne]; simpl.
  - split; [done|]. split; [|done]. split; [by left | done].
  - split; [done|]. split; [|done]. split.
    + intros <-. by right.
    + intros [->| ->]; done.
Qed.

(** ** Request URLs and cache file names *)

Lemma has_char_app (c : ascii) (a b : string) :
  has_char c (a +:+ b) = has_char c a || has_char c b.
Proof.
  induction a as [|x a IH]; simpl; [done|]. by rewrite IH, orb_assoc.
Qed.

Lemma string_app_inv_head (p a b : string) : p +:+ a = p +:+ b -> a = b.
Proof. induction p as [|x p IH]; simpl; [done|]. intros H. apply IH. by inversion H. Qed.

Lemma string_app_length (a b : string) :
  String.length (a +:+ b) = (String.length a + String.length b)%nat.
Proof. induction a as [|x a IH]; simpl; [done|]. by rewrite IH. Qed.

Lemma string_app_inv_tail (a b s : string) : a +:+ s = b +:+ s -> a = b.
Proof.
  revert b; induction a as [|x a IH]; intros [|y b] H.
  - done.
  - apply (f_equal String.length) in H. rewrite !string_app_length in H.
    cbn in H. lia.
  - apply (f_equal String.length) in H. rewrite !string_app_length in H.
    cbn in H. lia.
  - cbn in H. inversion H; subst. f_equal. by apply IH.
Qed.

(** Two strings without [c] that are followed by [c] end at the same place. *)
Lemma string_split_at (c : ascii) (a a' b b' : string) :
  has_char c a = false -> has_char c a' = false ->
  a +:+ String c b = a' +:+ String c b' -> a = a' /\ b = b'.
Proof.
  revert a'; induction a as [|x a IH]; intros [|y a'] Ha Ha' H; simpl in *.
  - by inversion H.
  - inversion H; subst. by rewrite Ascii.eqb_refl in Ha'.
  - inversion H; subst. by rewrite Ascii.eqb_refl in Ha.
  - inversion H; subst. apply orb_false_elim in Ha as [_ Ha], Ha' as [_ Ha'].
    destruct (IH a' Ha Ha' H2) as [-> ->]. done.
Qed.

Lemma pretty_N_go_no_char (c : ascii) (x : N) (s : string) :
  (forall d, pretty_N_char d <> c) ->
  has_char c (pretty_N_go x s) = has_char c s.
Proof.
  intros Hc. revert s. induction (N.lt_wf_0 x) as [x _ IH]; intros s.
  assert (x = 0 \/ 0 < x)%N as [->|Hx] by lia.
  - by rewrite pretty_N_go_0.
  - rewrite pretty_N_go_step by done. rewrite IH by (by apply N.div_lt).
    cbn [has_char].
    destruct (Ascii.eqb_spec (pretty_N_char (x `mod` 10)) c) as [Heq|_]; [|done].
    by destruct (Hc _ Heq).
Qed.

(** The decimal writing of an integer holds digits and the sign only. *)
Lemma pretty_Z_no_char (c : ascii) (z : Z) :
  (forall d, pretty_N_char d <> c) -> c <> "-"%char ->
  has_char c (pretty z) = false.
Proof.
  intros Hc Hdash.
  assert (forall p : positive, has_char c (pretty p) = false) as Hpos.
  { intros p. unfold pretty, pretty_positive, pretty, pretty_N.
    destruct (decide (N.pos p = 0%N)) as [e|_]; [discriminate e|].
    by rewrite pretty_N_go_no_char. }
  assert (has_char c "0" = false) as H0.
  { cbn [has_char]. destruct (Ascii.eqb_spec "0"%char c) as [Heq|_]; [|done].
    by destruct (Hc 0%N). }
  destruct z as [|p|p]; unfold pretty, pretty_Z; [done|apply Hpos|].
  change (has_char c (String "-" (pretty p)) = false). cbn [has_char].
  rewrite Hpos. destruct (Ascii.eqb_spec "-"%char c) as [Heq|_]; [|done].
  by destruct Hdash.
Qed.

Lemma pretty_Z_no_underscore (z : Z) : has_char "_" (pretty z) = false.
Proof.
  apply pretty_Z_no_char; [|done]. intros d. unfold pretty_N_char.
  by repeat case_match.
Qed.

Lemma pretty_Z_no_ampersand (z : Z) : has_char "&" (pretty z) = false.
Proof.
  apply pretty_Z_no_char; [|done]. intros d. unfold pretty_N_char.
  by repeat case_match.
Qed.

(** X2.  The cache file name tells the four values it was made from:
    for reporter codes and flows that hold no underscore, two requests
    have the same cache file name exactly when they agree on reporter,
    year, flow and product. *)
Theorem cache_file_name_inj (c c' : string) (y y' : Z) (f f' p p' : string) :
  has_char "_" c = false -> has_char "_" c' = false ->
  has_char "_" f = false -> has_char "_" f' = false ->
  cache_file_name c y f p = cache_file_name c' y' f' p'
  <-> c = c' /\ y = y' /\ f = f' /\ p = p'.
Proof.
  intros Hc Hc' Hf Hf'. split; [|by intros (-> & -> & -> & ->)].
  intros H. unfold cache_file_name in H.
  apply (string_app_inv_head "wits_") in H.
  apply (string_split_at "_") in H as [-> H]; [|done|done].
  apply (string_split_at "_") in H as [Hy H]; [|apply pretty_Z_no_underscore..].
  apply (inj pretty) in Hy as ->.
  apply (string_split_at "_") in H as [-> H]; [|done|done].
  apply string_app_inv_tail in H as ->. done.
Qed.

(** X3.  The request URL tells the four values it was made from: for
    reporter codes and flows that hold no ampersand, two requests have
    the same URL exactly when they agree on reporter, year, flow and
    product. *)
Theorem build_url_inj (c c' : string) (y y' : Z) (f f' p p' : string) :
  has_char "&" c = false -> has_char "&" c' = false ->
  has_char "&" f = false -> has_char "&" f' = false ->
  build_url c y f p = build_url c' y' f' p'
  <-> c = c' /\ y = y' /\ f = f' /\ p = p'.
Proof.
  intros Hc Hc' Hf Hf'. split; [|by intros (-> & -> & -> & ->)].
  intros H. unfold build_url in H. cbv zeta in H.
  apply (string_app_inv_head BASE_URL) in H.
  apply (string_app_inv_head "?") in H.
  apply (string_app_inv_head "Reporter=") in H.
  change ("&Year=" +:+ ?x) with (String "&" ("Year=" +:+ x)) in H.
  apply (string_split_at "&") in H as [-> H]; [|done|done].
  apply (string_app_inv_head "Year=") in H.
  change ("&Tradeflow=" +:+ ?x) with (String "&" ("Tradeflow=" +:+ x)) in H.
  apply (string_split_at "&") in H as [Hy H]; [|apply pretty_Z_no_ampersand..].
  apply (inj pretty) in Hy as ->.
  apply (string_app_inv_head "Tradeflow=") in H.
  change ("&Partner=ALL&product=" +:+ ?x)
    with (String "&" ("Partner=ALL&product=" +:+ x)) in H.
  apply (string_split_at "&") in H as [-> H]; [|done|done].
  apply (string_app_inv_head "Partner=ALL&product=") in H.
  apply string_app_inv_tail in H as ->. done.
Qed.

(** ** The cache *)

Lemma foldIO_pure {net A S : Type} (f : S -> A -> io net S) (g : S -> A -> result S)
    (l : list A) (s : S) (w : gmap string string * net) :
  (forall t x, f t x w = (g t x, w)) -> foldIO f l s w = (foldM g l s, w).
Proof.
  intros H. revert s; induction l as [|x l IH]; intros s; simpl; [done|].
  rewrite H. destruct (g s x) as [s'|e]; simpl; [apply IH | done].
Qed.

Lemma foldIO_replays {net net' A S : Type} (f : S -> A -> io net S)
    (f' : S -> A -> io net' S) (l : list A) (s : S) :
  (forall t x, replays (f t x) (f' t x)) -> replays (foldIO f l s) (foldIO f' l s).
Proof.
  intros H. revert s; induction l as [|x l IH]; intros s w a w' Hrun; simpl in Hrun.
  - inversion Hrun; subst. split; [done|]. by intros w'' _.
  - destruct (f s x w) as [[s1|e] w1] eqn:Hstep; [|done].
    destruct (H s x w s1 w1 Hstep) as [Hsub Hre].
    destruct (IH s1 w1 a w' Hrun) as [Hsub' Hre'].
    split; [by etrans|]. intros w'' Hw''. simpl.
    rewrite Hre by (by etrans). by apply Hre'.
Qed.

Lemma foldIO_files {net A S : Type} (R : relation (gmap string string))
    `{!Reflexive R, !Transitive R} (f : S -> A -> io net S) (l : list A) (s : S)
    (w : gmap string string * net) :
  (forall t x v, R v.1 (f t x v).2.1) -> R w.1 (foldIO f l s w).2.1.
Proof.
  intros H. revert s w; induction l as [|x l IH]; intros s w; simpl; [done|].
  specialize (H s x w). destruct (f s x w) as [[s1|e] w1]; simpl in H; [|done].
  etrans; [exact H | apply IH].
Qed.

Section FetcherFacts.

Context `{C : Conversions} {net : Type}.

Variable download : string -> net -> result string * net.
Variable read_by_hs6product_sheet : string -> result DataFrame.

(** X4.  With the cache in use, a fetch never changes or removes a file
    of the cache: every file is kept with its contents, only the file of
    the request may be added, a successful fetch leaves its bytes in that
    file, a failed download leaves the cache as it was, and a request
    whose file is there does not reach the network. *)
Theorem fetch_keeps_cache (files : gmap string string) (n : net)
    (c : string) (y : Z) (f p : string) :
  let out := fetch_excel_bytes download true c y f p (files, n) in
  (forall name b, files !! name = Some b -> out.2.1 !! name = Some b)
  /\ (forall name, name <> cache_file_name c y f p -> out.2.1 !! name = files !! name)
  /\ (forall b, out.1 = Ok b -> out.2.1 !! cache_file_name c y f p = Some b)
  /\ (forall e, out.1 = Raise e ->
        out.2.1 = files /\ files !! cache_file_name c y f p = None
        /\ (download (build_url c y f p) n).1 = Raise e)
  /\ (forall b, files !! cache_file_name c y f p = Some b -> out = (Ok b, (files, n))).
Proof.
  unfold fetch_excel_bytes. cbv zeta.
  destruct (files !! cache_file_name c y f p) as [b0|] eqn:Hhit; cbn [fst snd].
  - split; [done|]. split; [done|]. split; [|split; [done|]].
    + intros b Hb. by inversion Hb; subst.
    + intros b Hb. by inversion Hb; subst.
  - destruct (download (build_url c y f p) n) as [[b1|e1] n1]; cbn [fst snd].
    + split; [|split; [|split; [|done]]].
      * intros name b Hb. rewrite lookup_insert_ne; [done|]. intros <-.
        by rewrite Hhit in Hb.
      * intros name Hne. by rewrite lookup_insert_ne.
      * intros b Hb. inversion Hb; subst. by rewrite lookup_insert_eq.
    + split; [done|]. split; [done|]. split; [done|]. split; [|done].
      intros e He. by inversion He; subst.
Qed.

Lemma fetch_replays {net' : Type} (download' : string -> net' -> result string * net')
    (c : string) (y : Z) (f p : string) :
  replays (fetch_excel_bytes download true c y f p)
          (fetch_excel_bytes download' true c y f p).
Proof.
  intros [files n] b [files' n'] Hrun. unfold fetch_excel_bytes in Hrun. cbv zeta in Hrun.
  assert (files ⊆ files' /\ files' !! cache_file_name c y f p = Some b) as [Hsub Hb].
  { destruct (files !! cache_file_name c y f p) as [b0|] eqn:Hhit.
    - by inversion Hrun; subst.
    - destruct (download (build_url c y f p) n) as [[b1|e1] n1]; [|done].
      inversion Hrun; subst. split; [by apply insert_subseteq|]. by rewrite lookup_insert_eq. }
  split; [done|]. intros [files'' n''] Hsub''. simpl in Hsub''.
  unfold fetch_excel_bytes. cbv zeta.
  by rewrite (lookup_weaken _ _ _ _ Hb Hsub'').
Qed.

Lemma product_step_io_replays {net' : Type}
    (download' : string -> net' -> result string * net') (cfg : Config)
    (R c : string) (Y : Z) (F : string) (st : accs) (p : string) :
  replays (product_step_io download read_by_hs6product_sheet true cfg R c Y F st p)
          (product_step_io download' read_by_hs6product_sheet true cfg R c Y F st p).
Proof.
  intros w a w' Hrun. unfold product_step_io in Hrun.
  destruct (fetch_excel_bytes download true c Y F p w) as [[b|e] w1] eqn:Hfetch; [|done].
  inversion Hrun as [[Hstep Hw]]. subst w1.
  destruct (fetch_replays download' c Y F p w b w' Hfetch) as [Hsub Hre].
  split; [done|]. intros w'' Hsub''. unfold product_step_io.
  by rewrite (Hre w'' Hsub'').
Qed.

Lemma main_loop_replays {net' : Type}
    (download' : string -> net' -> result string * net') (cfg : Config) :
  replays (main_loop download read_by_hs6product_sheet true cfg)
          (main_loop download' read_by_hs6product_sheet true cfg).
Proof.
  unfold main_loop.
  apply foldIO_replays. intros st [R c].
  apply foldIO_replays. intros st1 Y.
  apply foldIO_replays. intros st2 F.
  apply foldIO_replays. intros st3 p.
  apply product_step_io_replays.
Qed.

Lemma main_loop_offline (cfg : Config) (w : gmap string string * net) :
  main_loop no_network read_by_hs6product_sheet true cfg w
  = (main_aggregation (cached_sheet read_by_hs6product_sheet w.1) cfg, w).
Proof.
  unfold main_loop, main_aggregation.
  apply foldIO_pure. intros st [R c].
  apply foldIO_pure. intros st1 Y.
  apply foldIO_pure. intros st2 F.
  apply foldIO_pure. intros st3 p.
  unfold product_step_io, fetch_excel_bytes, product_step, cached_sheet, no_network.
  destruct w as [files n]. cbv zeta. cbn [fst].
  by destruct (files !! cache_file_name c Y F p).
Qed.

(** X5.  A run of the main loop that ends well can be repeated from
    its cache: it removes no file, and every later run from files that
    hold the ones it left ends in the same accumulators whatever the
    network answers then, without a request and without writing a file.
    The accumulators are those of the aggregation over the sheets read
    from the cache files alone. *)
Theorem main_loop_repeatable (cfg : Config) (w w' : gmap string string * net) (st : accs) :
  main_loop download read_by_hs6product_sheet true cfg w = (Ok st, w') ->
  w.1 ⊆ w'.1
  /\ (forall (net' : Type) (download' : string -> net' -> result string * net')
             (w'' : gmap string string * net'),
        w'.1 ⊆ w''.1 ->
        main_loop download' read_by_hs6product_sheet true cfg w'' = (Ok st, w''))
  /\ main_aggregation (cached_sheet read_by_hs6product_sheet w'.1) cfg = Ok st.
Proof.
  intros Hrun. split; [|split].
  - by destruct (main_loop_replays download cfg w st w' Hrun).
  - intros net' download' w'' Hsub.
    by destruct (main_loop_replays download' cfg w st w' Hrun) as [_ ->].
  - destruct (main_loop_replays (@no_network net) cfg w st w' Hrun) as [_ Hre].
    specialize (Hre w' (reflexivity _)). rewrite main_loop_offline in Hre.
    by inversion Hre.
Qed.

(** X6.  However the main loop ends, and whether the cache is in use
    or not, it removes or changes no file of the cache directory; with
    the cache switched off it adds none either. *)
Theorem main_loop_keeps_files (USE_CACHE : bool) (cfg : Config)
    (w : gmap string string * net) :
  let w' := (main_loop download read_by_hs6product_sheet USE_CACHE cfg w).2 in
  w.1 ⊆ w'.1 /\ (USE_CACHE = false -> w'.1 = w.1).
Proof.
  cbv zeta. split.
  - unfold main_loop.
    apply (foldIO_files (⊆)). intros st [R c] v.
    apply (foldIO_files (⊆)). intros st1 Y v1.
    apply (foldIO_files (⊆)). intros st2 F v2.
    apply (foldIO_files (⊆)). intros st3 p [files n].
    unfold product_step_io, fetch_excel_bytes. cbv zeta.
    destruct USE_CACHE; cbn [fst snd].
    + destruct (files !! cache_file_name c Y F p) as [b0|] eqn:Hhit; [done|].
      destruct (download (build_url c Y F p) n) as [[b|e] n1]; [|done].
      by apply insert_subseteq.
    + by destruct (download (build_url c Y F p) n) as [[b|e] n1].
  - intros ->. symmetry. unfold main_loop.
    apply (foldIO_files (=)). intros st [R c] v.
    apply (foldIO_files (=)). intros st1 Y v1.
    apply (foldIO_files (=)). intros st2 F v2.
    apply (foldIO_files (=)). intros st3 p [files n].
    unfold product_step_io, fetch_excel_bytes. cbv zeta.
    by destruct (download (build_url c Y F p) n) as [[b|e] n1].
Qed.

End FetcherFacts.

(** ** The prepared frame *)

Lemma str_rstrip_idem (s : string) : str_rstrip (str_rstrip s) = str_rstrip s.
Proof.
  induction s as [|a s IH]; [done|]. cbn [str_rstrip].
  destruct (str_rstrip s) as [|b t] eqn:E.
  - destruct (is_space a) eqn:Ha; [done|]. cbn [str_rstrip]. by rewrite Ha.
  - cbn [str_rstrip]. cbn [str_rstrip] in IH. by rewrite IH.
Qed.

Lemma str_rstrip_head (a : ascii) (s : string) :
  is_space a = false -> exists t, str_rstrip (String a s) = String a t.
Proof.
  intros Ha. cbn [str_rstrip]. destruct (str_rstrip s) as [|b t].
  - rewrite Ha. by eexists.
  - by eexists.
Qed.

Lemma str_lstrip_head (s : string) :
  str_lstrip s = "" \/ exists a t, str_lstrip s = String a t /\ is_space a = false.
Proof.
  induction s as [|a s IH]; [by left|]. cbn [str_lstrip].
  destruct (is_space a) eqn:Ha; [done|]. right. by exists a, s.
Qed.

(** A trimmed text has no blank left to trim. *)
Lemma str_strip_idem (s : string) : str_strip (str_strip s) = str_strip s.
Proof.
  unfold str_strip. destruct (str_lstrip_head s) as [->|(a & t & -> & Ha)]; [done|].
  destruct (str_rstrip_head a t Ha) as [t' Ht']. rewrite Ht'.
  cbn [str_lstrip]. rewrite Ha, <- Ht'. apply str_rstrip_idem.
Qed.

Section AggregatorFacts.

Context `{C : Conversions}.

Lemma cell_label_trimmed (c : cell) (p : string) :
  cell_label c = Some p -> str_strip p = p.
Proof.
  unfold cell_label. destruct (astype_str c); try done.
  intros [= <-]. apply str_strip_idem.
Qed.

Lemma cell_label_None (c : cell) :
  cell_label c = None -> exists x, c = CFloat x /\ float_repr x = None.
Proof.
  unfold cell_label, astype_str. destruct c as [s|z|x|z]; try done.
  destruct (float_repr x) eqn:E; [done|]. by exists x.
Qed.

Lemma to_numeric_ints (s : list cell) :
  forallb num_is_int (map to_num s) = true -> existsb cell_wide s = false ->
  forallb in_int64 (map num_int (map to_num s)) = true.
Proof.
  induction s as [|c s IH]; simpl; [done|].
  intros [Hc Hs]%andb_true_iff [Hw Hws]%orb_false_iff.
  rewrite (IH Hs Hws), andb_true_r. unfold cell_wide in Hw.
  destruct c as [t|z|x|z]; simpl in *; try done.
  - destruct (parse_number t); [by apply negb_false_iff in Hw | done].
  - by apply negb_false_iff in Hw.
Qed.

Lemma fillna_ints (zs : list Z) : fillna (map CInt zs) = map CInt zs.
Proof. unfold fillna. by rewrite map_map. Qed.

Lemma fillna_wides (zs : list Z) : fillna (map CWide zs) = map CWide zs.
Proof. unfold fillna. by rewrite map_map. Qed.

Lemma fillna_floats (xs : list float) :
  fillna (map CFloat xs)
  = map CFloat (map (fun x => if is_nan x then float_of_Z 0 else x) xs).
Proof.
  unfold fillna. rewrite !map_map. apply map_ext. intros x.
  unfold fillna_cell. by destruct (is_nan x).
Qed.

(** A prepared figure column is of one type: integers of 64 bits, other
    integers, or floats, none a NaN. *)
Lemma prepared_column_typed (s : list cell) :
  (exists zs, fillna (to_numeric s) = map CInt zs /\ forallb in_int64 zs = true)
  \/ (exists zs, fillna (to_numeric s) = map CWide zs)
  \/ (exists xs, fillna (to_numeric s) = map CFloat xs
                 /\ forallb (fun x => negb (is_nan x)) xs = true).
Proof.
  unfold to_numeric. cbv zeta.
  destruct (forallb num_is_int (map to_num s)) eqn:Hint.
  - destruct (existsb cell_wide s) eqn:Hwide.
    + right; left. exists (map num_int (map to_num s)).
      by rewrite <- fillna_wides, (map_map num_int CWide).
    + left. exists (map num_int (map to_num s)).
      rewrite <- fillna_ints, (map_map num_int CInt). split; [done|].
      by apply to_numeric_ints.
  - right; right. eexists. rewrite <- (map_map num_float CFloat), fillna_floats.
    split; [done|]. rewrite forallb_forall. intros x Hx.
    apply in_map_iff in Hx as (y & <- & _).
    by destruct (is_nan y) eqn:E; [|rewrite E].
Qed.

Lemma prepared_column_figures (s : list cell) (c : cell) :
  c ∈ fillna (to_numeric s) -> is_figure c = true.
Proof.
  destruct (prepared_column_typed s) as [(zs & -> & _)|[(zs & ->)|(xs & -> & Hxs)]];
    intros (y & -> & Hy)%list_elem_of_fmap; [done..|].
  simpl. rewrite forallb_forall in Hxs. by apply Hxs, list_elem_of_In.
Qed.

(** X7.  The prepared frame: when the preparation returns, the frame has
    the columns of the sheet and no more rows than it; every row of it
    comes from a row of the sheet and has as partner a trimmed text, or
    a missing value where the cell of the sheet is a float of which
    [.astype(str)] makes no text; its unit is a trimmed text that is "kg"
    up to case; its quantity and its value are numbers, never NaN; its
    cells in all other columns are those of the sheet's row.  Each of the
    two figure columns is of one type: integers of 64 bits, other
    integers, or floats. *)
Theorem prepared_frame_invariants (df d : DataFrame) :
  _prep_kg_rows df = Ok d ->
  columns d = columns df
  /\ (length (rows d) <= length (rows df))%nat
  /\ (forall r, r ∈ rows d ->
        exists r0 u,
          r0 ∈ rows df
          /\ ((exists p, row_get "Partner" r = CStr p /\ str_strip p = p)
              \/ (row_get "Partner" r = CFloat NaN
                  /\ exists x, row_get "Partner" r0 = CFloat x /\ float_repr x = None))
          /\ row_get "Quantity Unit" r = CStr u /\ str_strip u = u
          /\ str_lower u = "kg"
          /\ is_figure (row_get "Quantity" r) = true
          /\ is_figure (row_get "Trade Value 1000USD" r) = true
          /\ (forall c, c ∉ required -> r !! c = r0 !! c))
  /\ (forall c, c = "Quantity" \/ c = "Trade Value 1000USD" ->
        (exists zs, get_col c d = map CInt zs /\ forallb in_int64 zs = true)
        \/ (exists zs, get_col c d = map CWide zs)
        \/ (exists xs, get_col c d = map CFloat xs
                       /\ forallb (fun x => negb (is_nan x)) xs = true)).
Proof.
  intros H. apply prep_kg_rows_Ok in H as [_ ->]. cbn [columns rows].
  split; [done|]. split; [|split].
  - rewrite length_map, <- (length_map fst), prepared_fst. apply filter_length_le.
  - intros r Hr. apply list_elem_of_fmap in Hr as (x & -> & Hx).
    assert (x.1 ∈ kg_rows df) as Hkg.
    { rewrite <- prepared_fst. apply list_elem_of_fmap. by exists x. }
    apply kg_rows_elem in Hkg as (Hrow & u & Hu & Hkg).
    exists x.1, u. split; [done|]. split; [|split; [|split; [|split; [done|]]]].
    + rewrite prepared_row_partner. unfold partner_label.
      destruct (cell_label (row_get "Partner" x.1)) as [p|] eqn:Hp; simpl.
      * left. exists p. split; [done|]. by apply (cell_label_trimmed _ _ Hp).
      * right. split; [done|]. by apply cell_label_None.
    + by rewrite prepared_row_unit, Hu.
    + by apply (cell_label_trimmed _ _ Hu).
    + split; [|split].
      * rewrite prepared_row_quantity.
        apply (prepared_column_figures (map (row_get "Quantity") (kg_rows df))).
        fold (prepared_column "Quantity" df). rewrite <- prepared_quantity.
        apply list_elem_of_fmap. by exists x.
      * rewrite prepared_row_value.
        apply (prepared_column_figures
                 (map (row_get "Trade Value 1000USD") (kg_rows df))).
        fold (prepared_column "Trade Value 1000USD" df). rewrite <- prepared_value.
        apply list_elem_of_fmap. by exists x.
      * intros c Hc. by apply prepared_row_other.
  - intros c [-> | ->]; unfold get_col; cbn [rows]; rewrite map_map.
    + rewrite (map_ext _ (fun x => x.2.1)) by apply prepared_row_quantity.
      rewrite prepared_quantity. apply prepared_column_typed.
    + rewrite (map_ext _ (fun x => x.2.2)) by apply prepared_row_value.
      rewrite prepared_value. apply prepared_column_typed.
Qed.

End AggregatorFacts.

(** ** Which rows reach which sum *)

(** Dictionaries with the same keys in the same order, and the same
    values but under the key [k], are equal once [k] is overwritten. *)
Lemma dict_set_same_but {V : Type} (k p : string) (v v' : V) (d d' : list (string * V)) :
  Forall2 (fun x y => x.1 = y.1 /\ (x.1 <> k -> x.2 = y.2)) d d' ->
  (p = k \/ v = v') ->
  Forall2 (fun x y => x.1 = y.1 /\ (x.1 <> k -> x.2 = y.2))
          (dict_set p v d) (dict_set p v' d').
Proof.
  intros HR Hv. induction HR as [|[k1 v1] [k2 v2] d d' [Hk Hval] HR IH]; simpl in *.
  - constructor; [|constructor]. simpl. split; [done|]. intros Hne. by destruct Hv.
  - subst k2. destruct (String.eqb_spec k1 p) as [->|Hne].
    + constructor; [|done]. simpl. split; [done|]. intros Hne. by destruct Hv.
    + constructor; [|done]. by simpl.
Qed.

Lemma same_but_absent {V : Type} (k : string) (d d' : list (string * V)) :
  Forall2 (fun x y => x.1 = y.1 /\ (x.1 <> k -> x.2 = y.2)) d d' ->
  k ∉ d.*1 -> d = d'.
Proof.
  intros HR. induction HR as [|[k1 v1] [k2 v2] d d' [Hk Hval] HR IH]; simpl in *; [done|].
  intros Hn. apply not_elem_of_cons in Hn as [Hne Hn]. subst k2.
  rewrite Hval by done. f_equal. by apply IH.
Qed.

Lemma dict_set_overwrite {V : Type} (k : string) (v : V) (d d' : list (string * V)) :
  Forall2 (fun x y => x.1 = y.1 /\ (x.1 <> k -> x.2 = y.2)) d d' ->
  NoDup d.*1 ->
  dict_set k v d = dict_set k v d'.
Proof.
  intros HR. induction HR as [|[k1 v1] [k2 v2] d d' [Hk Hval] HR IH]; simpl in *; [done|].
  intros Hnd. apply NoDup_cons in Hnd as [Hk1 Hnd]. subst k2.
  destruct (String.eqb_spec k1 k) as [->|Hne].
  - f_equal. by apply (same_but_absent k).
  - rewrite Hval by done. f_equal. by apply IH.
Qed.

Lemma sums_fold_same_but (k : string) (h h' : string -> float * float)
    (partners : list string) (out0 out0' : list (string * (float * float))) :
  Forall2 (fun x y => x.1 = y.1 /\ (x.1 <> k -> x.2 = y.2)) out0 out0' ->
  (forall p, p ∈ partners -> p = k \/ h p = h' p) ->
  Forall2 (fun x y => x.1 = y.1 /\ (x.1 <> k -> x.2 = y.2))
    (fold_left (fun out p => dict_set p (h p) out) partners out0)
    (fold_left (fun out p => dict_set p (h' p) out) partners out0').
Proof.
  revert out0 out0'. induction partners as [|p ps IH]; intros out0 out0' HR Hh;
    cbn [fold_left]; [done|].
  apply IH.
  - apply dict_set_same_but; [done|]. apply Hh. by left.
  - intros q Hq. apply Hh. by right.
Qed.

Lemma zip_map_same {A B D : Type} (f : A -> B) (g : A -> D) (l : list A) :
  zip l (zip (map f l) (map g l)) = map (fun r => (r, (f r, g r))) l.
Proof. induction l as [|x l IH]; simpl; [done|]. by rewrite IH. Qed.

Section CountingFacts.

Context `{C : Conversions}.

Lemma partners_excluded (cfg : Config) (p : string) :
  p ∈ PARTNERS cfg -> p ∈ EXCLUDE_FOR_ROW cfg.
Proof.
  unfold PARTNERS, EXCLUDE_FOR_ROW. rewrite !elem_of_app, !elem_of_cons. tauto.
Qed.

Lemma prepared_elem (df : DataFrame) (x : gmap string cell * (cell * cell)) :
  x ∈ prepared df -> x.1 ∈ rows df /\ is_kg_row x.1 = true.
Proof.
  intros Hx. apply elem_of_List_filter. fold (kg_rows df).
  rewrite <- prepared_fst. apply list_elem_of_fmap. by exists x.
Qed.

(** X8.  No row of a sheet is counted twice within a run.  The
    rest-of-world sum of the loop is taken over the prepared rows outside
    the exclusion list, the sum of a partner of the accumulators over the
    prepared rows with its label; the partner list lies inside the
    exclusion list, so a row summed under the rest of the world is summed
    under no partner; a row summed under one partner is summed under no
    other one; and every row that is summed at all is a kilogram row of
    the sheet. *)
Theorem rows_counted_once (cfg : Config) (df : DataFrame) :
  get_rest_of_world_sum df (EXCLUDE_FOR_ROW cfg) =
    (if bool_decide (missing_columns df = []) then
       Ok (series_sum (map (fun x => x.2.1)
                           (rest_of_world_rows df (EXCLUDE_FOR_ROW cfg))),
           series_sum (map (fun x => x.2.2)
                           (rest_of_world_rows df (EXCLUDE_FOR_ROW cfg))))
     else Raise (ValueError (missing_columns df) (columns df)))
  /\ (exists sums : list (string * (float * float)),
        get_qty_and_value_sums_for_partners df (PARTNERS cfg) =
          (if bool_decide (missing_columns df = []) then Ok sums
           else Raise (ValueError (missing_columns df) (columns df)))
        /\ forall p, p ∈ PARTNERS cfg ->
             dict_get p sums =
               Some (match partner_rows df p with
                     | [] => (float_of_Z 0, float_of_Z 0)
                     | m => (group_sum (map (fun x => x.2.1) m),
                             group_sum (map (fun x => x.2.2) m))
                     end))
  /\ (forall p, p ∈ PARTNERS cfg -> p ∈ EXCLUDE_FOR_ROW cfg)
  /\ (forall x p, p ∈ PARTNERS cfg ->
        ~ (x ∈ rest_of_world_rows df (EXCLUDE_FOR_ROW cfg) /\ x ∈ partner_rows df p))
  /\ (forall x p p', x ∈ partner_rows df p -> x ∈ partner_rows df p' -> p = p')
  /\ (forall x p,
        x ∈ rest_of_world_rows df (EXCLUDE_FOR_ROW cfg) \/ x ∈ partner_rows df p ->
        x.1 ∈ rows df /\ is_kg_row x.1 = true).
Proof.
  split; [apply rest_of_world_sum_eq|]. split; [|split; [apply partners_excluded|]].
  - destruct (sums_for_partners_eq df (PARTNERS cfg)) as (out & _ & Hget & Hout).
    exists out. split; [done|]. intros p Hp. rewrite Hget.
    unfold sums_for_partners_spec. by rewrite bool_decide_eq_true_2.
  - split; [|split].
    + intros x p Hp [Hr Hq]. apply partners_excluded in Hp.
      unfold rest_of_world_rows in Hr. unfold partner_rows in Hq.
      apply elem_of_List_filter in Hr as [_ Hr]. apply elem_of_List_filter in Hq as [_ Hq].
      unfold labelled in Hr, Hq. destruct (partner_label x.1) as [q|]; [|done].
      apply bool_decide_eq_true, list_elem_of_singleton in Hq. subst q.
      apply negb_true_iff, bool_decide_eq_false in Hr. done.
    + intros x p p' Hp Hp'. unfold partner_rows in *.
      apply elem_of_List_filter in Hp as [_ Hp]. apply elem_of_List_filter in Hp' as [_ Hp'].
      unfold labelled in Hp, Hp'. destruct (partner_label x.1) as [q|]; [|done].
      apply bool_decide_eq_true, list_elem_of_singleton in Hp, Hp'. congruence.
    + intros x p [Hr|Hr]; unfold rest_of_world_rows, partner_rows in Hr;
        apply elem_of_List_filter in Hr as [Hin _]; by apply prepared_elem.
Qed.

(** *** Sheets whose figure columns are typed *)

Lemma typed_column_id (s : list cell) : typed_column s = true -> to_numeric s = s.
Proof.
  unfold typed_column. intros [H|H]%orb_true_iff.
  - assert (forallb num_is_int (map to_num s) = true
            /\ existsb cell_wide s = false
            /\ map (fun n => CInt (num_int n)) (map to_num s) = s) as (H1 & H2 & H3).
    { induction s as [|c s IH]; simpl; [done|]. simpl in H.
      apply andb_true_iff in H as [Hc Hs]. destruct (IH Hs) as (H1 & H2 & H3).
      destruct c as [t|z|x|z]; try done. split; [|split].
      - simpl. exact H1.
      - simpl. rewrite Hc. simpl. exact H2.
      - simpl. by rewrite H3. }
    unfold to_numeric. cbv zeta. by rewrite H1, H2.
  - destruct s as [|c s]; [done|].
    assert (forall l, forallb (fun c => match c with CFloat _ => true | _ => false end) l
                      = true ->
                      map (fun n => CFloat (num_float n)) (map to_num l) = l) as Hmap.
    { induction l as [|c' l IH]; simpl; [done|].
      intros [Hc Hl]%andb_true_iff. destruct c' as [t|z|x|z]; try done.
      simpl. by rewrite (IH Hl). }
    unfold to_numeric. cbv zeta. simpl in H. apply andb_true_iff in H as [Hc Hs].
    destruct c as [t|z|x|z]; try done. simpl forallb. cbv iota.
    apply (Hmap (CFloat x :: s)). simpl. exact Hs.
Qed.

Lemma typed_column_filter (c : string) (f : gmap string cell -> bool)
    (l : list (gmap string cell)) :
  typed_column (map (row_get c) l) = true ->
  typed_column (map (row_get c) (List.filter f l)) = true.
Proof.
  unfold typed_column.
  intros [H|H]%orb_true_iff; apply orb_true_iff; [left | right];
    rewrite forallb_forall in *; intros x Hx;
    apply in_map_iff in Hx as (r & <- & Hr); apply filter_In in Hr as [Hr _];
    apply H, in_map_iff; by exists r.
Qed.

(** The prepared rows of a sheet with typed figure columns, row by row. *)
Lemma prepared_typed (df : DataFrame) :
  figures_typed df = true ->
  prepared df
  = map (fun r => (r, (fillna_cell (row_get "Quantity" r),
                       fillna_cell (row_get "Trade Value 1000USD" r))))
        (kg_rows df).
Proof.
  unfold figures_typed, get_col. intros [Hq Hv]%andb_true_iff.
  unfold prepared, prepared_column, kg_rows.
  rewrite !typed_column_id by (by apply typed_column_filter).
  unfold fillna. rewrite !map_map. apply zip_map_same.
Qed.

Lemma without_excluded_typed (cfg : Config) (df : DataFrame) :
  figures_typed df = true -> figures_typed (without_excluded cfg df) = true.
Proof.
  unfold figures_typed, get_col, without_excluded. cbn [rows].
  intros [Hq Hv]%andb_true_iff. apply andb_true_iff.
  split; by apply typed_column_filter.
Qed.

Lemma labelled_base (cfg : Config) (p : string) (r : gmap string cell) :
  p ∈ BASE_PARTNERS cfg -> labelled [p] r = true -> labelled (BASE_PARTNERS cfg) r = true.
Proof.
  intros Hp. unfold labelled. destruct (partner_label r) as [q|]; [|done].
  intros Hq%bool_decide_eq_true%list_elem_of_singleton. subst q.
  by apply bool_decide_eq_true_2.
Qed.

Lemma without_excluded_missing (cfg : Config) (df : DataFrame) :
  missing_columns (without_excluded cfg df) = missing_columns df.
Proof. done. Qed.

Lemma without_excluded_rest (cfg : Config) (df : DataFrame) :
  figures_typed df = true ->
  rest_of_world_rows (without_excluded cfg df) (EXCLUDE_FOR_ROW cfg)
  = rest_of_world_rows df (EXCLUDE_FOR_ROW cfg).
Proof.
  intros Ht. unfold rest_of_world_rows.
  rewrite (prepared_typed df Ht),
    (prepared_typed _ (without_excluded_typed cfg df Ht)).
  rewrite !filter_map_comm. f_equal. cbn [fst].
  unfold kg_rows, without_excluded; cbn [rows].
  rewrite !filter_filter_bool. apply filter_ext_bool. intros r.
  destruct (labelled (EXCLUDE_FOR_ROW cfg) r); simpl.
  - by rewrite !andb_false_r.
  - done.
Qed.

Lemma without_excluded_partner (cfg : Config) (df : DataFrame) (p : string) :
  figures_typed df = true -> p ∈ BASE_PARTNERS cfg ->
  partner_rows (without_excluded cfg df) p = partner_rows df p.
Proof.
  intros Ht Hp. unfold partner_rows.
  rewrite (prepared_typed df Ht),
    (prepared_typed _ (without_excluded_typed cfg df Ht)).
  rewrite !filter_map_comm. f_equal. cbn [fst].
  unfold kg_rows, without_excluded; cbn [rows].
  rewrite !filter_filter_bool. apply filter_ext_bool. intros r.
  destruct (labelled [p] r) eqn:E.
  - rewrite (labelled_base cfg p r Hp E). simpl. by rewrite andb_false_r.
  - by rewrite !andb_false_r.
Qed.

Lemma product_step_without_excluded (fetch : string -> Z -> string -> string -> result DataFrame)
    (cfg : Config) (R c : string) (Y : Z) (F : string) (st : accs) (p : string) :
  (forall df, fetch c Y F p = Ok df -> figures_typed df = true) ->
  product_step
    (fun c y f p => df ← fetch c y f p; Ok (without_excluded cfg df)) cfg R c Y F st p
  = product_step fetch cfg R c Y F st p.
Proof.
  intros Htyped. unfold product_step. destruct (fetch c Y F p) as [df|e]; [|done].
  specialize (Htyped df eq_refl).
  cbn [mbind result_bind].
  rewrite !sums_for_partners_fold, !rest_of_world_sum_eq, without_excluded_missing.
  case_bool_decide; [|done]. cbn [mbind result_bind].
  unfold rest_of_world_spec. rewrite (without_excluded_rest cfg df Htyped).
  f_equal. apply dict_set_overwrite.
  - apply sums_fold_same_but; [constructor|]. intros q Hq.
    unfold PARTNERS in Hq. apply elem_of_app in Hq as [Hq|Hq].
    + right. unfold partner_sum_spec. by rewrite without_excluded_partner.
    + left. by apply list_elem_of_singleton in Hq.
  - by apply (sums_dict_fold _ _ []); [constructor].
Qed.

(** X9.  On sheets whose quantity and value columns are [int64] or
    [float64] columns (every cell an integer of 64 bits, or every cell a
    float), the rows a sheet files under "World", under the European
    Union or under one of its member states reach no accumulator, unless
    the label is also a base partner: the run over the frames without
    these rows, the columns keeping their types, ends in the same
    accumulators, or in the same exception.  In particular the
    reporter's own "World" total is computed per sheet and then
    overwritten by the rest-of-world sum. *)
Theorem excluded_rows_ignored (fetch : string -> Z -> string -> string -> result DataFrame)
    (cfg : Config) :
  (forall c y f p df, fetch c y f p = Ok df -> figures_typed df = true) ->
  main_aggregation
    (fun c y f p => df ← fetch c y f p; Ok (without_excluded cfg df)) cfg
  = main_aggregation fetch cfg.
Proof.
  intros Htyped. unfold main_aggregation.
  apply foldM_ext. intros st [R c].
  apply foldM_ext. intros st1 Y.
  apply foldM_ext. intros st2 F.
  apply foldM_ext. intros st3 p.
  apply product_step_without_excluded. intros df. apply Htyped.
Qed.

End CountingFacts.

(** ** When the run ends well *)

Section RunFacts.

Context `{C : Conversions}.

Variable fetch : string -> Z -> string -> string -> result DataFrame.
Variable cfg : Config.

(** X10.  The aggregation ends well exactly when every sheet of the
    configuration (reporter, year, flow, product) is fetched and read and
    has the four columns: with such sheets no key is ever missing from
    the accumulators, whatever the rows hold. *)
Theorem aggregation_succeeds_iff :
  (exists st, main_aggregation fetch cfg = Ok st) <->
  (forall R c Y F p,
     (R, c) ∈ REPORTERS cfg -> Y ∈ YEARS cfg -> F ∈ FLOWS cfg -> p ∈ PRODUCTS cfg ->
     exists df, fetch c Y F p = Ok df /\ missing_columns df = []).
Proof.
  split.
  - intros [st Hst] R c Y F p HR HY HF Hp.
    by apply (main_aggregation_each fetch cfg st R c Y F p).
  - apply main_aggregation_total.
Qed.

(** X11.  After the run both accumulators have exactly the keys they
    were created with, one for every reporter, partner (the base partners
    and "World"), year and flow of the configuration: the loop adds to
    entries, it never makes or drops one. *)
Theorem accumulators_keep_keys (st : accs) (R P : string) (Y : Z) (F : string) :
  main_aggregation fetch cfg = Ok st ->
  (is_Some (st.1 !! (R, P, Y, F)) <-> is_Some (st.2 !! (R, P, Y, F)))
  /\ (is_Some (st.1 !! (R, P, Y, F)) <->
        R ∈ (REPORTERS cfg).*1 /\ (P ∈ BASE_PARTNERS cfg \/ P = "World")
        /\ Y ∈ YEARS cfg /\ F ∈ FLOWS cfg).
Proof.
  intros Hst. apply main_aggregation_inv in Hst.
  specialize (Hst (R, P, Y, F)). unfold entry in Hst.
  assert ((R, P, Y, F) ∈ acc_keys cfg <->
          R ∈ (REPORTERS cfg).*1 /\ (P ∈ BASE_PARTNERS cfg \/ P = "World")
          /\ Y ∈ YEARS cfg /\ F ∈ FLOWS cfg) as Hkeys.
  { rewrite acc_keys_elem. unfold PARTNERS.
    rewrite elem_of_app, list_elem_of_singleton. tauto. }
  rewrite <- Hkeys. case_bool_decide as Hk.
  - destruct Hst as (a & b & Hab). injection Hab as Ha Hb.
    rewrite Ha, Hb. split; [done|]. split; [done|]. by intros _.
  - injection Hst as Ha Hb. rewrite Ha, Hb. split; [done|].
    split; [by intros [? ?] | done].
Qed.

End RunFacts.

(** ** The rows of the table *)

Lemma concat_mapM_Raise {A B : Type} (f : A -> result (list B)) (l : list A) (e : exn) :
  concat_mapM f l = Raise e -> exists x, x ∈ l /\ f x = Raise e.
Proof.
  induction l as [|x l IH]; simpl; [done|].
  destruct (f x) as [zs|e'] eqn:Hx; simpl.
  - destruct (concat_mapM f l) as [ys|e'']; simpl; [done|].
    intros H; inversion H; subst. destruct IH as (y & Hy & Hfy); [done|].
    exists y. split; [by right | done].
  - intros H; inversion H; subst. exists x. split; [by left | done].
Qed.

Lemma Forall2_fmap_eq {K B V : Type} (g : B -> V) (h : K -> V) (ks : list K) (rs : list B) :
  Forall2 (fun k r => g r = h k) ks rs -> g <$> rs = h <$> ks.
Proof.
  induction 1 as [|k r ks rs Hkr _ IH]; [done|].
  rewrite !fmap_cons. by rewrite Hkr, IH.
Qed.

Section TableFacts.

Context `{C : Conversions}.

Variable fetch : string -> Z -> string -> string -> result DataFrame.
Variable cfg : Config.

Lemma mirrored_rows_keyed (st : accs) (rows2 : list out_row) :
  mirrored_rows cfg st = Ok rows2 ->
  Forall2 (fun (k : key) r =>
             k.1.1.2 = REGION_LABEL_EU cfg /\ mirrored_row cfg st k.1.1.1 k.1.2 k.2 = Ok r)
          (R ← (REPORTERS cfg).*1;
           if String.eqb R (REGION_LABEL_EU cfg) then []
           else Y ← YEARS cfg; F ← FLOWS cfg; [(R, REGION_LABEL_EU cfg, Y, F)])
          rows2.
Proof.
  unfold mirrored_rows.
  apply concat_mapM_Forall2. intros R zs _.
  destruct (String.eqb R (REGION_LABEL_EU cfg)).
  { intros H; inversion H; subst. constructor. }
  apply concat_mapM_Forall2. intros Y zs2 _.
  apply concat_mapM_Forall2. intros F zs3 _ H.
  inv_bind H. inversion H; subst. by repeat constructor.
Qed.

(** X12.  The primary rows are one row for every key of the
    accumulators, in the order of the keys (reporter, then partner, then
    year, then flow): the row of a key names its reporter, partner and
    year, labels its flow, and carries the key's quantity, its value
    times 1000 as dollars and the conversion of that as euros. *)
Theorem primary_rows_in_key_order (st : accs) :
  main_aggregation fetch cfg = Ok st ->
  exists rows1 : list out_row,
    primary_rows cfg st = Ok rows1
    /\ Forall2
         (fun (k : key) r =>
            exists q v,
              st.1 !! k = Some q /\ st.2 !! k = Some v /\
              r = {| Reporter := k.1.1.1; Partner := k.1.1.2;
                     Tradeflow := flow_label k.2; Year := k.1.2;
                     Quantity_in_kg := q;
                     Trade_Value_USD := fmul v (float_of_Z 1000);
                     Trade_Value_EUR := to_eur cfg k.1.2 (fmul v (float_of_Z 1000)) |})
         (acc_keys cfg) rows1.
Proof.
  intros Hst. pose proof (main_aggregation_inv _ _ _ Hst) as Hinv.
  destruct (primary_rows_total cfg st Hinv) as [rows1 H1].
  exists rows1. split; [done|].
  eapply Forall2_impl; [by apply primary_rows_keyed|].
  intros [[[R P] Y] F] r Hr. simpl in Hr.
  apply primary_row_Ok in Hr as (q & v & Hq & Hv & ->). by exists q, v.
Qed.

Lemma mirrored_row_Raise (st : accs) (R : string) (Y : Z) (F : string) (e : exn) :
  acc_inv cfg st -> mirrored_row cfg st R Y F = Raise e ->
  ((REGION_LABEL_EU cfg, R, Y, inverse_flow F) ∉ acc_keys cfg)
  /\ e = KeyError (REGION_LABEL_EU cfg, R, Y, inverse_flow F).
Proof.
  intros Hinv. unfold mirrored_row, acc_get. cbv zeta.
  specialize (Hinv (REGION_LABEL_EU cfg, R, Y, inverse_flow F)). unfold entry in Hinv.
  case_bool_decide as Hk.
  - destruct Hinv as (a & b & Hab). injection Hab as Ha Hb. by rewrite Ha, Hb.
  - injection Hinv as Ha Hb. rewrite Ha. simpl. intros H; by inversion H.
Qed.

Lemma mirrored_row_key (st : accs) (R : string) (Y : Z) (F : string) (r : out_row) :
  acc_inv cfg st -> mirrored_row cfg st R Y F = Ok r ->
  (REGION_LABEL_EU cfg, R, Y, inverse_flow F) ∈ acc_keys cfg.
Proof.
  intros Hinv. unfold mirrored_row, acc_get. cbv zeta.
  specialize (Hinv (REGION_LABEL_EU cfg, R, Y, inverse_flow F)). unfold entry in Hinv.
  case_bool_decide as Hk; [done|].
  injection Hinv as Ha Hb. by rewrite Ha.
Qed.

Lemma acc_keys_World (R : string) (Y : Z) (F : string) :
  R ∈ (REPORTERS cfg).*1 -> Y ∈ YEARS cfg -> F ∈ FLOWS cfg ->
  (R, "World", Y, F) ∈ acc_keys cfg.
Proof.
  intros HR HY HF. apply acc_keys_elem. split; [done|]. split; [|done].
  unfold PARTNERS. rewrite elem_of_app, list_elem_of_singleton. by right.
Qed.

(** Without a key there is no row, primary or mirrored. *)
Lemma no_keys_no_rows (st : accs) :
  acc_keys cfg = [] -> primary_rows cfg st = Ok [] /\ mirrored_rows cfg st = Ok [].
Proof.
  intros Hnil.
  assert (forall R Y F, R ∈ (REPORTERS cfg).*1 -> Y ∈ YEARS cfg -> F ∈ FLOWS cfg -> False)
    as Hnone.
  { intros R Y F HR HY HF. pose proof (acc_keys_World R Y F HR HY HF) as Hk.
    rewrite Hnil in Hk. by apply not_elem_of_nil in Hk. }
  split.
  - destruct (primary_rows cfg st) as [rows1|e] eqn:H1.
    + apply primary_rows_keyed, Forall2_length in H1. rewrite Hnil in H1.
      by destruct rows1.
    + unfold primary_rows in H1.
      apply concat_mapM_Raise in H1 as (R & HR & H1).
      apply concat_mapM_Raise in H1 as (P & HP & H1).
      apply concat_mapM_Raise in H1 as (Y & HY & H1).
      apply concat_mapM_Raise in H1 as (F & HF & H1).
      destruct (Hnone R Y F HR HY HF).
  - destruct (mirrored_rows cfg st) as [rows2|e] eqn:H2.
    + destruct rows2 as [|r rows2]; [done|].
      assert (r ∈ r :: rows2) as Hr by (by left).
      apply (mirrored_rows_elem _ _ _ H2) in Hr as (R & Y & F & HR & _ & HY & HF & _).
      destruct (Hnone R Y F HR HY HF).
    + unfold mirrored_rows in H2.
      apply concat_mapM_Raise in H2 as (R & HR & H2).
      destruct (String.eqb R (REGION_LABEL_EU cfg)); [done|].
      apply concat_mapM_Raise in H2 as (Y & HY & H2).
      apply concat_mapM_Raise in H2 as (F & HF & H2).
      destruct (Hnone R Y F HR HY HF).
Qed.

(** X13.  Once the aggregation has ended well, the table can fail in two
    ways only.  On a mirrored row, with the [KeyError] of a key the
    accumulators were never given: the European Union's entry for a
    reporter that is not among the partners (or, when the European Union
    is no reporter, for any other reporter), or for a flow whose inverse
    is not configured; the entry is not taken as zero.  Or, when the
    configuration has no reporter, no year or no flow, so that there is
    no row at all, with the [KeyError] of the column "Reporter", which a
    frame made of no row does not have.  When the table is built, there
    is a key, and every mirrored key is a key of the accumulators. *)
Theorem final_table_outcome (st : accs) :
  main_aggregation fetch cfg = Ok st ->
  match final_table fetch cfg with
  | Ok out =>
      acc_keys cfg <> [] /\
      forall R Y F,
        R ∈ (REPORTERS cfg).*1 -> R <> REGION_LABEL_EU cfg ->
        Y ∈ YEARS cfg -> F ∈ FLOWS cfg ->
        (REGION_LABEL_EU cfg, R, Y, inverse_flow F) ∈ acc_keys cfg
  | Raise e =>
      (acc_keys cfg <> [] /\
       exists R Y F,
         R ∈ (REPORTERS cfg).*1 /\ R <> REGION_LABEL_EU cfg /\
         Y ∈ YEARS cfg /\ F ∈ FLOWS cfg /\
         ((REGION_LABEL_EU cfg, R, Y, inverse_flow F) ∉ acc_keys cfg) /\
         e = KeyError (REGION_LABEL_EU cfg, R, Y, inverse_flow F))
      \/ (acc_keys cfg = [] /\ e = ColumnKeyError "Reporter")
  end.
Proof.
  intros Hst. pose proof (main_aggregation_inv _ _ _ Hst) as Hinv.
  destruct (acc_keys cfg) as [|k0 ks] eqn:Hkeys.
  { destruct (no_keys_no_rows st Hkeys) as [H1 H2].
    unfold final_table. rewrite Hst; cbn [mbind result_bind].
    rewrite H1; cbn [mbind result_bind]. rewrite H2; cbn [mbind result_bind app].
    by right. }
  destruct (primary_rows_total cfg st Hinv) as [rows1 H1].
  assert (rows1 <> []) as Hrows1.
  { intros ->. apply primary_rows_keyed, Forall2_length in H1.
    rewrite Hkeys in H1. discriminate H1. }
  rewrite <- Hkeys.
  unfold final_table. rewrite Hst; cbn [mbind result_bind].
  rewrite H1; cbn [mbind result_bind].
  destruct (mirrored_rows cfg st) as [rows2|e] eqn:H2; cbn [mbind result_bind].
  - destruct (rows1 ++ rows2) as [|r l] eqn:Happ.
    { apply app_eq_nil in Happ as [? _]. done. }
    split; [by rewrite Hkeys|].
    intros R Y F HR Hne HY HF. unfold mirrored_rows in H2.
    destruct (concat_mapM_each _ _ _ H2 R HR) as [zs Hzs].
    rewrite (proj2 (String.eqb_neq _ _) Hne) in Hzs.
    destruct (concat_mapM_each _ _ _ Hzs Y HY) as [zs1 Hzs1].
    destruct (concat_mapM_each _ _ _ Hzs1 F HF) as [zs2 Hzs2].
    inv_bind Hzs2. by apply (mirrored_row_key st R Y F a).
  - left. split; [by rewrite Hkeys|].
    unfold mirrored_rows in H2.
    apply concat_mapM_Raise in H2 as (R & HR & H2).
    destruct (String.eqb_spec R (REGION_LABEL_EU cfg)) as [->|Hne]; [done|].
    apply concat_mapM_Raise in H2 as (Y & HY & H2).
    apply concat_mapM_Raise in H2 as (F & HF & H2).
    destruct (mirrored_row cfg st R Y F) as [r|e'] eqn:Hrow; [done|].
    simpl in H2. inversion H2; subst e'.
    destruct (mirrored_row_Raise st R Y F e Hinv Hrow) as [Hk He].
    by exists R, Y, F.
Qed.

End TableFacts.

Lemma List_filter_sublist {A : Type} (f : A -> bool) (l : list A) :
  List.filter f l `sublist_of` l.
Proof.
  induction l as [|x l IH]; simpl; [constructor|].
  destruct (f x); by constructor.
Qed.

Lemma NoDup_fmap_inj_on {A B : Type} (f : A -> B) (l : list A) (x y : A) :
  NoDup (f <$> l) -> x ∈ l -> y ∈ l -> f x = f y -> x = y.
Proof.
  induction l as [|a l IH]; intros Hnd Hx Hy Hxy; [by apply not_elem_of_nil in Hx|].
  rewrite fmap_cons in Hnd. apply NoDup_cons in Hnd as [Ha Hnd].
  apply elem_of_cons in Hx as [->|Hx]; apply elem_of_cons in Hy as [->|Hy].
  - done.
  - exfalso. apply Ha. rewrite Hxy. apply list_elem_of_fmap. by exists y.
  - exfalso. apply Ha. rewrite <- Hxy. apply list_elem_of_fmap. by exists x.
  - by apply IH.
Qed.

Lemma key_compare_Eq (a b : out_row) : key_compare a b = Eq -> row_key a = row_key b.
Proof.
  unfold key_compare, row_key.
  destruct (String.compare (Reporter a) (Reporter b)) eqn:HR; try done.
  destruct (String.compare (Partner a) (Partner b)) eqn:HP; try done.
  destruct (Z.compare (Year a) (Year b)) eqn:HY; try done.
  intros HT. apply String.compare_eq_iff in HR, HP, HT. apply Z.compare_eq in HY.
  congruence.
Qed.

Lemma row_key_rename (r : out_row) :
  row_key (rename_row r)
  = (Reporter r, if String.eqb (Partner r) "World" then "Rest of World" else Partner r,
     Year r, Tradeflow r).
Proof. unfold rename_row, row_key. by destruct (String.eqb (Partner r) "World"). Qed.

Section TableKeys.

Context `{C : Conversions}.

Variable fetch : string -> Z -> string -> string -> result DataFrame.
Variable cfg : Config.

Lemma table_row_origin (out : list out_row) (r : out_row) :
  final_table fetch cfg = Ok out -> r ∈ out ->
  exists R P Y F q v,
    R ∈ (REPORTERS cfg).*1 /\ (P ∈ PARTNERS cfg \/ P = REGION_LABEL_EU cfg)
    /\ Y ∈ YEARS cfg /\ F ∈ FLOWS cfg /\ R <> P
    /\ r = rename_row (make_row cfg R P F Y q v).
Proof.
  intros H Hr. apply final_table_Ok in H as (st & rows1 & rows2 & Hst & H1 & H2 & Hout).
  apply (final_table_elem _ st _ _ Hout) in Hr as (r0 & [Hr0|Hr0] & Hne & ->).
  - apply (primary_rows_elem cfg st rows1 H1) in Hr0
      as (R & P & Y & F & HR & HP & HY & HF & Hrow).
    apply primary_row_Ok in Hrow as (q & v & _ & _ & ->).
    exists R, P, Y, F, q, v. split; [done|]. split; [by left|]. done.
  - apply (mirrored_rows_elem cfg st rows2 H2) in Hr0
      as (R & Y & F & HR & _ & HY & HF & Hrow).
    apply mirrored_row_Ok in Hrow as (q & v & _ & _ & ->).
    exists R, (REGION_LABEL_EU cfg), Y, F, q, v. split; [done|]. split; [by right|]. done.
Qed.

(** X14.  Every row of the table is about the configuration: its
    reporter is a configured reporter, its partner a base partner, "Rest
    of World" or the European Union, its year a configured year, and its
    flow the label of a configured flow, "Import" or "Export".  No row
    pairs a reporter with itself, provided no reporter is called "Rest of
    World". *)
Theorem table_rows_well_formed (out : list out_row) (r : out_row) :
  final_table fetch cfg = Ok out -> r ∈ out ->
  Reporter r ∈ (REPORTERS cfg).*1
  /\ (Partner r ∈ BASE_PARTNERS cfg \/ Partner r = "Rest of World"
      \/ Partner r = REGION_LABEL_EU cfg)
  /\ Year r ∈ YEARS cfg
  /\ (exists F, F ∈ FLOWS cfg /\ Tradeflow r = flow_label F)
  /\ (Tradeflow r = "Import" \/ Tradeflow r = "Export")
  /\ ("Rest of World" ∉ (REPORTERS cfg).*1 -> Reporter r <> Partner r).
Proof.
  intros H Hr.
  destruct (table_row_origin out r H Hr)
    as (R & P & Y & F & q & v & HR & HP & HY & HF & Hne & ->).
  unfold rename_row, make_row; cbn [Partner].
  destruct (String.eqb_spec P "World") as [->|HW]; cbn [Reporter Partner Year Tradeflow].
  - split; [done|]. split; [by right; left|]. split; [done|].
    split; [by exists F|]. split.
    + unfold flow_label. destruct (String.eqb F "I"); [by left | by right].
    + intros HRoW ->. done.
  - split; [done|]. split.
    { destruct HP as [HP| ->]; [|by right; right].
      unfold PARTNERS in HP. apply elem_of_app in HP as [HP|HP]; [by left|].
      by apply list_elem_of_singleton in HP. }
    split; [done|]. split; [by exists F|]. split; [|done].
    unfold flow_label. destruct (String.eqb F "I"); [by left | by right].
Qed.

Lemma acc_keys_NoDup :
  NoDup (REPORTERS cfg).*1 -> NoDup (PARTNERS cfg) -> NoDup (YEARS cfg) ->
  NoDup (FLOWS cfg) -> NoDup (acc_keys cfg).
Proof.
  intros HR HP HY HF. unfold acc_keys.
  apply NoDup_bind; [|intros R _|done].
  { intros R R' k _ _ H1 H2.
    apply list_elem_of_bind in H1 as (? & H1 & _).
    apply list_elem_of_bind in H1 as (? & H1 & _).
    apply list_elem_of_bind in H1 as (? & H1 & _).
    apply list_elem_of_singleton in H1.
    apply list_elem_of_bind in H2 as (? & H2 & _).
    apply list_elem_of_bind in H2 as (? & H2 & _).
    apply list_elem_of_bind in H2 as (? & H2 & _).
    apply list_elem_of_singleton in H2. congruence. }
  apply NoDup_bind; [|intros P _|done].
  { intros P P' k _ _ H1 H2.
    apply list_elem_of_bind in H1 as (? & H1 & _).
    apply list_elem_of_bind in H1 as (? & H1 & _).
    apply list_elem_of_singleton in H1.
    apply list_elem_of_bind in H2 as (? & H2 & _).
    apply list_elem_of_bind in H2 as (? & H2 & _).
    apply list_elem_of_singleton in H2. congruence. }
  apply NoDup_bind; [|intros Y _|done].
  { intros Y Y' k _ _ H1 H2.
    apply list_elem_of_bind in H1 as (? & H1 & _).
    apply list_elem_of_singleton in H1.
    apply list_elem_of_bind in H2 as (? & H2 & _).
    apply list_elem_of_singleton in H2. congruence. }
  apply NoDup_bind; [|intros F _; apply NoDup_singleton|done].
  intros F F' k _ _ H1 H2.
  apply list_elem_of_singleton in H1. apply list_elem_of_singleton in H2. congruence.
Qed.

Lemma mirrored_keys_elem (k : key) :
  k ∈ (R ← (REPORTERS cfg).*1;
        if String.eqb R (REGION_LABEL_EU cfg) then []
        else Y ← YEARS cfg; F ← FLOWS cfg; [(R, REGION_LABEL_EU cfg, Y, F)]) ->
  exists R Y F, k = (R, REGION_LABEL_EU cfg, Y, F) /\ R ∈ (REPORTERS cfg).*1
                /\ Y ∈ YEARS cfg /\ F ∈ FLOWS cfg.
Proof.
  intros H. apply list_elem_of_bind in H as (R & H & HR).
  destruct (String.eqb R (REGION_LABEL_EU cfg)); [by apply not_elem_of_nil in H|].
  apply list_elem_of_bind in H as (Y & H & HY).
  apply list_elem_of_bind in H as (F & H & HF).
  apply list_elem_of_singleton in H. by exists R, Y, F.
Qed.

Lemma mirrored_keys_NoDup :
  NoDup (REPORTERS cfg).*1 -> NoDup (YEARS cfg) -> NoDup (FLOWS cfg) ->
  NoDup (R ← (REPORTERS cfg).*1;
         if String.eqb R (REGION_LABEL_EU cfg) then []
         else Y ← YEARS cfg; F ← FLOWS cfg; [(R, REGION_LABEL_EU cfg, Y, F)]).
Proof.
  intros HR HY HF.
  apply NoDup_bind; [|intros R _|done].
  { intros R R' k _ _ H1 H2.
    destruct (String.eqb R (REGION_LABEL_EU cfg)); [by apply not_elem_of_nil in H1|].
    destruct (String.eqb R' (REGION_LABEL_EU cfg)); [by apply not_elem_of_nil in H2|].
    apply list_elem_of_bind in H1 as (? & H1 & _).
    apply list_elem_of_bind in H1 as (? & H1 & _).
    apply list_elem_of_singleton in H1.
    apply list_elem_of_bind in H2 as (? & H2 & _).
    apply list_elem_of_bind in H2 as (? & H2 & _).
    apply list_elem_of_singleton in H2. congruence. }
  destruct (String.eqb R (REGION_LABEL_EU cfg)); [constructor|].
  apply NoDup_bind; [|intros Y _|done].
  { intros Y Y' k _ _ H1 H2.
    apply list_elem_of_bind in H1 as (? & H1 & _).
    apply list_elem_of_singleton in H1.
    apply list_elem_of_bind in H2 as (? & H2 & _).
    apply list_elem_of_singleton in H2. congruence. }
  apply NoDup_bind; [|intros F _; apply NoDup_singleton|done].
  intros F F' k _ _ H1 H2.
  apply list_elem_of_singleton in H1. apply list_elem_of_singleton in H2. congruence.
Qed.

Lemma table_keys_NoDup (out : list out_row) :
  keys_distinct cfg -> final_table fetch cfg = Ok out -> NoDup (row_key <$> out).
Proof.
  intros (HR & HP & HY & HFl & HEU & HRoW) H.
  assert (NoDup (FLOWS cfg)) as HF by (by apply NoDup_fmap_1 in HFl).
  apply not_elem_of_cons in HRoW as [HRoWEU HRoW].
  apply final_table_Ok in H as (st & rows1 & rows2 & Hst & H1 & H2 & ->).
  unfold sort_values. rewrite merge_sort_Permutation.
  unfold rename_world. fold rename_row.
  change (map (fun r => rename_row r)) with (fmap (M := list) rename_row).
  rewrite <- list_fmap_compose.
  set (K1 := acc_keys cfg).
  set (K2 := R ← (REPORTERS cfg).*1;
             if String.eqb R (REGION_LABEL_EU cfg) then []
             else Y ← YEARS cfg; F ← FLOWS cfg; [(R, REGION_LABEL_EU cfg, Y, F)]).
  set (lab := fun k : key =>
    (k.1.1.1, if String.eqb k.1.1.2 "World" then "Rest of World" else k.1.1.2,
     k.1.2, flow_label k.2)).
  assert (row_key ∘ rename_row <$> rows1 ++ rows2 = lab <$> K1 ++ K2) as Hkeys.
  { rewrite !fmap_app. f_equal.
    - apply Forall2_fmap_eq.
      eapply Forall2_impl; [by apply primary_rows_keyed|].
      intros [[[R P] Y] F] r Hr. simpl in Hr.
      apply primary_row_Ok in Hr as (q & v & _ & _ & ->).
      unfold compose. by rewrite row_key_rename.
    - apply Forall2_fmap_eq.
      eapply Forall2_impl; [by apply mirrored_rows_keyed|].
      intros [[[R P] Y] F] r [HPeu Hr]. simpl in HPeu, Hr. subst P.
      apply mirrored_row_Ok in Hr as (q & v & _ & _ & ->).
      unfold compose. by rewrite row_key_rename. }
  apply sublist_NoDup with (row_key ∘ rename_row <$> rows1 ++ rows2);
    [|apply fmap_sublist, List_filter_sublist].
  rewrite Hkeys.
  assert (forall k, k ∈ K1 ++ K2 ->
            (k.1.1.2 ∈ PARTNERS cfg \/ k.1.1.2 = REGION_LABEL_EU cfg)
            /\ k.2 ∈ FLOWS cfg) as Hmem.
  { intros [[[R P] Y] F] Hk. apply elem_of_app in Hk as [Hk|Hk].
    - apply acc_keys_elem in Hk as (_ & HPk & _ & HFk). split; [by left | done].
    - apply mirrored_keys_elem in Hk as (R' & Y' & F' & Hk & _ & _ & HFk).
      inversion Hk; subst. split; [by right | done]. }
  assert (forall P, P ∈ PARTNERS cfg \/ P = REGION_LABEL_EU cfg ->
            P <> "Rest of World") as Hlabel.
  { intros P [HPk| ->] HP'; subst; done. }
  apply NoDup_fmap_2_strong.
  - intros [[[R P] Y] F] [[[R' P'] Y'] F'] Hk Hk' Hlab.
    destruct (Hmem _ Hk) as [HPk HFk]. destruct (Hmem _ Hk') as [HPk' HFk'].
    simpl in HPk, HFk, HPk', HFk'.
    apply Hlabel in HPk, HPk'.
    unfold lab in Hlab. simpl in Hlab. injection Hlab as HRe HPe HYe HFe.
    apply (NoDup_fmap_inj_on flow_label (FLOWS cfg)) in HFe; [|done..].
    subst R' Y' F'. f_equal. f_equal. f_equal.
    destruct (String.eqb_spec P "World") as [->|HW];
      destruct (String.eqb_spec P' "World") as [->|HW']; congruence.
  - apply NoDup_app. split; [by apply acc_keys_NoDup|]. split; [|by apply mirrored_keys_NoDup].
    intros [[[R P] Y] F] Hk Hk'.
    apply acc_keys_elem in Hk as (_ & HPk & _).
    apply mirrored_keys_elem in Hk' as (R' & Y' & F' & Hk' & _).
    inversion Hk'; subst. done.
Qed.

(** X15.  When the labels of the configuration tell the rows apart, the
    table has at most one row for a reporter, partner, year and flow, and
    its rows stand in strictly increasing order of (reporter, partner,
    year, flow). *)
Theorem table_keys_unique (out : list out_row) :
  keys_distinct cfg -> final_table fetch cfg = Ok out ->
  (forall (i j : nat) (a b : out_row),
     out !! i = Some a -> out !! j = Some b ->
     Reporter a = Reporter b -> Partner a = Partner b -> Year a = Year b ->
     Tradeflow a = Tradeflow b -> i = j)
  /\ (forall (i : nat) (a b : out_row),
        out !! i = Some a -> out !! S i = Some b -> key_compare a b = Lt).
Proof.
  intros Hcfg H. pose proof (table_keys_NoDup out Hcfg H) as Hnd.
  assert (forall (i j : nat) (a b : out_row),
            out !! i = Some a -> out !! j = Some b -> row_key a = row_key b -> i = j)
    as Huniq.
  { intros i j a b Ha Hb Hab.
    apply (NoDup_lookup (row_key <$> out) i j (row_key a)); [done|..].
    - by rewrite list_lookup_fmap, Ha.
    - by rewrite list_lookup_fmap, Hb, Hab. }
  split.
  - intros i j a b Ha Hb HR HP HY HT. apply (Huniq i j a b); [done..|].
    unfold row_key. congruence.
  - intros i a b Ha Hb.
    apply final_table_Ok in H as (st & rows1 & rows2 & _ & _ & _ & Hout).
    assert (key_compare a b <> Gt) as Hle.
    { apply (Sorted_adjacent key_le out) with (i := i); [|done|done].
      rewrite Hout. apply (Sorted_merge_sort key_le). }
    destruct (key_compare a b) eqn:Hc; [|done|done].
    apply key_compare_Eq in Hc. specialize (Huniq i (S i) a b Ha Hb Hc). lia.
Qed.

End TableKeys.

(** ** The further properties on the example data *)

(** X2 on two requests that differ in the reporter. *)
Lemma cache_file_name_inj_witness :
  cache_file_name "EUN" 2020 "I" "430110" = cache_file_name "CHN" 2020 "I" "430110"
  <-> "EUN" = "CHN" /\ 2020 = 2020 /\ "I" = "I" /\ "430110" = "430110".
Proof.
  apply (cache_file_name_inj "EUN" "CHN" 2020 2020 "I" "I" "430110" "430110");
    reflexivity.
Defined.

(** X3 on two requests that differ in the year. *)
Lemma build_url_inj_witness :
  build_url "EUN" 2020 "E" "430110" = build_url "EUN" 2021 "E" "430110"
  <-> "EUN" = "EUN" /\ 2020 = 2021 /\ "E" = "E" /\ "430110" = "430110".
Proof.
  apply (build_url_inj "EUN" "EUN" 2020 2021 "E" "E" "430110" "430110");
    reflexivity.
Defined.

Lemma small_loop_Ok : is_Ok small_loop.1 = true.
Proof. vm_compute. reflexivity. Qed.

(** X5 on the small configuration, from an empty cache directory: the
    run ends well, and with the network down a second run from the files
    it left ends in the same accumulators. *)
Lemma main_loop_repeatable_witness :
  exists st w',
    small_loop = (Ok st, w')
    /\ main_loop (C := text_only) no_network example_read true small_config w'
       = (Ok st, w')
    /\ main_aggregation (C := text_only) (cached_sheet example_read w'.1) small_config
       = Ok st.
Proof.
  destruct small_loop as [[st|e] w'] eqn:Hrun.
  - exists st, w'.
    destruct (main_loop_repeatable (C := text_only) example_download example_read
                small_config (∅, 0%nat) w' st Hrun) as (_ & Hre & Hagg).
    split; [reflexivity|]. split; [|exact Hagg].
    apply (Hre nat no_network w'). reflexivity.
  - pose proof small_loop_Ok as H. rewrite Hrun in H. discriminate H.
Defined.

Lemma example_prep_Ok : is_Ok (_prep_kg_rows (C := text_only) example_df) = true.
Proof. vm_compute. reflexivity. Qed.

(** X7 on the worked example. *)
Lemma prepared_frame_witness :
  exists d,
    _prep_kg_rows (C := text_only) example_df = Ok d
    /\ columns d = columns example_df
    /\ (length (rows d) <= length (rows example_df))%nat
    /\ get_col "Quantity" d = [CInt 100; CInt 10].
Proof.
  destruct (_prep_kg_rows (C := text_only) example_df) as [d|e] eqn:Hd.
  - exists d.
    destruct (prepared_frame_invariants (C := text_only) example_df d Hd)
      as (Hc & Hl & _).
    split; [reflexivity|]. split; [exact Hc|]. split; [exact Hl|].
    assert (result_default []
              (d ← _prep_kg_rows (C := text_only) example_df; Ok (get_col "Quantity" d))
            = [CInt 100; CInt 10]) as Hq by (vm_compute; reflexivity).
    rewrite Hd in Hq. exact Hq.
  - pose proof example_prep_Ok as H. rewrite Hd in H. discriminate H.
Defined.

(** X9 on the small configuration, every sheet holding the reporter's
    own total under "World". *)
Lemma excluded_rows_witness :
  figures_typed world_df = true
  /\ rows (without_excluded (C := text_only) small_config world_df) = rows example_df
  /\ main_aggregation (C := text_only)
       (fun c y f p => df ← world_fetch c y f p;
                         Ok (without_excluded (C := text_only) small_config df))
       small_config
     = main_aggregation (C := text_only) world_fetch small_config.
Proof.
  assert (figures_typed world_df = true) as Ht by (vm_compute; reflexivity).
  split; [exact Ht|]. split; [vm_compute; reflexivity|].
  apply (excluded_rows_ignored (C := text_only) world_fetch small_config).
  intros c y f p df H. inversion H. exact Ht.
Defined.

(** X11 on the small configuration, at a key of the accumulators. *)
Lemma accumulators_keep_keys_witness :
  exists st,
    main_aggregation (C := text_only) example_fetch small_config = Ok st
    /\ is_Some (st.1 !! ("China", "Japan", 2020, "E"))
    /\ is_Some (st.2 !! ("China", "Japan", 2020, "E")).
Proof.
  destruct small_run_exists as (st & Hst & _).
  exists st. split; [exact Hst|].
  destruct (accumulators_keep_keys (C := text_only) example_fetch small_config st
              "China" "Japan" 2020 "E" Hst) as [H12 Hkeys].
  assert (is_Some (st.1 !! ("China", "Japan", 2020, "E"))) as H1.
  { apply Hkeys. split; [by_compute|]. split; [left; by_compute|].
    split; by_compute. }
  split; [exact H1 | apply H12; exact H1].
Defined.

(** X12 on the small configuration. *)
Lemma primary_rows_witness :
  exists st rows1,
    main_aggregation (C := text_only) example_fetch small_config = Ok st
    /\ primary_rows small_config st = Ok rows1
    /\ length rows1 = length (acc_keys small_config).
Proof.
  destruct small_run_exists as (st & Hst & _).
  destruct (primary_rows_in_key_order (C := text_only) example_fetch small_config st Hst)
    as (rows1 & H1 & Hall).
  exists st, rows1. split; [exact Hst|]. split; [exact H1|].
  symmetry. exact (Forall2_length _ _ _ Hall).
Defined.

Lemma example_df_columns : missing_columns example_df = [].
Proof. vm_compute. reflexivity. Qed.

(** X13 on a configuration whose reporter Chile is no partner: the
    table is not built, the European Union's entry for Chile is missing;
    and on a configuration without a year: there is no row, and the
    column "Reporter" is missing. *)
Lemma final_table_outcome_witness :
  (exists k,
     final_table (C := text_only) example_fetch lone_config = Raise (KeyError k)
     /\ k ∉ acc_keys lone_config)
  /\ final_table (C := text_only) example_fetch no_years_config
     = Raise (ColumnKeyError "Reporter").
Proof.
  split.
  - destruct (main_aggregation_total (C := text_only) example_fetch lone_config)
      as [st Hst].
    { intros R c Y F p _ _ _ _. exists example_df. split; [reflexivity|].
      exact example_df_columns. }
    pose proof (final_table_outcome (C := text_only) example_fetch lone_config st Hst)
      as H.
    destruct (final_table (C := text_only) example_fetch lone_config) as [out|e].
    + exfalso.
      assert (("European Union", "Chile", 2020, "E") ∉ acc_keys lone_config) as Hn
        by by_compute.
      apply Hn.
      apply (proj2 H "Chile" 2020 "I"); [by_compute | discriminate | by_compute..].
    + destruct H as [(_ & R & Y & F & _ & _ & _ & _ & Hk & ->)|(Hnil & _)].
      * exists (REGION_LABEL_EU lone_config, R, Y, inverse_flow F).
        split; [reflexivity | exact Hk].
      * vm_compute in Hnil. discriminate Hnil.
  - destruct (main_aggregation_total (C := text_only) example_fetch no_years_config)
      as [st Hst].
    { intros R c Y F p _ _ _ _. exists example_df. split; [reflexivity|].
      exact example_df_columns. }
    pose proof (final_table_outcome (C := text_only) example_fetch no_years_config st Hst)
      as H.
    assert (acc_keys no_years_config = []) as Hnil by (vm_compute; reflexivity).
    destruct (final_table (C := text_only) example_fetch no_years_config) as [out|e].
    + destruct H as [Hne _]. destruct (Hne Hnil).
    + destruct H as [(Hne & _)|(_ & ->)]; [destruct (Hne Hnil) | reflexivity].
Defined.

(** X14 on the first row of the table of the small configuration. *)
Lemma table_rows_witness :
  exists r,
    small_table !! 0%nat = Some r
    /\ Reporter r ∈ (REPORTERS small_config).*1
    /\ Year r ∈ YEARS small_config
    /\ (Tradeflow r = "Import" \/ Tradeflow r = "Export").
Proof.
  destruct small_table_first as (r & Hr & _).
  exists r. split; [exact Hr|].
  assert (r ∈ small_table) as Hin by (by apply list_elem_of_lookup_2 with 0%nat).
  destruct (table_rows_well_formed (C := text_only) example_fetch small_config
              small_table r small_table_Ok Hin) as (HR & _ & HY & _ & HT & _).
  split; [exact HR|]. split; [exact HY | exact HT].
Defined.

(** X15 on the small configuration; the compiled-in configuration meets
    the condition as well. *)
Lemma table_keys_witness :
  keys_distinct config /\ keys_distinct small_config
  /\ (forall (i : nat) (a b : out_row),
        small_table !! i = Some a -> small_table !! S i = Some b ->
        key_compare a b = Lt).
Proof.
  assert (keys_distinct config) as Hc by by_compute.
  assert (keys_distinct small_config) as Hs by by_compute.
  split; [exact Hc|]. split; [exact Hs|].
  destruct (table_keys_unique (C := text_only) example_fetch small_config small_table
              Hs small_table_Ok) as [_ Hlt].
  exact Hlt.
Defined.

